(** * Charity backend: credential lifecycle and field encryption

    A shallow embedding of the charity-code (credential) routes, the
    Mongoose models they use and the field encryption utility, followed by
    the properties of the credential-lifecycle specification.

    Conventions.
    - A MongoDB collection is the list of its documents in insertion order;
      [findOne] returns the first match, [countDocuments] the number of
      matches.
    - An [ObjectId] is a natural number, a [Date] the number of
      milliseconds since the epoch.
    - An [async] route handler is a sequence of atomic steps, one per
      database round trip: JavaScript runs the code between two [await]s
      without interruption, so requests interleave only at these points.
    - A JavaScript string that is encrypted is the list of its UTF-16 code
      units; codes, e-mail addresses and messages are Rocq strings. *)

From Stdlib Require Import ZArith List Bool Lia Ascii String.
From stdpp Require Import base option list gmap strings pretty.

Import ListNotations.
Local Open Scope string_scope.

Definition ObjectId := nat.
Definition Date := Z.

(** * Part I: the embedding *)

(** ** The Node.js string encodings used by utils/encryption.js

    [cipher.update(text, 'utf8', 'hex')] turns the string into bytes with
    the ['utf8'] encoding and the cipher text into a string with ['hex'];
    [decipher.update(encrypted, 'hex', 'utf8')] goes the other way. *)

Module Encoding.
Local Open Scope Z_scope.
Local Open Scope list_scope.

Definition jsstring := list Z.
Definition bytes := list Z.

Definition is_byte (b : Z) : Prop := 0 <= b < 256.

Definition isHighSurrogate (u : Z) : bool := (0xD800 <=? u) && (u <=? 0xDBFF).
Definition isLowSurrogate (u : Z) : bool := (0xDC00 <=? u) && (u <=? 0xDFFF).

(** A Unicode scalar value: a code point that is not a surrogate. *)
Definition is_scalar (c : Z) : Prop :=
  0 <= c < 0xD800 \/ 0xE000 <= c < 0x110000.

(** U+FFFD, written for every unpaired surrogate and every invalid byte. *)
Definition REPLACEMENT : Z := 0xFFFD.

Definition encodeCodePoint (c : Z) : bytes :=
  if c <? 0x80 then [c]
  else if c <? 0x800 then [0xC0 + c / 64; 0x80 + c mod 64]
  else if c <? 0x10000 then
    [0xE0 + c / 4096; 0x80 + (c / 64) mod 64; 0x80 + c mod 64]
  else
    [0xF0 + c / 262144; 0x80 + (c / 4096) mod 64;
     0x80 + (c / 64) mod 64; 0x80 + c mod 64].

(** String to bytes, ['utf8']: a surrogate pair is one code point, an
    unpaired surrogate is replaced by U+FFFD. *)
Fixpoint utf8Write (s : jsstring) : bytes :=
  match s with
  | [] => []
  | u :: t =>
    if isHighSurrogate u then
      match t with
      | v :: t' =>
        if isLowSurrogate v
        then encodeCodePoint (0x10000 + (u - 0xD800) * 1024 + (v - 0xDC00))
               ++ utf8Write t'
        else encodeCodePoint REPLACEMENT ++ utf8Write t
      | [] => encodeCodePoint REPLACEMENT
      end
    else if isLowSurrogate u then encodeCodePoint REPLACEMENT ++ utf8Write t
    else encodeCodePoint u ++ utf8Write t
  end.

(** Bytes to string, ['utf8']: the decoder of the Encoding Standard.
    [Pending cp more lower upper]: [more] continuation bytes are expected
    after the next one, which must lie in [lower..upper]. *)
Inductive DecoderState :=
| Idle
| Pending (cp : Z) (more : nat) (lower upper : Z).

Definition codePointToUnits (c : Z) : jsstring :=
  if c <? 0x10000 then [c]
  else [0xD800 + (c - 0x10000) / 1024; 0xDC00 + (c - 0x10000) mod 1024].

Definition decodeLead (b : Z) : jsstring * DecoderState :=
  if b <=? 0x7F then ([b], Idle)
  else if (0xC2 <=? b) && (b <=? 0xDF) then ([], Pending (b mod 32) 0 0x80 0xBF)
  else if (0xE0 <=? b) && (b <=? 0xEF) then
    ([], Pending (b mod 16) 1 (if b =? 0xE0 then 0xA0 else 0x80)
                              (if b =? 0xED then 0x9F else 0xBF))
  else if (0xF0 <=? b) && (b <=? 0xF4) then
    ([], Pending (b mod 8) 2 (if b =? 0xF0 then 0x90 else 0x80)
                             (if b =? 0xF4 then 0x8F else 0xBF))
  else ([REPLACEMENT], Idle).

Definition decodeByte (st : DecoderState) (b : Z) : jsstring * DecoderState :=
  match st with
  | Idle => decodeLead b
  | Pending cp more lower upper =>
    if (lower <=? b) && (b <=? upper) then
      let cp' := cp * 64 + b mod 64 in
      match more with
      | O => (codePointToUnits cp', Idle)
      | S more' => ([], Pending cp' more' 0x80 0xBF)
      end
    else
      let '(out, st') := decodeLead b in (REPLACEMENT :: out, st')
  end.

Fixpoint utf8DecodeFrom (st : DecoderState) (bs : bytes) : jsstring :=
  match bs with
  | [] => match st with Idle => [] | Pending _ _ _ _ => [REPLACEMENT] end
  | b :: t => let '(out, st') := decodeByte st b in out ++ utf8DecodeFrom st' t
  end.

Definition utf8Slice (bs : bytes) : jsstring := utf8DecodeFrom Idle bs.

(** Bytes to string, ['hex']: two lower-case digits per byte. *)
Definition hexDigit (n : Z) : Z := if n <? 10 then 48 + n else 87 + n.

Definition hexSlice (bs : bytes) : jsstring :=
  flat_map (fun b => [hexDigit (b / 16); hexDigit (b mod 16)]) bs.

(** String to bytes, ['hex']: digits of either case, each code unit being
    read by its low byte (the decoder casts the unit to [uint8_t] before
    it looks the digit up); decoding stops at the first pair that is not
    two hexadecimal digits. *)
Definition unhex (u : Z) : option Z :=
  let c := Z.land u 255 in
  if (48 <=? c) && (c <=? 57) then Some (c - 48)
  else if (97 <=? c) && (c <=? 102) then Some (c - 87)
  else if (65 <=? c) && (c <=? 70) then Some (c - 55)
  else None.

Fixpoint hexDecode (s : jsstring) : bytes :=
  match s with
  | a :: b :: t =>
    match unhex a, unhex b with
    | Some x, Some y => (x * 16 + y) :: hexDecode t
    | _, _ => []
    end
  | _ => []
  end.

(** A hexadecimal input of odd length is refused ([None]: the call throws). *)
Definition hexWrite (s : jsstring) : option bytes :=
  if Nat.odd (length s) then None else Some (hexDecode s).

(** [String.prototype.isWellFormed]: code units in range and no unpaired
    surrogate. *)
Fixpoint isWellFormed (s : jsstring) : bool :=
  match s with
  | [] => true
  | u :: t =>
    if isHighSurrogate u then
      match t with
      | v :: t' => isLowSurrogate v && isWellFormed t'
      | [] => false
      end
    else negb (isLowSurrogate u) && (0 <=? u) && (u <? 65536) && isWellFormed t
  end.

End Encoding.

(** ** utils/encryption.js *)

Module EncryptionUtil.
Import Encoding.
Local Open Scope list_scope.

(** The values a field can hold: [undefined], [null] or a string. *)
Inductive JsVal :=
| Undefined
| Null
| Str (s : jsstring).

(** JavaScript truthiness: [!v] is [negb (truthy v)]. *)
Definition truthy (v : JsVal) : bool :=
  match v with
  | Str (_ :: _) => true
  | _ => false
  end.

(** The block cipher of [crypto], with the key derived from
    [ENCRYPTION_KEY]: [cipherBytes] is the output of
    [createCipher('aes192', key)], [update] followed by [final];
    [decipherBytes] that of [createDecipher], [None] when [update] or
    [final] throws. *)
Record Crypto := mkCrypto {
  cipherBytes : bytes -> bytes;
  decipherBytes : bytes -> option bytes
}.

(** What is assumed of the cipher: it produces at least one byte, only
    bytes, and the decipher inverts it. *)
Record CryptoSpec (K : Crypto) : Prop := mkCryptoSpec {
  cipher_is_bytes : forall bs, Forall is_byte bs -> Forall is_byte (cipherBytes K bs);
  cipher_nonempty : forall bs, cipherBytes K bs <> [];
  decipher_cipher : forall bs, Forall is_byte bs ->
                               decipherBytes K (cipherBytes K bs) = Some bs
}.

(** [static simpleEncrypt(text)]. *)
Definition simpleEncrypt (K : Crypto) (text : JsVal) : JsVal :=
  if negb (truthy text) then Null
  else match text with
       | Str s => Str (hexSlice (cipherBytes K (utf8Write s)))
       | _ => Null
       end.

(** [static simpleDecrypt(encrypted)]: the [catch] turns every exception
    of the decipher into [null]. *)
Definition simpleDecrypt (K : Crypto) (encrypted : JsVal) : JsVal :=
  if negb (truthy encrypted) then Null
  else match encrypted with
       | Str s =>
         match hexWrite s with
         | None => Null                        (* catch (error) *)
         | Some bs =>
           match decipherBytes K bs with
           | None => Null                      (* catch (error) *)
           | Some plain => Str (utf8Slice plain)
           end
         end
       | _ => Null
       end.

(** Whether the pipeline inside the [try] block throws on [s]. *)
Definition decipherThrows (K : Crypto) (s : jsstring) : bool :=
  match hexWrite s with
  | None => true
  | Some bs => match decipherBytes K bs with None => true | Some _ => false end
  end.

End EncryptionUtil.

(** ** models/CharityCode.js *)

Module CharityCode.

(** The nested path [usedBy: { user, usedAt }]. *)
Record UsedBy := mkUsedBy {
  user : option ObjectId;
  usedAt : option Date
}.

Record t := mk {
  _id : ObjectId;
  code : string;              (* unique, uppercase, trim *)
  expiresAt : Date;
  isUsed : bool;              (* default: false *)
  usedBy : UsedBy;
  createdBy : ObjectId;
  description : option string;
  isActive : bool             (* default: true *)
}.

(** [charityCodeSchema.methods.isValidForUse]; [now] is the [new Date()]
    read inside the method. *)
Definition isValidForUse (now : Date) (this : t) : bool :=
  isActive this && (now <? expiresAt this)%Z && negb (isUsed this).

(** The fields [useCode] assigns before [this.save()]. *)
Definition markUsed (userId : ObjectId) (now : Date) (this : t) : t :=
  {| _id := _id this; code := code this; expiresAt := expiresAt this;
     isUsed := true;
     usedBy := {| user := Some userId; usedAt := Some now |};
     createdBy := createdBy this; description := description this;
     isActive := isActive this |}.

(** The field the deactivation route assigns. *)
Definition deactivate (this : t) : t :=
  {| _id := _id this; code := code this; expiresAt := expiresAt this;
     isUsed := isUsed this; usedBy := usedBy this;
     createdBy := createdBy this; description := description this;
     isActive := false |}.

(** [new CharityCode({ code, expiresAt, description, createdBy })], with
    the defaults of the schema. *)
Definition create (id : ObjectId) (c : string) (exp : Date)
    (descr : option string) (by_ : ObjectId) : t :=
  {| _id := id; code := c; expiresAt := exp; isUsed := false;
     usedBy := {| user := None; usedAt := None |};
     createdBy := by_; description := descr; isActive := true |}.

(** [const characters = 'ABCDEFGHIJKLMNOPQRSTUVWXYZ0123456789']. *)
Definition characters : string := "ABCDEFGHIJKLMNOPQRSTUVWXYZ0123456789".

(** [characters.charAt(i)] as a one-character string. *)
Definition charAt (i : nat) : string :=
  match String.get i characters with
  | Some c => String c EmptyString
  | None => EmptyString
  end.

(** [charityCodeSchema.statics.generateCode]: [rand k], for [k < 8], is
    the value of [Math.floor(Math.random() * characters.length)] in the
    [k]-th round of the loop. *)
Definition generateCode (rand : nat -> nat) : string :=
  fold_left (fun result k => result ++ charAt (rand k)) (seq 0 8) "".

End CharityCode.

(** ** models/User.js *)

(** Plain JavaScript values, as [toObject()] returns them. *)
Unset Elimination Schemes.
Inductive JSON :=
| JNull
| JBool (b : bool)
| JNum (n : Z)
| JStr (s : string)
| JArr (items : list JSON)
| JObj (fields : list (string * JSON)).
Set Elimination Schemes.

Module User.

Inductive AccountType := individual | charity | admin.

Definition AccountType_eqb (a b : AccountType) : bool :=
  match a, b with
  | individual, individual | charity, charity | admin, admin => true
  | _, _ => false
  end.

(** The nested path [charityAuthorization]. *)
Record CharityAuthorization := mkAuth {
  code : option ObjectId;
  authorizedAt : option Date;
  canCreateCharity : bool     (* default: false *)
}.

Record Address := mkAddress {
  street : option string;
  city : option string;
  state : option string;
  zipCode : option string;
  country : option string
}.

Record PersonalInfo := mkPersonalInfo {
  firstName : option string;
  lastName : option string;
  phone : option string;
  address : Address;
  dateOfBirth : option string;
  description : option string
}.

Record Profile := mkProfile {
  displayName : option string;
  profilePicture : option string;
  isPublic : bool;
  notifications_email : bool;
  notifications_sms : bool;
  privacy_showEmail : bool;
  privacy_showPhone : bool
}.

Record t := mk {
  _id : ObjectId;
  email : string;
  password : string;          (* the bcrypt hash once saved *)
  accountType : AccountType;
  charityAuthorization : CharityAuthorization;
  personalInfo : PersonalInfo;
  profile : Profile;
  refreshTokens : list string;
  lastLogin : option Date;
  isActive : bool;
  emailVerified : bool;
  verificationToken : option string;
  createdAt : Date;
  updatedAt : Date
}.

Definition set_charityAuthorization (a : CharityAuthorization) (u : t) : t :=
  {| _id := _id u; email := email u; password := password u;
     accountType := accountType u; charityAuthorization := a;
     personalInfo := personalInfo u; profile := profile u;
     refreshTokens := refreshTokens u; lastLogin := lastLogin u;
     isActive := isActive u; emailVerified := emailVerified u;
     verificationToken := verificationToken u;
     createdAt := createdAt u; updatedAt := updatedAt u |}.

Definition set_accountType (a : AccountType) (u : t) : t :=
  {| _id := _id u; email := email u; password := password u;
     accountType := a; charityAuthorization := charityAuthorization u;
     personalInfo := personalInfo u; profile := profile u;
     refreshTokens := refreshTokens u; lastLogin := lastLogin u;
     isActive := isActive u; emailVerified := emailVerified u;
     verificationToken := verificationToken u;
     createdAt := createdAt u; updatedAt := updatedAt u |}.

Definition set_isActive (b : bool) (u : t) : t :=
  {| _id := _id u; email := email u; password := password u;
     accountType := accountType u; charityAuthorization := charityAuthorization u;
     personalInfo := personalInfo u; profile := profile u;
     refreshTokens := refreshTokens u; lastLogin := lastLogin u;
     isActive := b; emailVerified := emailVerified u;
     verificationToken := verificationToken u;
     createdAt := createdAt u; updatedAt := updatedAt u |}.

(** Object literals: a key whose value is [undefined] is left out. *)
Definition field {A} (k : string) (f : A -> JSON) (v : option A)
  : list (string * JSON) :=
  match v with
  | Some x => [(k, f x)]
  | None => []
  end.

Definition accountType_name (a : AccountType) : string :=
  match a with
  | individual => "individual"
  | charity => "charity"
  | admin => "admin"
  end.

Definition JId (i : ObjectId) : JSON := JNum (Z.of_nat i).

Definition charityAuthorization_toObject (a : CharityAuthorization) : JSON :=
  JObj (field "code" JId (code a)
        ++ field "authorizedAt" JNum (authorizedAt a)
        ++ [("canCreateCharity", JBool (canCreateCharity a))]).

Definition address_toObject (a : Address) : JSON :=
  JObj (field "street" JStr (street a) ++ field "city" JStr (city a)
        ++ field "state" JStr (state a) ++ field "zipCode" JStr (zipCode a)
        ++ field "country" JStr (country a)).

Definition personalInfo_toObject (p : PersonalInfo) : JSON :=
  JObj (field "firstName" JStr (firstName p)
        ++ field "lastName" JStr (lastName p)
        ++ field "phone" JStr (phone p)
        ++ [("address", address_toObject (address p))]
        ++ field "dateOfBirth" JStr (dateOfBirth p)
        ++ field "description" JStr (description p)).

Definition profile_toObject (p : Profile) : JSON :=
  JObj (field "displayName" JStr (displayName p)
        ++ field "profilePicture" JStr (profilePicture p)
        ++ [("isPublic", JBool (isPublic p));
            ("preferences",
             JObj [("notifications",
                    JObj [("email", JBool (notifications_email p));
                          ("sms", JBool (notifications_sms p))]);
                   ("privacy",
                    JObj [("showEmail", JBool (privacy_showEmail p));
                          ("showPhone", JBool (privacy_showPhone p))])])]).

(** [this.toObject()]: the plain object with the paths of the document. *)
Definition toObject (this : t) : gmap string JSON :=
  list_to_map
    ([("_id", JId (_id this));
      ("email", JStr (email this));
      ("password", JStr (password this));
      ("accountType", JStr (accountType_name (accountType this)));
      ("charityAuthorization",
       charityAuthorization_toObject (charityAuthorization this));
      ("personalInfo", personalInfo_toObject (personalInfo this));
      ("profile", profile_toObject (profile this));
      ("refreshTokens", JArr (map JStr (refreshTokens this)))]
     ++ field "lastLogin" JNum (lastLogin this)
     ++ [("isActive", JBool (isActive this));
         ("emailVerified", JBool (emailVerified this))]
     ++ field "verificationToken" JStr (verificationToken this)
     ++ [("createdAt", JNum (createdAt this));
         ("updatedAt", JNum (updatedAt this))]).

(** [userSchema.methods.toJSON]. *)
Definition toJSON (this : t) : gmap string JSON :=
  let user := toObject this in
  let user := delete "password" user in
  let user := delete "refreshTokens" user in
  let user := delete "verificationToken" user in
  user.

End User.

(** ** models/Charity.js *)

Module Charity.
Import EncryptionUtil.

Module BasicInfo.
Record t := mk {
  name : JsVal;
  description : JsVal;
  mission : JsVal;
  vision : JsVal;
  foundedYear : JsVal;
  website : JsVal;
  email : JsVal;
  phone : JsVal
}.
End BasicInfo.

Module Address.
Record t := mk {
  street : JsVal;
  city : JsVal;
  state : JsVal;
  zipCode : JsVal;
  country : JsVal
}.
End Address.

Module LegalInfo.
Record t := mk {
  registrationNumber : JsVal;
  taxId : JsVal;
  legalStructure : JsVal;
  registeredAddress : option Address.t
}.
End LegalInfo.

Module PrimaryContact.
Record t := mk {
  name : JsVal;
  title : JsVal;
  email : JsVal;
  phone : JsVal
}.
End PrimaryContact.

Module ContactInfo.
Record t := mk {
  primaryContact : option PrimaryContact.t;
  mailingAddress : option Address.t
}.
End ContactInfo.

Module BankingInfo.
Record t := mk {
  accountName : JsVal;
  accountNumber : JsVal;
  routingNumber : JsVal;
  bankName : JsVal
}.
End BankingInfo.

Module FinancialInfo.
Record t := mk {
  annualBudget : JsVal;
  fundingSources : option (list JsVal);
  bankingInfo : option BankingInfo.t
}.
End FinancialInfo.

Module Program.
Record t := mk {
  name : JsVal;
  description : JsVal;
  targetAudience : JsVal;
  budget : JsVal;
  startDate : option Date;
  endDate : option Date;
  isActive : bool
}.
End Program.

Inductive Status := pending | verified | suspended | inactive.

(** The plain object of a charity document.  A nested object that
    [toObject()] leaves out is [None].  The paths that are never
    encrypted and that no route of interest reads ([socialMedia],
    [images], [documents]) are not listed. *)
Record t := mk {
  _id : ObjectId;
  owner : ObjectId;
  basicInfo : option BasicInfo.t;
  legalInfo : option LegalInfo.t;
  contactInfo : option ContactInfo.t;
  financialInfo : option FinancialInfo.t;
  programs : option (list Program.t);
  status : Status;
  isPublic : bool;
  logo : option string;
  customFields : option (list (string * JsVal));
  tags : list string;
  categories : list string
}.

(** [if (obj[key]) obj[key] = EncryptionUtil.simpleDecrypt(obj[key])]. *)
Definition decryptIfSet (K : Crypto) (v : JsVal) : JsVal :=
  if truthy v then simpleDecrypt K v else v.

Definition decryptBasicInfo (K : Crypto) (b : BasicInfo.t) : BasicInfo.t :=
  {| BasicInfo.name := decryptIfSet K (BasicInfo.name b);
     BasicInfo.description := decryptIfSet K (BasicInfo.description b);
     BasicInfo.mission := decryptIfSet K (BasicInfo.mission b);
     BasicInfo.vision := decryptIfSet K (BasicInfo.vision b);
     BasicInfo.foundedYear := decryptIfSet K (BasicInfo.foundedYear b);
     BasicInfo.website := decryptIfSet K (BasicInfo.website b);
     BasicInfo.email := decryptIfSet K (BasicInfo.email b);
     BasicInfo.phone := decryptIfSet K (BasicInfo.phone b) |}.

Definition decryptAddress (K : Crypto) (a : Address.t) : Address.t :=
  {| Address.street := decryptIfSet K (Address.street a);
     Address.city := decryptIfSet K (Address.city a);
     Address.state := decryptIfSet K (Address.state a);
     Address.zipCode := decryptIfSet K (Address.zipCode a);
     Address.country := decryptIfSet K (Address.country a) |}.

Definition decryptLegalInfo (K : Crypto) (l : LegalInfo.t) : LegalInfo.t :=
  {| LegalInfo.registrationNumber := decryptIfSet K (LegalInfo.registrationNumber l);
     LegalInfo.taxId := decryptIfSet K (LegalInfo.taxId l);
     LegalInfo.legalStructure := decryptIfSet K (LegalInfo.legalStructure l);
     LegalInfo.registeredAddress :=
       option_map (decryptAddress K) (LegalInfo.registeredAddress l) |}.

Definition decryptPrimaryContact (K : Crypto) (c : PrimaryContact.t)
  : PrimaryContact.t :=
  {| PrimaryContact.name := decryptIfSet K (PrimaryContact.name c);
     PrimaryContact.title := decryptIfSet K (PrimaryContact.title c);
     PrimaryContact.email := decryptIfSet K (PrimaryContact.email c);
     PrimaryContact.phone := decryptIfSet K (PrimaryContact.phone c) |}.

Definition decryptContactInfo (K : Crypto) (c : ContactInfo.t) : ContactInfo.t :=
  {| ContactInfo.primaryContact :=
       option_map (decryptPrimaryContact K) (ContactInfo.primaryContact c);
     ContactInfo.mailingAddress :=
       option_map (decryptAddress K) (ContactInfo.mailingAddress c) |}.

Definition decryptBankingInfo (K : Crypto) (b : BankingInfo.t) : BankingInfo.t :=
  {| BankingInfo.accountName := decryptIfSet K (BankingInfo.accountName b);
     BankingInfo.accountNumber := decryptIfSet K (BankingInfo.accountNumber b);
     BankingInfo.routingNumber := decryptIfSet K (BankingInfo.routingNumber b);
     BankingInfo.bankName := decryptIfSet K (BankingInfo.bankName b) |}.

(** [fundingSources] is mapped through [simpleDecrypt] without the guard. *)
Definition decryptFinancialInfo (K : Crypto) (f : FinancialInfo.t)
  : FinancialInfo.t :=
  {| FinancialInfo.annualBudget := decryptIfSet K (FinancialInfo.annualBudget f);
     FinancialInfo.fundingSources :=
       option_map (map (simpleDecrypt K)) (FinancialInfo.fundingSources f);
     FinancialInfo.bankingInfo :=
       option_map (decryptBankingInfo K) (FinancialInfo.bankingInfo f) |}.

Definition decryptProgram (K : Crypto) (p : Program.t) : Program.t :=
  {| Program.name := decryptIfSet K (Program.name p);
     Program.description := decryptIfSet K (Program.description p);
     Program.targetAudience := decryptIfSet K (Program.targetAudience p);
     Program.budget := decryptIfSet K (Program.budget p);
     Program.startDate := Program.startDate p;
     Program.endDate := Program.endDate p;
     Program.isActive := Program.isActive p |}.

(** [charitySchema.methods.getDecryptedData], applied to [this.toObject()]. *)
Definition getDecryptedData (K : Crypto) (charity : t) : t :=
  {| _id := _id charity;
     owner := owner charity;
     basicInfo := option_map (decryptBasicInfo K) (basicInfo charity);
     legalInfo := option_map (decryptLegalInfo K) (legalInfo charity);
     contactInfo := option_map (decryptContactInfo K) (contactInfo charity);
     financialInfo := option_map (decryptFinancialInfo K) (financialInfo charity);
     programs := option_map (map (decryptProgram K)) (programs charity);
     status := status charity;
     isPublic := isPublic charity;
     logo := logo charity;
     customFields :=
       option_map (map (fun kv => (fst kv, simpleDecrypt K (snd kv))))
                  (customFields charity);
     tags := tags charity;
     categories := categories charity |}.

(** *** The encrypted fields of a record, in the order of the schema *)

Definition optFields {A} (f : A -> list JsVal) (o : option A) : list JsVal :=
  match o with
  | Some x => f x
  | None => []
  end.

Definition basicInfoFields (b : BasicInfo.t) : list JsVal :=
  [BasicInfo.name b; BasicInfo.description b; BasicInfo.mission b;
   BasicInfo.vision b; BasicInfo.foundedYear b; BasicInfo.website b;
   BasicInfo.email b; BasicInfo.phone b].

Definition addressFields (a : Address.t) : list JsVal :=
  [Address.street a; Address.city a; Address.state a; Address.zipCode a;
   Address.country a].

Definition legalInfoFields (l : LegalInfo.t) : list JsVal :=
  [LegalInfo.registrationNumber l; LegalInfo.taxId l; LegalInfo.legalStructure l]
  ++ optFields addressFields (LegalInfo.registeredAddress l).

Definition primaryContactFields (c : PrimaryContact.t) : list JsVal :=
  [PrimaryContact.name c; PrimaryContact.title c; PrimaryContact.email c;
   PrimaryContact.phone c].

Definition contactInfoFields (c : ContactInfo.t) : list JsVal :=
  optFields primaryContactFields (ContactInfo.primaryContact c)
  ++ optFields addressFields (ContactInfo.mailingAddress c).

Definition bankingInfoFields (b : BankingInfo.t) : list JsVal :=
  [BankingInfo.accountName b; BankingInfo.accountNumber b;
   BankingInfo.routingNumber b; BankingInfo.bankName b].

Definition financialInfoFields (f : FinancialInfo.t) : list JsVal :=
  [FinancialInfo.annualBudget f]
  ++ optFields (fun l => l) (FinancialInfo.fundingSources f)
  ++ optFields bankingInfoFields (FinancialInfo.bankingInfo f).

Definition programFields (p : Program.t) : list JsVal :=
  [Program.name p; Program.description p; Program.targetAudience p;
   Program.budget p].

Definition encryptedFields (c : t) : list JsVal :=
  optFields basicInfoFields (basicInfo c)
  ++ optFields legalInfoFields (legalInfo c)
  ++ optFields contactInfoFields (contactInfo c)
  ++ optFields financialInfoFields (financialInfo c)
  ++ optFields (flat_map programFields) (programs c)
  ++ optFields (map snd) (customFields c).

End Charity.

(** ** The world the routes run in *)

(** The three collections, the clock behind [new Date()], the generator
    behind [Math.random()] and the source of fresh [ObjectId]s. *)
Record World := mkWorld {
  users : list User.t;
  charityCodes : list CharityCode.t;
  charities : list Charity.t;
  clock : nat -> Date;        (* the value of the n-th [new Date()] *)
  reads : nat;                (* how many were read so far *)
  random : nat -> nat;        (* the n-th [Math.random()], times 36, floored *)
  draws : nat;
  nextId : ObjectId
}.

(** Route handlers read and write the world. *)
Definition M (A : Type) : Type := World -> A * World.

Definition ret {A} (x : A) : M A := fun w => (x, w).

Definition bind {A B} (m : M A) (k : A -> M B) : M B :=
  fun w => let '(x, w') := m w in k x w'.

Notation "x <- m ;; k" := (bind m (fun x => k))
  (at level 100, m at next level, right associativity).

Definition getWorld : M World := fun w => (w, w).

(** [new Date()]. *)
Definition newDate : M Date :=
  fun w => (clock w (reads w),
            {| users := users w; charityCodes := charityCodes w;
               charities := charities w; clock := clock w;
               reads := S (reads w); random := random w; draws := draws w;
               nextId := nextId w |}).

(** Eight rounds of [Math.floor(Math.random() * characters.length)]. *)
Definition drawCode : M string :=
  fun w => (CharityCode.generateCode (fun k => random w (draws w + k) mod 36),
            {| users := users w; charityCodes := charityCodes w;
               charities := charities w; clock := clock w;
               reads := reads w; random := random w; draws := draws w + 8;
               nextId := nextId w |}).

(** The [_id] of a document made with [new Model(...)]. *)
Definition freshId : M ObjectId :=
  fun w => (nextId w,
            {| users := users w; charityCodes := charityCodes w;
               charities := charities w; clock := clock w;
               reads := reads w; random := random w; draws := draws w;
               nextId := S (nextId w) |}).

Definition putUsers (us : list User.t) : M unit :=
  fun w => (tt,
            {| users := us; charityCodes := charityCodes w;
               charities := charities w; clock := clock w;
               reads := reads w; random := random w; draws := draws w;
               nextId := nextId w |}).

Definition putCharityCodes (cs : list CharityCode.t) : M unit :=
  fun w => (tt,
            {| users := users w; charityCodes := cs;
               charities := charities w; clock := clock w;
               reads := reads w; random := random w; draws := draws w;
               nextId := nextId w |}).

Definition putCharities (cs : list Charity.t) : M unit :=
  fun w => (tt,
            {| users := users w; charityCodes := charityCodes w;
               charities := cs; clock := clock w;
               reads := reads w; random := random w; draws := draws w;
               nextId := nextId w |}).

(** ** Collections *)

(** [Model.findOne(query)]. *)
Definition findOne {A} (q : A -> bool) (coll : list A) : option A :=
  List.find q coll.

(** [Model.countDocuments(query)]. *)
Definition countDocuments {A} (q : A -> bool) (coll : list A) : nat :=
  length (List.filter q coll).

(** [Model.deleteMany(query)]. *)
Definition deleteMany {A} (q : A -> bool) (coll : list A) : list A :=
  List.filter (fun x => negb (q x)) coll.

(** The update behind [doc.save()] on a stored document: the modified
    paths are set on the document with that [_id]; [None] when there is no
    such document any more ([save] rejects). *)
Fixpoint updateById {A} (idOf : A -> ObjectId) (id : ObjectId) (set : A -> A)
    (coll : list A) : option (list A) :=
  match coll with
  | [] => None
  | x :: rest =>
    if Nat.eqb (idOf x) id then Some (set x :: rest)
    else option_map (cons x) (updateById idOf id set rest)
  end.

(** [Model.findByIdAndDelete(id)]. *)
Fixpoint deleteById {A} (idOf : A -> ObjectId) (id : ObjectId) (coll : list A)
  : list A :=
  match coll with
  | [] => []
  | x :: rest =>
    if Nat.eqb (idOf x) id then rest else x :: deleteById idOf id rest
  end.

Definition findUserById (id : ObjectId) : M (option User.t) :=
  w <- getWorld ;;
  ret (findOne (fun u => Nat.eqb (User._id u) id) (users w)).

Definition findCharityCode (q : CharityCode.t -> bool) : M (option CharityCode.t) :=
  w <- getWorld ;; ret (findOne q (charityCodes w)).

(** [save()] of a modified user; [false] when it rejects. *)
Definition saveUser (id : ObjectId) (set : User.t -> User.t) : M bool :=
  w <- getWorld ;;
  match updateById User._id id set (users w) with
  | Some us => _ <- putUsers us ;; ret true
  | None => ret false
  end.

(** [save()] of a modified charity code; [false] when it rejects. *)
Definition saveCharityCode (id : ObjectId) (set : CharityCode.t -> CharityCode.t)
  : M bool :=
  w <- getWorld ;;
  match updateById CharityCode._id id set (charityCodes w) with
  | Some cs => _ <- putCharityCodes cs ;; ret true
  | None => ret false
  end.

(** [save()] of a new charity code: the unique index on [code] rejects a
    code that is already stored. *)
Definition insertCharityCode (doc : CharityCode.t) : M bool :=
  w <- getWorld ;;
  match findOne (fun c => String.eqb (CharityCode.code c) (CharityCode.code doc))
                (charityCodes w) with
  | Some _ => ret false
  | None => _ <- putCharityCodes (charityCodes w ++ [doc]) ;; ret true
  end.

(** [charityCodeSchema.methods.useCode], awaited: [None] when it throws
    or when its [save()] rejects, else the document as saved. *)
Definition useCode (userId : ObjectId) (this : CharityCode.t)
  : M (option CharityCode.t) :=
  now <- newDate ;;                           (* isValidForUse *)
  if negb (CharityCode.isValidForUse now this) then ret None
  else
    usedAt <- newDate ;;
    ok <- saveCharityCode (CharityCode._id this)
            (CharityCode.markUsed userId usedAt) ;;
    ret (if ok then Some (CharityCode.markUsed userId usedAt this) else None).

(** ** Responses and request validation *)

(** The first error of a Joi validation. *)
Inductive JoiError :=
| any_required
| any_only
| string_base
| string_empty
| string_alphanum
| string_length
| boolean_base
| object_unknown.

Inductive Body :=
| Invalid (e : JoiError)      (* { error: error.details[0].message } *)
| Error (msg : string)        (* { error: msg, ... } *)
| Message (msg : string).     (* { message: msg, ... } *)

Record Response := mkResponse {
  status : nat;
  body : Body
}.

Definition isAlphanum (c : ascii) : bool :=
  let n := nat_of_ascii c in
  ((48 <=? n) && (n <=? 57) || (65 <=? n) && (n <=? 90)
   || (97 <=? n) && (n <=? 122))%nat.

Definition toUpperChar (c : ascii) : ascii :=
  let n := nat_of_ascii c in
  if ((97 <=? n) && (n <=? 122))%nat then ascii_of_nat (n - 32) else c.

Definition toLowerChar (c : ascii) : ascii :=
  let n := nat_of_ascii c in
  if ((65 <=? n) && (n <=? 90))%nat then ascii_of_nat (n + 32) else c.

Fixpoint mapString (f : ascii -> ascii) (s : string) : string :=
  match s with
  | EmptyString => EmptyString
  | String c rest => String (f c) (mapString f rest)
  end.

(** [s.toUpperCase()] and [s.toLowerCase()]. *)
Definition toUpperCase : string -> string := mapString toUpperChar.
Definition toLowerCase : string -> string := mapString toLowerChar.

Fixpoint allChars (p : ascii -> bool) (s : string) : bool :=
  match s with
  | EmptyString => true
  | String c rest => p c && allChars p rest
  end.

(** [Joi.string().alphanum().length(8).uppercase()], with conversion: the
    value is put in upper case, then checked.  The case mappings are those
    of ASCII, the only characters of a value that passes. *)
Definition validateCodeString (raw : string) : JoiError + string :=
  let value := toUpperCase raw in
  if String.eqb value "" then inl string_empty
  else if negb (allChars isAlphanum value) then inl string_alphanum
  else if negb (Nat.eqb (String.length value) 8) then inl string_length
  else inr value.

(** ** routes/auth.js: POST /verify-charity-code *)

Module VerifyCharityCode.

(** Where a request stands: each constructor but the last is an [await]
    the handler is about to return from. *)
Inductive Pc :=
| Start (raw : string)
    (* [auth] has set [req.user]; the body is [{ code: raw }] *)
| Found (charityCode : option CharityCode.t)
    (* [await CharityCode.findOne(...)] has answered *)
| Used (charityCode : CharityCode.t)
    (* [await charityCode.useCode(...)] has answered *)
| Loaded (charityCode : CharityCode.t) (user : option User.t)
    (* [await User.findById(...)] has answered *)
| Done (res : Response).

(** The responses of the handler. *)
Definition invalid (e : JoiError) : Response := mkResponse 400 (Invalid e).
Definition alreadyAuthorized : Response :=
  mkResponse 400 (Error "You already have charity creation authorization").
Definition invalidCode : Response := mkResponse 404 (Error "Invalid charity code").
Definition notValid (reason : string) : Response := mkResponse 400 (Error reason).
Definition verified : Response :=
  mkResponse 200 (Message "Charity creation code verified successfully").
Definition failed : Response := mkResponse 500 (Error "Code verification failed").

(** The [reason] of lines 171-179; [now] is read after the check failed. *)
Definition reason (now : Date) (charityCode : CharityCode.t) : string :=
  if (now >=? CharityCode.expiresAt charityCode)%Z then "Code has expired"
  else if CharityCode.isUsed charityCode then "Code has already been used"
  else if negb (CharityCode.isActive charityCode) then "Code is inactive"
  else "Code is not valid".

(** The query [{ code: code.toUpperCase(), isActive: true }]. *)
Definition byCodeActive (code : string) (c : CharityCode.t) : bool :=
  String.eqb (CharityCode.code c) (toUpperCase code)
  && Bool.eqb (CharityCode.isActive c) true.

(** The grant written by lines 196-200. *)
Definition authorization (charityCode : CharityCode.t) (now : Date)
  : User.CharityAuthorization :=
  {| User.code := Some (CharityCode._id charityCode);
     User.authorizedAt := Some now;
     User.canCreateCharity := true |}.

(** Lines 194-201: [user] is the answer of [User.findById(req.user._id)];
    the grant is assigned and the user saved.  A missing user makes the
    assignment throw. *)
Definition attach (charityCode : CharityCode.t) (user : option User.t) : M Response :=
  match user with
  | None => ret failed
  | Some u =>
    now <- newDate ;;
    ok <- saveUser (User._id u)
            (User.set_charityAuthorization (authorization charityCode now)) ;;
    ret (if ok then verified else failed)
  end.

(** One step of the handler: from the answer of one [await] to the next
    database request, included. *)
Definition step (reqUser : User.t) (pc : Pc) : M Pc :=
  match pc with
  | Start raw =>
    match validateCodeString raw with
    | inl e => ret (Done (invalid e))
    | inr code =>
      if User.canCreateCharity (User.charityAuthorization reqUser)
      then ret (Done alreadyAuthorized)
      else
        found <- findCharityCode (byCodeActive code) ;;
        ret (Found found)
    end
  | Found None => ret (Done invalidCode)
  | Found (Some charityCode) =>
    now <- newDate ;;                         (* isValidForUse, line 169 *)
    if negb (CharityCode.isValidForUse now charityCode) then
      now <- newDate ;;                       (* line 170 *)
      ret (Done (notValid (reason now charityCode)))
    else
      used <- useCode (User._id reqUser) charityCode ;;
      ret (match used with
           | Some charityCode' => Used charityCode'
           | None => Done failed              (* catch (error) *)
           end)
  | Used charityCode =>
    user <- findUserById (User._id reqUser) ;;
    ret (Loaded charityCode user)
  | Loaded charityCode user =>
    res <- attach charityCode user ;;
    ret (Done res)
  | Done res => ret (Done res)
  end.

(** The handler run without interruption: four steps reach the response. *)
Definition handler (reqUser : User.t) (raw : string) : M Pc :=
  pc <- step reqUser (Start raw) ;;
  pc <- step reqUser pc ;;
  pc <- step reqUser pc ;;
  step reqUser pc.

(** A request in flight. *)
Record Request := mkRequest {
  reqUser : User.t;
  pc : Pc
}.

Definition advance (r : Request) : M Request :=
  pc' <- step (reqUser r) (pc r) ;;
  ret {| reqUser := reqUser r; pc := pc' |}.

(** Concurrent requests: the schedule names, step after step, the request
    whose pending [await] is answered next. *)
Fixpoint interleave (schedule : list nat) (reqs : list Request) : M (list Request) :=
  match schedule with
  | [] => ret reqs
  | i :: rest =>
    match reqs !! i with
    | Some r =>
      r' <- advance r ;;
      interleave rest (<[i := r']> reqs)
    | None => interleave rest reqs
    end
  end.

Definition response (r : Request) : option Response :=
  match pc r with
  | Done res => Some res
  | _ => None
  end.

End VerifyCharityCode.

(** ** routes/admin.js: charity code management *)

Module Admin.

Definition byCode (code : string) (c : CharityCode.t) : bool :=
  String.eqb (CharityCode.code c) code.

(** *** POST /charity-codes *)

Module CreateCode.

Inductive Pc :=
| Start (code : option string) (expiresAt : Date) (description : option string)
    (* the validated body; [code] is absent or 8 upper-case alphanumerics *)
| Saving (doc : CharityCode.t)
    (* [charityCode.save()] was called *)
| Done (res : Response).

Definition created : Response := mkResponse 201 (Message "Charity code created successfully").
Definition exists_ : Response := mkResponse 400 (Error "Code already exists").
Definition failed : Response := mkResponse 500 (Error "Failed to create charity code").

(** One step: a round of the [do ... while] loop or the check of the
    given code, then the insertion. *)
Definition step (admin : ObjectId) (pc : Pc) : M Pc :=
  match pc with
  | Start None expiresAt description =>
    code <- drawCode ;;
    found <- findCharityCode (byCode code) ;;
    match found with
    | Some _ => ret (Start None expiresAt description)
    | None =>
      id <- freshId ;;
      ret (Saving (CharityCode.create id code expiresAt description admin))
    end
  | Start (Some code) expiresAt description =>
    found <- findCharityCode (byCode code) ;;
    match found with
    | Some _ => ret (Done exists_)
    | None =>
      id <- freshId ;;
      ret (Saving (CharityCode.create id code expiresAt description admin))
    end
  | Saving doc =>
    ok <- insertCharityCode doc ;;
    ret (Done (if ok then created else failed))
  | Done res => ret (Done res)
  end.

End CreateCode.

(** *** POST /charity-codes/bulk *)

Module BulkCreate.

(** The state of the handler: the validated body, the loop variables and
    the promises of [codePromises], split into those still pending (oldest
    first), the documents saved and whether a [save] was rejected. *)
Record State := mkState {
  count : nat;
  expiresAt : Date;
  description : option string;
  i : nat;
  codes : list string;
  pending : list CharityCode.t;
  saved : list CharityCode.t;
  rejected : bool;
  res : option Response
}.

Definition start (count : nat) (expiresAt : Date) (description : option string) : State :=
  {| count := count; expiresAt := expiresAt; description := description;
     i := 0; codes := []; pending := []; saved := []; rejected := false;
     res := None |}.

Definition created (count : nat) : Response :=
  mkResponse 201 (Message (pretty count ++ " charity codes created successfully")).
Definition failed : Response :=
  mkResponse 500 (Error "Failed to create bulk charity codes").

(** Line 104. *)
Definition describe (description : option string) (i count : nat) : string :=
  match description with
  | Some (String c d) =>
    String c d ++ " (" ++ pretty (i + 1) ++ "/" ++ pretty count ++ ")"
  | _ => "Batch code " ++ pretty (i + 1)
  end.

Definition includes (code : string) (codes : list string) : bool :=
  existsb (String.eqb code) codes.

(** One round of the [do ... while] loop of lines 95-97; when the code is
    fresh, lines 99-108: the document is made and its [save()] started. *)
Definition generate (admin : ObjectId) (st : State) : M State :=
  code <- drawCode ;;
  if includes code (codes st) then ret st
  else
    found <- findCharityCode (byCode code) ;;
    match found with
    | Some _ => ret st
    | None =>
      id <- freshId ;;
      let doc := CharityCode.create id code (expiresAt st)
                   (Some (describe (description st) (i st) (count st))) admin in
      ret {| count := count st; expiresAt := expiresAt st;
             description := description st;
             i := S (i st); codes := codes st ++ [code];
             pending := pending st ++ [doc]; saved := saved st;
             rejected := rejected st; res := res st |}
    end.

(** The oldest pending [save()] reaches the database. *)
Definition commit (doc : CharityCode.t) (rest : list CharityCode.t) (st : State)
  : M State :=
  ok <- insertCharityCode doc ;;
  ret {| count := count st; expiresAt := expiresAt st;
         description := description st; i := i st; codes := codes st;
         pending := rest;
         saved := if ok then saved st ++ [doc] else saved st;
         rejected := if ok then rejected st else true;
         res := res st |}.

(** [await Promise.all(codePromises)] and the response. *)
Definition respond (st : State) : State :=
  {| count := count st; expiresAt := expiresAt st;
     description := description st; i := i st; codes := codes st;
     pending := pending st; saved := saved st; rejected := rejected st;
     res := Some (if rejected st then failed else created (count st)) |}.

(** One step of the handler: a pending [save()] is settled, or the loop
    makes one more round, or the response is sent. *)
Definition step (admin : ObjectId) (st : State) : M State :=
  match res st with
  | Some _ => ret st
  | None =>
    match pending st with
    | doc :: rest => commit doc rest st
    | [] =>
      if (i st <? count st)%nat then generate admin st
      else ret (respond st)
    end
  end.

(** The handler's loop runs ahead of the database: a round of the loop
    although a [save()] is pending. *)
Definition loopAhead (admin : ObjectId) (st : State) : M State :=
  match res st with
  | Some _ => ret st
  | None => if (i st <? count st)%nat then generate admin st else ret st
  end.

End BulkCreate.

(** *** Requests of the administrators, interleaved *)

Inductive Request :=
| Create (admin : ObjectId) (pc : CreateCode.Pc)
| Bulk (admin : ObjectId) (st : BulkCreate.State).

(** What the schedule lets a request do next. *)
Inductive Move :=
| Next (i : nat)              (* request [i] takes its next step *)
| Ahead (i : nat).            (* bulk request [i] loops before its saves settle *)

Definition advance (r : Request) : M Request :=
  match r with
  | Create admin pc => pc' <- CreateCode.step admin pc ;; ret (Create admin pc')
  | Bulk admin st => st' <- BulkCreate.step admin st ;; ret (Bulk admin st')
  end.

Definition advanceAhead (r : Request) : M Request :=
  match r with
  | Bulk admin st => st' <- BulkCreate.loopAhead admin st ;; ret (Bulk admin st')
  | _ => ret r
  end.

Fixpoint interleave (schedule : list Move) (reqs : list Request) : M (list Request) :=
  match schedule with
  | [] => ret reqs
  | m :: rest =>
    let '(i, f) := match m with
                   | Next i => (i, advance)
                   | Ahead i => (i, advanceAhead)
                   end in
    match reqs !! i with
    | Some r =>
      r' <- f r ;;
      interleave rest (<[i := r']> reqs)
    | None => interleave rest reqs
    end
  end.

(** *** GET /charity-codes/stats *)

Module Stats.

Record t := mk {
  total : nat;
  active : nat;
  expired : nat;
  used : nat;
  unused : nat
}.

(** The five queries, in the order of the [Promise.all]. *)
Definition q_total (c : CharityCode.t) : bool := true.
Definition q_active (now : Date) (c : CharityCode.t) : bool :=
  Bool.eqb (CharityCode.isActive c) true
  && (CharityCode.expiresAt c >? now)%Z
  && Bool.eqb (CharityCode.isUsed c) false.
Definition q_expired (now : Date) (c : CharityCode.t) : bool :=
  (CharityCode.expiresAt c <=? now)%Z.
Definition q_used (c : CharityCode.t) : bool := Bool.eqb (CharityCode.isUsed c) true.
Definition q_unused (c : CharityCode.t) : bool := Bool.eqb (CharityCode.isUsed c) false.

(** The counts on one state of the collection, [now] being read once. *)
Definition stats (now : Date) (codes : list CharityCode.t) : t :=
  {| total := countDocuments q_total codes;
     active := countDocuments (q_active now) codes;
     expired := countDocuments (q_expired now) codes;
     used := countDocuments q_used codes;
     unused := countDocuments q_unused codes |}.

Definition handler : M t :=
  now <- newDate ;;
  w <- getWorld ;;
  ret (stats now (charityCodes w)).

End Stats.

(** *** PUT /charity-codes/:id/deactivate *)

Module Deactivate.

Definition notFound : Response := mkResponse 404 (Error "Charity code not found").
Definition alreadyUsed : Response :=
  mkResponse 400 (Error "Cannot deactivate a code that has already been used").
Definition deactivated : Response :=
  mkResponse 200 (Message "Charity code deactivated successfully").
Definition failed : Response := mkResponse 500 (Error "Failed to deactivate charity code").

Definition handler (id : ObjectId) : M Response :=
  found <- findCharityCode (fun c => Nat.eqb (CharityCode._id c) id) ;;
  match found with
  | None => ret notFound
  | Some code =>
    if CharityCode.isUsed code then ret alreadyUsed
    else
      ok <- saveCharityCode (CharityCode._id code) CharityCode.deactivate ;;
      ret (if ok then deactivated else failed)
  end.

End Deactivate.

End Admin.

(** ** routes/admin.js: user management *)

Module AdminUsers.

(** The value of a body that passed [updateUserSchema]. *)
Record Update := mkUpdate {
  accountType : option User.AccountType;
  isActive : option bool
}.

(** [accountType: Joi.string().valid('individual', 'charity').optional()]. *)
Definition validateAccountType (v : option JSON)
  : JoiError + option User.AccountType :=
  match v with
  | None => inr None
  | Some (JStr s) =>
    if String.eqb s "individual" then inr (Some User.individual)
    else if String.eqb s "charity" then inr (Some User.charity)
    else inl any_only
  | Some _ => inl any_only
  end.

(** [isActive: Joi.boolean().optional()]; the strings ["true"] and
    ["false"] are converted, whatever their case. *)
Definition validateIsActive (v : option JSON) : JoiError + option bool :=
  match v with
  | None => inr None
  | Some (JBool b) => inr (Some b)
  | Some (JStr s) =>
    if String.eqb (toLowerCase s) "true" then inr (Some true)
    else if String.eqb (toLowerCase s) "false" then inr (Some false)
    else inl boolean_base
  | Some _ => inl boolean_base
  end.

(** [updateUserSchema.validate(req.body)]: the two keys are checked in the
    order of the schema, then the keys the schema does not know are
    refused. *)
Definition validate (body : gmap string JSON) : JoiError + Update :=
  match validateAccountType (body !! "accountType") with
  | inl e => inl e
  | inr a =>
    match validateIsActive (body !! "isActive") with
    | inl e => inl e
    | inr b =>
      if bool_decide (dom body ⊆ ({[ "accountType"; "isActive" ]} : gset string))
      then inr {| accountType := a; isActive := b |}
      else inl object_unknown
    end
  end.

(** [Object.keys(value).forEach(key => { user[key] = value[key]; })]. *)
Definition assign (value : Update) (user : User.t) : User.t :=
  let user := match accountType value with
              | Some a => User.set_accountType a user
              | None => user
              end in
  match isActive value with
  | Some b => User.set_isActive b user
  | None => user
  end.

Definition invalid (e : JoiError) : Response := mkResponse 400 (Invalid e).
Definition notFound : Response := mkResponse 404 (Error "User not found").
Definition cannotModify : Response :=
  mkResponse 403 (Error "Cannot modify admin accounts through API. Admin accounts must be managed directly in the database.").
Definition cannotDelete : Response :=
  mkResponse 403 (Error "Cannot delete admin accounts through API. Admin accounts must be managed directly in the database.").
Definition updated : Response := mkResponse 200 (Message "User updated successfully").
Definition updateFailed : Response := mkResponse 500 (Error "Failed to update user").
Definition deleted : Response :=
  mkResponse 200 (Message "User account and associated charities deleted successfully").

(** PUT /users/:id *)
Definition updateUser (id : ObjectId) (body : gmap string JSON) : M Response :=
  match validate body with
  | inl e => ret (invalid e)
  | inr value =>
    found <- findUserById id ;;
    match found with
    | None => ret notFound
    | Some user =>
      if User.AccountType_eqb (User.accountType user) User.admin
      then ret cannotModify
      else
        ok <- saveUser (User._id user) (assign value) ;;
        ret (if ok then updated else updateFailed)
    end
  end.

(** DELETE /users/:id *)
Definition deleteUser (id : ObjectId) : M Response :=
  found <- findUserById id ;;
  match found with
  | None => ret notFound
  | Some user =>
    if User.AccountType_eqb (User.accountType user) User.admin
    then ret cannotDelete
    else
      w <- getWorld ;;
      _ <- putCharities
             (deleteMany (fun c => Nat.eqb (Charity.owner c) (User._id user))
                         (charities w)) ;;
      w <- getWorld ;;
      _ <- putUsers (deleteById User._id id (users w)) ;;
      ret deleted
  end.

End AdminUsers.

(** ** The error kinds of the specification, as the routes answer them *)

Definition AlreadyGranted : Response := VerifyCharityCode.alreadyAuthorized.
Definition NotFound : Response := VerifyCharityCode.invalidCode.
Definition Expired : Response := VerifyCharityCode.notValid "Code has expired".
Definition AlreadyUsed : Response :=
  VerifyCharityCode.notValid "Code has already been used".
Definition Inactive : Response := VerifyCharityCode.notValid "Code is inactive".
Definition Success : Response := VerifyCharityCode.verified.

(** ** middleware/auth.js *)

Module Middleware.

(** What a middleware does: it calls [next()], having set a property of
    the request, or it answers. *)
Inductive Outcome (A : Type) :=
| Next (x : A)
| Respond (res : Response).
Arguments Next {A} x.
Arguments Respond {A} res.

(** [s.replace(pat, '')] for a string pattern: the first occurrence of
    [pat] is removed. *)
Fixpoint removeFirst (pat s : string) : string :=
  if String.prefix pat s
  then String.substring (String.length pat) (String.length s - String.length pat) s
  else match s with
       | EmptyString => EmptyString
       | String c rest => String c (removeFirst pat rest)
       end.

(** [.select('-password -refreshTokens')]: the two paths are not loaded;
    they are shown empty. *)
Definition selected (u : User.t) : User.t :=
  {| User._id := User._id u; User.email := User.email u; User.password := "";
     User.accountType := User.accountType u;
     User.charityAuthorization := User.charityAuthorization u;
     User.personalInfo := User.personalInfo u; User.profile := User.profile u;
     User.refreshTokens := []; User.lastLogin := User.lastLogin u;
     User.isActive := User.isActive u; User.emailVerified := User.emailVerified u;
     User.verificationToken := User.verificationToken u;
     User.createdAt := User.createdAt u; User.updatedAt := User.updatedAt u |}.

Definition noToken : Response :=
  mkResponse 401 (Error "Access denied. No token provided.").
Definition notActive : Response :=
  mkResponse 401 (Error "Invalid token or user not active.").
Definition invalidToken : Response := mkResponse 400 (Error "Invalid token.").
Definition adminRequired : Response :=
  mkResponse 403 (Error "Access denied. Admin privileges required.").
Definition charityNotFound : Response := mkResponse 404 (Error "Charity not found").
Definition notOwner : Response :=
  mkResponse 403 (Error "Access denied. Not authorized to modify this charity.").
Definition codeRequired : Response :=
  mkResponse 403 (Error "Access denied. You need a valid charity creation code to create a charity account. Please contact an administrator for a code.").

(** [auth]: [authorization] is the header of that name, [verify] stands
    for [jwt.verify(token, process.env.JWT_SECRET)] followed by
    [.userId], [None] when it throws. *)
Definition auth (verify : string -> option ObjectId) (authorization : option string)
  : M (Outcome User.t) :=
  match option_map (removeFirst "Bearer ") authorization with
  | None => ret (Respond noToken)
  | Some token =>
    if String.eqb token "" then ret (Respond noToken)
    else
      match verify token with
      | None => ret (Respond invalidToken)          (* catch (error) *)
      | Some userId =>
        user <- findUserById userId ;;
        match user with
        | None => ret (Respond notActive)
        | Some u =>
          if negb (User.isActive u) then ret (Respond notActive)
          else ret (Next (selected u))
        end
      end
  end.

(** [requireAdmin]. *)
Definition requireAdmin (reqUser : User.t) : Outcome unit :=
  if negb (User.AccountType_eqb (User.accountType reqUser) User.admin)
  then Respond adminRequired
  else Next tt.

(** [authorizeCharityOwner]: on success [req.charity] is the charity. *)
Definition authorizeCharityOwner (reqUser : User.t) (charityId : ObjectId)
  : M (Outcome Charity.t) :=
  w <- getWorld ;;
  match findOne (fun c => Nat.eqb (Charity._id c) charityId) (charities w) with
  | None => ret (Respond charityNotFound)
  | Some charity =>
    if negb (Nat.eqb (Charity.owner charity) (User._id reqUser))
       && negb (User.AccountType_eqb (User.accountType reqUser) User.admin)
    then ret (Respond notOwner)
    else ret (Next charity)
  end.

(** [canCreateCharity]. *)
Definition canCreateCharity (reqUser : User.t) : Outcome unit :=
  if User.AccountType_eqb (User.accountType reqUser) User.admin then Next tt
  else if negb (User.canCreateCharity (User.charityAuthorization reqUser))
       then Respond codeRequired
       else Next tt.

End Middleware.

(** ** models/User.js: the encryption of [personalInfo] *)

Module PersonalInfo.
Import EncryptionUtil.

Module Address.
Record t := mk {
  street : JsVal;
  city : JsVal;
  state : JsVal;
  zipCode : JsVal;
  country : JsVal
}.
End Address.

(** The nested path [personalInfo] with the values it holds in memory,
    plain before the hook and encrypted after it. *)
Record t := mk {
  firstName : JsVal;
  lastName : JsVal;
  phone : JsVal;
  address : option Address.t;
  dateOfBirth : JsVal;
  description : JsVal
}.

(** [if (v && this.isModified(path)) v = EncryptionUtil.simpleEncrypt(v)]. *)
Definition encryptIfModified (K : Crypto) (isModified : string -> bool)
    (path : string) (v : JsVal) : JsVal :=
  if truthy v && isModified path then simpleEncrypt K v else v.

(** The second [userSchema.pre('save')] hook. *)
Definition preSave (K : Crypto) (isModified : string -> bool) (p : t) : t :=
  {| firstName := encryptIfModified K isModified "personalInfo.firstName" (firstName p);
     lastName := encryptIfModified K isModified "personalInfo.lastName" (lastName p);
     phone := encryptIfModified K isModified "personalInfo.phone" (phone p);
     address :=
       option_map
         (fun a =>
            {| Address.street :=
                 encryptIfModified K isModified "personalInfo.address.street"
                   (Address.street a);
               Address.city :=
                 encryptIfModified K isModified "personalInfo.address.city"
                   (Address.city a);
               Address.state :=
                 encryptIfModified K isModified "personalInfo.address.state"
                   (Address.state a);
               Address.zipCode :=
                 encryptIfModified K isModified "personalInfo.address.zipCode"
                   (Address.zipCode a);
               Address.country := Address.country a |})
         (address p);
     dateOfBirth := dateOfBirth p;
     description :=
       encryptIfModified K isModified "personalInfo.description" (description p) |}.

(** [userSchema.methods.getDecryptedPersonalInfo]. *)
Definition getDecryptedPersonalInfo (K : Crypto) (p : t) : t :=
  {| firstName := Charity.decryptIfSet K (firstName p);
     lastName := Charity.decryptIfSet K (lastName p);
     phone := Charity.decryptIfSet K (phone p);
     address :=
       option_map
         (fun a =>
            {| Address.street := Charity.decryptIfSet K (Address.street a);
               Address.city := Charity.decryptIfSet K (Address.city a);
               Address.state := Charity.decryptIfSet K (Address.state a);
               Address.zipCode := Charity.decryptIfSet K (Address.zipCode a);
               Address.country := Address.country a |})
         (address p);
     dateOfBirth := dateOfBirth p;
     description := Charity.decryptIfSet K (description p) |}.

End PersonalInfo.

(** ** models/Charity.js: the encryption before a save *)

Module CharityHooks.
Import EncryptionUtil.

Definition encryptIfModified := PersonalInfo.encryptIfModified.

Definition encryptBasicInfo (K : Crypto) (m : string -> bool) (b : Charity.BasicInfo.t)
  : Charity.BasicInfo.t :=
  {| Charity.BasicInfo.name :=
       encryptIfModified K m "basicInfo.name" (Charity.BasicInfo.name b);
     Charity.BasicInfo.description :=
       encryptIfModified K m "basicInfo.description" (Charity.BasicInfo.description b);
     Charity.BasicInfo.mission :=
       encryptIfModified K m "basicInfo.mission" (Charity.BasicInfo.mission b);
     Charity.BasicInfo.vision :=
       encryptIfModified K m "basicInfo.vision" (Charity.BasicInfo.vision b);
     Charity.BasicInfo.foundedYear :=
       encryptIfModified K m "basicInfo.foundedYear" (Charity.BasicInfo.foundedYear b);
     Charity.BasicInfo.website :=
       encryptIfModified K m "basicInfo.website" (Charity.BasicInfo.website b);
     Charity.BasicInfo.email :=
       encryptIfModified K m "basicInfo.email" (Charity.BasicInfo.email b);
     Charity.BasicInfo.phone :=
       encryptIfModified K m "basicInfo.phone" (Charity.BasicInfo.phone b) |}.

(** The loop over [['street', 'city', 'state', 'zipCode', 'country']] for
    the address at [addressPath]. *)
Definition encryptAddress (K : Crypto) (m : string -> bool) (addressPath : string)
    (a : Charity.Address.t) : Charity.Address.t :=
  {| Charity.Address.street :=
       encryptIfModified K m (addressPath ++ ".street") (Charity.Address.street a);
     Charity.Address.city :=
       encryptIfModified K m (addressPath ++ ".city") (Charity.Address.city a);
     Charity.Address.state :=
       encryptIfModified K m (addressPath ++ ".state") (Charity.Address.state a);
     Charity.Address.zipCode :=
       encryptIfModified K m (addressPath ++ ".zipCode") (Charity.Address.zipCode a);
     Charity.Address.country :=
       encryptIfModified K m (addressPath ++ ".country") (Charity.Address.country a) |}.

Definition encryptLegalInfo (K : Crypto) (m : string -> bool) (l : Charity.LegalInfo.t)
  : Charity.LegalInfo.t :=
  {| Charity.LegalInfo.registrationNumber :=
       encryptIfModified K m "legalInfo.registrationNumber"
         (Charity.LegalInfo.registrationNumber l);
     Charity.LegalInfo.taxId :=
       encryptIfModified K m "legalInfo.taxId" (Charity.LegalInfo.taxId l);
     Charity.LegalInfo.legalStructure :=
       encryptIfModified K m "legalInfo.legalStructure"
         (Charity.LegalInfo.legalStructure l);
     Charity.LegalInfo.registeredAddress :=
       option_map (encryptAddress K m "legalInfo.registeredAddress")
                  (Charity.LegalInfo.registeredAddress l) |}.

Definition encryptPrimaryContact (K : Crypto) (m : string -> bool)
    (c : Charity.PrimaryContact.t) : Charity.PrimaryContact.t :=
  {| Charity.PrimaryContact.name :=
       encryptIfModified K m "contactInfo.primaryContact.name"
         (Charity.PrimaryContact.name c);
     Charity.PrimaryContact.title :=
       encryptIfModified K m "contactInfo.primaryContact.title"
         (Charity.PrimaryContact.title c);
     Charity.PrimaryContact.email :=
       encryptIfModified K m "contactInfo.primaryContact.email"
         (Charity.PrimaryContact.email c);
     Charity.PrimaryContact.phone :=
       encryptIfModified K m "contactInfo.primaryContact.phone"
         (Charity.PrimaryContact.phone c) |}.

Definition encryptContactInfo (K : Crypto) (m : string -> bool)
    (c : Charity.ContactInfo.t) : Charity.ContactInfo.t :=
  {| Charity.ContactInfo.primaryContact :=
       option_map (encryptPrimaryContact K m) (Charity.ContactInfo.primaryContact c);
     Charity.ContactInfo.mailingAddress :=
       option_map (encryptAddress K m "contactInfo.mailingAddress")
                  (Charity.ContactInfo.mailingAddress c) |}.

Definition encryptBankingInfo (K : Crypto) (m : string -> bool)
    (b : Charity.BankingInfo.t) : Charity.BankingInfo.t :=
  {| Charity.BankingInfo.accountName :=
       encryptIfModified K m "financialInfo.bankingInfo.accountName"
         (Charity.BankingInfo.accountName b);
     Charity.BankingInfo.accountNumber :=
       encryptIfModified K m "financialInfo.bankingInfo.accountNumber"
         (Charity.BankingInfo.accountNumber b);
     Charity.BankingInfo.routingNumber :=
       encryptIfModified K m "financialInfo.bankingInfo.routingNumber"
         (Charity.BankingInfo.routingNumber b);
     Charity.BankingInfo.bankName :=
       encryptIfModified K m "financialInfo.bankingInfo.bankName"
         (Charity.BankingInfo.bankName b) |}.

(** The funding sources are all encrypted again as soon as the array is
    modified, without a look at the values. *)
Definition encryptFinancialInfo (K : Crypto) (m : string -> bool)
    (f : Charity.FinancialInfo.t) : Charity.FinancialInfo.t :=
  {| Charity.FinancialInfo.annualBudget :=
       encryptIfModified K m "financialInfo.annualBudget"
         (Charity.FinancialInfo.annualBudget f);
     Charity.FinancialInfo.fundingSources :=
       if m "financialInfo.fundingSources"
       then option_map (map (simpleEncrypt K)) (Charity.FinancialInfo.fundingSources f)
       else Charity.FinancialInfo.fundingSources f;
     Charity.FinancialInfo.bankingInfo :=
       option_map (encryptBankingInfo K m) (Charity.FinancialInfo.bankingInfo f) |}.

(** [if (program.name) program.name = EncryptionUtil.simpleEncrypt(program.name)]. *)
Definition encryptIfSet (K : Crypto) (v : JsVal) : JsVal :=
  if truthy v then simpleEncrypt K v else v.

Definition encryptProgram (K : Crypto) (p : Charity.Program.t) : Charity.Program.t :=
  {| Charity.Program.name := encryptIfSet K (Charity.Program.name p);
     Charity.Program.description := encryptIfSet K (Charity.Program.description p);
     Charity.Program.targetAudience := encryptIfSet K (Charity.Program.targetAudience p);
     Charity.Program.budget := encryptIfSet K (Charity.Program.budget p);
     Charity.Program.startDate := Charity.Program.startDate p;
     Charity.Program.endDate := Charity.Program.endDate p;
     Charity.Program.isActive := Charity.Program.isActive p |}.

(** [charitySchema.pre('save')]; [m] is [this.isModified]. *)
Definition preSave (K : Crypto) (m : string -> bool) (this : Charity.t) : Charity.t :=
  {| Charity._id := Charity._id this;
     Charity.owner := Charity.owner this;
     Charity.basicInfo := option_map (encryptBasicInfo K m) (Charity.basicInfo this);
     Charity.legalInfo := option_map (encryptLegalInfo K m) (Charity.legalInfo this);
     Charity.contactInfo := option_map (encryptContactInfo K m) (Charity.contactInfo this);
     Charity.financialInfo :=
       option_map (encryptFinancialInfo K m) (Charity.financialInfo this);
     Charity.programs :=
       if m "programs"
       then option_map (map (encryptProgram K)) (Charity.programs this)
       else Charity.programs this;
     Charity.status := Charity.status this;
     Charity.isPublic := Charity.isPublic this;
     Charity.logo := Charity.logo this;
     Charity.customFields :=
       if m "customFields"
       then option_map (map (fun kv => (fst kv, simpleEncrypt K (snd kv))))
                       (Charity.customFields this)
       else Charity.customFields this;
     Charity.tags := Charity.tags this;
     Charity.categories := Charity.categories this |}.

End CharityHooks.

(** ** routes/charities.js *)

Module Charities.
Import EncryptionUtil.

(** The value of a body that passed [createCharitySchema], restricted to
    the paths of the model listed in [Charity.t]. *)
Record Input := mkInput {
  basicInfo : Charity.BasicInfo.t;
  legalInfo : option Charity.LegalInfo.t;
  contactInfo : option Charity.ContactInfo.t;
  categories : list string;
  tags : list string
}.

(** [new Charity({ owner: req.user._id, ...value })], with the defaults of
    the schema. *)
Definition newCharity (id owner : ObjectId) (value : Input) : Charity.t :=
  {| Charity._id := id; Charity.owner := owner;
     Charity.basicInfo := Some (basicInfo value);
     Charity.legalInfo := legalInfo value;
     Charity.contactInfo := contactInfo value;
     Charity.financialInfo := None;
     Charity.programs := Some [];
     Charity.status := Charity.pending;
     Charity.isPublic := false;
     Charity.logo := None;
     Charity.customFields := None;
     Charity.tags := tags value;
     Charity.categories := categories value |}.

(** Whether a query found a document. *)
Definition is_Some_b {A} (o : option A) : bool :=
  match o with
  | Some _ => true
  | None => false
  end.

Definition byOwner (owner : ObjectId) (c : Charity.t) : bool :=
  Nat.eqb (Charity.owner c) owner.

Definition byId (id : ObjectId) (c : Charity.t) : bool :=
  Nat.eqb (Charity._id c) id.

Definition invalid (e : JoiError) : Response := mkResponse 400 (Invalid e).
Definition onlyOne : Response :=
  mkResponse 400 (Error "Individual users can only create one charity").
Definition created : Response := mkResponse 201 (Message "Charity created successfully").
Definition accessDenied : Response :=
  mkResponse 403 (Error "Access denied. Charity is not public.").
Definition getFailed : Response := mkResponse 500 (Error "Failed to get charity").
Definition programAdded : Response := mkResponse 201 (Message "Program added successfully").
Definition programFailed : Response := mkResponse 500 (Error "Failed to add program").
Definition deleted : Response := mkResponse 200 (Message "Charity deleted successfully").

(** POST /, behind [canCreateCharity]: [validated] is the result of
    [createCharitySchema.validate(req.body)].  Every path of a new
    document that holds a value is modified. *)
Definition create (K : Crypto) (reqUser : User.t) (validated : JoiError + Input)
  : M Response :=
  match Middleware.canCreateCharity reqUser with
  | Middleware.Respond res => ret res
  | Middleware.Next _ =>
    match validated with
    | inl e => ret (invalid e)
    | inr value =>
      w <- getWorld ;;
      let existingCharity := findOne (byOwner (User._id reqUser)) (charities w) in
      if is_Some_b existingCharity
         && User.AccountType_eqb (User.accountType reqUser) User.individual
      then ret onlyOne
      else
        id <- freshId ;;
        w <- getWorld ;;
        _ <- putCharities
               (charities w ++
                [CharityHooks.preSave K (fun _ => true)
                   (newCharity id (User._id reqUser) value)])%list ;;
        ret created
    end
  end.

(** The same handler step by step, for requests that run at the same
    time: the lookup and the save are two database round trips. *)
Inductive Pc :=
| Start (validated : JoiError + Input)
    (* [auth] and [canCreateCharity] have run *)
| Looked (value : Input) (existingCharity : option Charity.t)
    (* [await Charity.findOne(...)] has answered *)
| Done (res : Response).

(** One step of the handler: from the answer of one [await] to the next
    database request, included; the last step sends the response that
    follows [await charity.save()]. *)
Definition step (K : Crypto) (reqUser : User.t) (pc : Pc) : M Pc :=
  match pc with
  | Start validated =>
    match Middleware.canCreateCharity reqUser with
    | Middleware.Respond res => ret (Done res)
    | Middleware.Next _ =>
      match validated with
      | inl e => ret (Done (invalid e))
      | inr value =>
        w <- getWorld ;;
        ret (Looked value (findOne (byOwner (User._id reqUser)) (charities w)))
      end
    end
  | Looked value existingCharity =>
    if is_Some_b existingCharity
       && User.AccountType_eqb (User.accountType reqUser) User.individual
    then ret (Done onlyOne)
    else
      id <- freshId ;;
      w <- getWorld ;;
      _ <- putCharities
             (charities w ++
              [CharityHooks.preSave K (fun _ => true)
                 (newCharity id (User._id reqUser) value)])%list ;;
      ret (Done created)
  | Done res => ret (Done res)
  end.

(** A request in flight. *)
Record Request := mkRequest {
  reqUser : User.t;
  pc : Pc
}.

Definition advance (K : Crypto) (r : Request) : M Request :=
  pc' <- step K (reqUser r) (pc r) ;;
  ret {| reqUser := reqUser r; pc := pc' |}.

(** Concurrent requests: the schedule names, step after step, the request
    whose pending [await] is answered next. *)
Fixpoint interleave (K : Crypto) (schedule : list nat) (reqs : list Request)
  : M (list Request) :=
  match schedule with
  | [] => ret reqs
  | i :: rest =>
    match reqs !! i with
    | Some r =>
      r' <- advance K r ;;
      interleave K rest (<[i := r']> reqs)
    | None => interleave K rest reqs
    end
  end.

Definition response (r : Request) : option Response :=
  match pc r with
  | Done res => Some res
  | _ => None
  end.

(** An entry of the answer of GET /my-charities. *)
Record Summary := mkSummary {
  id : ObjectId;
  name : option JsVal;
  description : option JsVal;
  status : Charity.Status;
  isPublic : bool
}.

Definition summary (decrypted : Charity.t) : Summary :=
  {| id := Charity._id decrypted;
     name := option_map Charity.BasicInfo.name (Charity.basicInfo decrypted);
     description := option_map Charity.BasicInfo.description (Charity.basicInfo decrypted);
     status := Charity.status decrypted;
     isPublic := Charity.isPublic decrypted |}.

(** GET /my-charities. *)
Definition myCharities (K : Crypto) (reqUser : User.t) : M (list Summary) :=
  w <- getWorld ;;
  ret (map (fun charity => summary (Charity.getDecryptedData K charity))
           (List.filter (byOwner (User._id reqUser)) (charities w))).

(** [delete decryptedCharity.financialInfo; delete decryptedCharity.legalInfo]. *)
Definition withoutSensitive (c : Charity.t) : Charity.t :=
  {| Charity._id := Charity._id c; Charity.owner := Charity.owner c;
     Charity.basicInfo := Charity.basicInfo c;
     Charity.legalInfo := None;
     Charity.contactInfo := Charity.contactInfo c;
     Charity.financialInfo := None;
     Charity.programs := Charity.programs c;
     Charity.status := Charity.status c; Charity.isPublic := Charity.isPublic c;
     Charity.logo := Charity.logo c; Charity.customFields := Charity.customFields c;
     Charity.tags := Charity.tags c; Charity.categories := Charity.categories c |}.

(** GET /:id.  [reqUser] is [req.user]; the route is mounted without
    [auth], which alone sets it.  The owner is populated from the users;
    reading [charity.owner._id] of an owner that is gone throws. *)
Definition getById (K : Crypto) (reqUser : option User.t) (charityId : ObjectId)
  : M (Response + Charity.t) :=
  w <- getWorld ;;
  match findOne (byId charityId) (charities w) with
  | None => ret (inl Middleware.charityNotFound)
  | Some charity =>
    let owner := findOne (fun u => Nat.eqb (User._id u) (Charity.owner charity))
                         (users w) in
    match reqUser, owner with
    | Some _, None => ret (inl getFailed)
    | _, _ =>
      let isOwner :=
        match reqUser, owner with
        | Some u, Some o => Nat.eqb (User._id o) (User._id u)
        | _, _ => false
        end in
      let isAdmin :=
        match reqUser with
        | Some u => User.AccountType_eqb (User.accountType u) User.admin
        | None => false
        end in
      if negb (Charity.isPublic charity) && negb isOwner && negb isAdmin
      then ret (inl accessDenied)
      else
        let decryptedCharity := Charity.getDecryptedData K charity in
        if negb isOwner && negb isAdmin
        then ret (inr (withoutSensitive decryptedCharity))
        else ret (inr decryptedCharity)
    end
  end.

Definition set_programs (ps : option (list Charity.Program.t)) (c : Charity.t)
  : Charity.t :=
  {| Charity._id := Charity._id c; Charity.owner := Charity.owner c;
     Charity.basicInfo := Charity.basicInfo c;
     Charity.legalInfo := Charity.legalInfo c;
     Charity.contactInfo := Charity.contactInfo c;
     Charity.financialInfo := Charity.financialInfo c;
     Charity.programs := ps;
     Charity.status := Charity.status c; Charity.isPublic := Charity.isPublic c;
     Charity.logo := Charity.logo c; Charity.customFields := Charity.customFields c;
     Charity.tags := Charity.tags c; Charity.categories := Charity.categories c |}.

(** [req.charity.programs.push(program)]. *)
Definition push (program : Charity.Program.t) (c : Charity.t) : Charity.t :=
  set_programs
    (Some (match Charity.programs c with
           | Some ps => (ps ++ [program])%list
           | None => [program]
           end)) c.

(** [save()] of a modified charity; [false] when it rejects. *)
Definition saveCharity (id : ObjectId) (set : Charity.t -> Charity.t) : M bool :=
  w <- getWorld ;;
  match updateById Charity._id id set (charities w) with
  | Some cs => _ <- putCharities cs ;; ret true
  | None => ret false
  end.

(** POST /:id/programs, behind [authorizeCharityOwner].  The program is
    made of the body as it comes; [startDate] and [endDate] are the dates
    read from the body.  After the push the one modified path is
    [programs]. *)
Definition addProgram (K : Crypto) (reqUser : User.t) (charityId : ObjectId)
    (name description targetAudience budget : JsVal)
    (startDate endDate : option Date) : M Response :=
  authorized <- Middleware.authorizeCharityOwner reqUser charityId ;;
  match authorized with
  | Middleware.Respond res => ret res
  | Middleware.Next charity =>
    let program :=
      {| Charity.Program.name := name;
         Charity.Program.description := description;
         Charity.Program.targetAudience := targetAudience;
         Charity.Program.budget := budget;
         Charity.Program.startDate := startDate;
         Charity.Program.endDate := endDate;
         Charity.Program.isActive := true |} in
    let saved := CharityHooks.preSave K (String.eqb "programs") (push program charity) in
    ok <- saveCharity (Charity._id charity) (set_programs (Charity.programs saved)) ;;
    ret (if ok then programAdded else programFailed)
  end.

(** DELETE /:id, behind [authorizeCharityOwner]. *)
Definition delete (reqUser : User.t) (charityId : ObjectId) : M Response :=
  authorized <- Middleware.authorizeCharityOwner reqUser charityId ;;
  match authorized with
  | Middleware.Respond res => ret res
  | Middleware.Next _ =>
    w <- getWorld ;;
    _ <- putCharities (deleteById Charity._id charityId (charities w)) ;;
    ret deleted
  end.

End Charities.

(** ** routes/admin.js: the dashboard and the status of a charity *)

Module Dashboard.

Record Stats := mkStats {
  totalUsers : nat;
  totalCharities : nat;
  activeUsers : nat;
  totalAdmins : nat;
  inactiveUsers : nat
}.

(** The [stats] of GET /dashboard/stats on one state of the collections. *)
Definition stats (w : World) : Stats :=
  let totalUsers := countDocuments (fun _ : User.t => true) (users w) in
  let totalCharities := countDocuments (fun _ : Charity.t => true) (charities w) in
  let activeUsers := countDocuments (fun u => Bool.eqb (User.isActive u) true) (users w) in
  let totalAdmins :=
    countDocuments (fun u => User.AccountType_eqb (User.accountType u) User.admin)
                   (users w) in
  {| totalUsers := totalUsers; totalCharities := totalCharities;
     activeUsers := activeUsers; totalAdmins := totalAdmins;
     inactiveUsers := totalUsers - activeUsers |}.

End Dashboard.

Module CharityStatus.
Import EncryptionUtil.

(** [['pending', 'verified', 'suspended', 'inactive'].includes(status)],
    with the value of the enumeration. *)
Definition parse (status : option JSON) : option Charity.Status :=
  match status with
  | Some (JStr s) =>
    if String.eqb s "pending" then Some Charity.pending
    else if String.eqb s "verified" then Some Charity.verified
    else if String.eqb s "suspended" then Some Charity.suspended
    else if String.eqb s "inactive" then Some Charity.inactive
    else None
  | _ => None
  end.

Definition set_status (s : Charity.Status) (c : Charity.t) : Charity.t :=
  {| Charity._id := Charity._id c; Charity.owner := Charity.owner c;
     Charity.basicInfo := Charity.basicInfo c;
     Charity.legalInfo := Charity.legalInfo c;
     Charity.contactInfo := Charity.contactInfo c;
     Charity.financialInfo := Charity.financialInfo c;
     Charity.programs := Charity.programs c;
     Charity.status := s; Charity.isPublic := Charity.isPublic c;
     Charity.logo := Charity.logo c; Charity.customFields := Charity.customFields c;
     Charity.tags := Charity.tags c; Charity.categories := Charity.categories c |}.

Definition invalidStatus : Response := mkResponse 400 (Error "Invalid status value").
Definition updated : Response :=
  mkResponse 200 (Message "Charity status updated successfully").
Definition failed : Response := mkResponse 500 (Error "Failed to update charity status").

(** PUT /charities/:id/status.  The one modified path is [status]: the
    hook runs and the document it leaves is saved. *)
Definition update (K : Crypto) (charityId : ObjectId) (body : gmap string JSON)
  : M Response :=
  match parse (body !! "status") with
  | None => ret invalidStatus
  | Some status =>
    w <- getWorld ;;
    match findOne (Charities.byId charityId) (charities w) with
    | None => ret Middleware.charityNotFound
    | Some charity =>
      let saved := CharityHooks.preSave K (String.eqb "status") (set_status status charity) in
      ok <- Charities.saveCharity (Charity._id charity) (fun _ => saved) ;;
      ret (if ok then updated else failed)
    end
  end.

End CharityStatus.

(** ** routes/auth.js: POST /refresh *)

Module Refresh.

Inductive Result :=
| Tokens (accessToken refreshToken : string)
| Refused (res : Response).

Definition required : Response := mkResponse 401 (Error "Refresh token required").
Definition invalidToken : Response := mkResponse 401 (Error "Invalid refresh token").
Definition failed : Response := mkResponse 401 (Error "Token refresh failed").

Definition set_refreshTokens (ts : list string) (u : User.t) : User.t :=
  {| User._id := User._id u; User.email := User.email u;
     User.password := User.password u;
     User.accountType := User.accountType u;
     User.charityAuthorization := User.charityAuthorization u;
     User.personalInfo := User.personalInfo u; User.profile := User.profile u;
     User.refreshTokens := ts; User.lastLogin := User.lastLogin u;
     User.isActive := User.isActive u; User.emailVerified := User.emailVerified u;
     User.verificationToken := User.verificationToken u;
     User.createdAt := User.createdAt u; User.updatedAt := User.updatedAt u |}.

(** [user.refreshTokens.filter(token => token !== refreshToken)] followed
    by [push(newRefreshToken)]. *)
Definition rotate (refreshToken newRefreshToken : string) (tokens : list string)
  : list string :=
  (List.filter (fun token => negb (String.eqb token refreshToken)) tokens
   ++ [newRefreshToken])%list.

(** The handler: [refreshToken] is the key of the body, [verify] stands
    for [jwt.verify] followed by [.userId] ([None] when it throws) and
    [generateTokens] for the function of that name. *)
Definition handler (verify : string -> option ObjectId)
    (generateTokens : ObjectId -> string * string)
    (refreshToken : option string) : M Result :=
  match refreshToken with
  | None => ret (Refused required)
  | Some refreshToken =>
    if String.eqb refreshToken "" then ret (Refused required)
    else
      match verify refreshToken with
      | None => ret (Refused failed)                 (* catch (error) *)
      | Some userId =>
        found <- findUserById userId ;;
        match found with
        | None => ret (Refused invalidToken)
        | Some user =>
          if negb (existsb (String.eqb refreshToken) (User.refreshTokens user))
          then ret (Refused invalidToken)
          else
            let '(accessToken, newRefreshToken) := generateTokens (User._id user) in
            ok <- saveUser (User._id user)
                    (set_refreshTokens
                       (rotate refreshToken newRefreshToken (User.refreshTokens user))) ;;
            ret (if ok then Tokens accessToken newRefreshToken else Refused failed)
        end
      end
  end.

End Refresh.

(** ** The vocabulary of the properties *)

(** The unique index on [code]. *)
Fixpoint uniqueCodes (codes : list CharityCode.t) : bool :=
  match codes with
  | [] => true
  | c :: rest =>
    negb (existsb (Admin.byCode (CharityCode.code c)) rest) && uniqueCodes rest
  end.

(** The query of [findById]. *)
Definition byUserId (id : ObjectId) (u : User.t) : bool := Nat.eqb (User._id u) id.

(** Who a stored code records as its user, and the grant a stored user
    holds. *)
Definition usedByOf (id : ObjectId) (w : World) : option CharityCode.UsedBy :=
  option_map CharityCode.usedBy
    (findOne (fun c => Nat.eqb (CharityCode._id c) id) (charityCodes w)).

Definition grantOf (id : ObjectId) (w : World) : option User.CharityAuthorization :=
  option_map User.charityAuthorization (findOne (byUserId id) (users w)).

(** The world with another collection of codes, or of users, after [n]
    readings of the clock. *)
Definition setCodes (cs : list CharityCode.t) (n : nat) (w : World) : World :=
  {| users := users w; charityCodes := cs; charities := charities w;
     clock := clock w; reads := n; random := random w; draws := draws w;
     nextId := nextId w |}.

Definition setUsers (us : list User.t) (n : nat) (w : World) : World :=
  {| users := us; charityCodes := charityCodes w; charities := charities w;
     clock := clock w; reads := n; random := random w; draws := draws w;
     nextId := nextId w |}.

(** The collection of codes only grows. *)
Definition grows (w w' : World) : Prop :=
  exists added, charityCodes w' = (charityCodes w ++ added)%list.

(** What holds of a bulk request at every moment: the documents whose
    [save()] succeeded are stored, and the response, once sent, is the
    failure exactly when a [save()] was rejected. *)
Definition bulkInv (w : World) (st : Admin.BulkCreate.State) : Prop :=
  Forall (fun d => In d (charityCodes w)) (Admin.BulkCreate.saved st) /\
  forall r, Admin.BulkCreate.res st = Some r ->
            r = if Admin.BulkCreate.rejected st
                then Admin.BulkCreate.failed
                else Admin.BulkCreate.created (Admin.BulkCreate.count st).

Definition requestInv (w : World) (r : Admin.Request) : Prop :=
  match r with
  | Admin.Bulk _ st => bulkInv w st
  | Admin.Create _ _ => True
  end.

Definition bulkResponse (r : Admin.Request) : option Response :=
  match r with
  | Admin.Bulk _ st => Admin.BulkCreate.res st
  | Admin.Create _ _ => None
  end.

Definition codeAndDescription (c : CharityCode.t) : string * option string :=
  (CharityCode.code c, CharityCode.description c).

(** What [getDecryptedData] shows for a stored field: a set field is
    replaced by its decryption, [null] when it cannot be read; a field
    that is not set stays as it is, or is [null] where the code maps
    without a guard. *)
Definition shows (K : EncryptionUtil.Crypto) (stored shown : EncryptionUtil.JsVal)
  : Prop :=
  if EncryptionUtil.truthy stored
  then shown = EncryptionUtil.simpleDecrypt K stored
  else shown = stored \/ shown = EncryptionUtil.Null.

(** The blob format in the words of the specification: what [encode]
    produces is a non-empty hexadecimal text of even length; every other
    text is malformed. *)
Definition isHexDigit (u : Z) : bool :=
  ((48 <=? u) && (u <=? 57) || (97 <=? u) && (u <=? 102)
   || (65 <=? u) && (u <=? 70))%Z.

Definition malformed (blob : Encoding.jsstring) : bool :=
  negb (negb (Nat.odd (length blob)) && forallb isHexDigit blob
        && negb (Nat.eqb (length blob) 0)).

(** Whether a text begins with two hexadecimal digits, as the ['hex']
    decoder reads them. *)
Definition beginsWithHexPair (blob : Encoding.jsstring) : bool :=
  match blob with
  | a :: b :: _ => isHexDigit (Z.land a 255) && isHexDigit (Z.land b 255)
  | _ => false
  end.

(** The blob [encode] produces for a text. *)
Definition blobOf (K : EncryptionUtil.Crypto) (s : Encoding.jsstring)
  : Encoding.jsstring :=
  Encoding.hexSlice (EncryptionUtil.cipherBytes K (Encoding.utf8Write s)).

(** ** Sample data *)

Module Sample.

Definition noAuthorization : User.CharityAuthorization :=
  {| User.code := None; User.authorizedAt := None; User.canCreateCharity := false |}.

Definition user (id : ObjectId) (email : string) (kind : User.AccountType)
    (auth : User.CharityAuthorization) : User.t :=
  {| User._id := id; User.email := email;
     User.password := "$2a$12$R9h/cIPz0gi.URNNX3kh2OPST9/PgBkqquzi.Ss7KIUgO2t0jWMUW";
     User.accountType := kind; User.charityAuthorization := auth;
     User.personalInfo :=
       {| User.firstName := None; User.lastName := None; User.phone := None;
          User.address := {| User.street := None; User.city := None;
                             User.state := None; User.zipCode := None;
                             User.country := None |};
          User.dateOfBirth := None; User.description := None |};
     User.profile :=
       {| User.displayName := None; User.profilePicture := None;
          User.isPublic := false; User.notifications_email := true;
          User.notifications_sms := false; User.privacy_showEmail := false;
          User.privacy_showPhone := false |};
     User.refreshTokens := ["token"]; User.lastLogin := None;
     User.isActive := true; User.emailVerified := false;
     User.verificationToken := None;
     User.createdAt := 0%Z; User.updatedAt := 0%Z |}.

Definition root : User.t := user 0 "root@example.org" User.admin noAuthorization.
Definition alice : User.t := user 1 "alice@example.org" User.individual noAuthorization.
Definition bob : User.t := user 2 "bob@example.org" User.individual noAuthorization.
Definition carol : User.t :=
  user 3 "carol@example.org" User.individual
       {| User.code := Some 11; User.authorizedAt := Some 500%Z;
          User.canCreateCharity := true |}.

(** Two codes that expire at time 100000; the second was used by carol. *)
Definition code10 : CharityCode.t := CharityCode.create 10 "ABCD1234" 100000%Z None 0.
Definition code11 : CharityCode.t :=
  CharityCode.markUsed 3 500%Z (CharityCode.create 11 "WXYZ5678" 100000%Z None 0).
Definition code12 : CharityCode.t := CharityCode.create 12 "QRST9012" 100000%Z None 0.

(** The clock advances by one millisecond at each reading from time 1000;
    the generator draws eight times 0, eight times 1, and so on, that is
    the codes AAAAAAAA, BBBBBBBB, ... *)
Definition world : World :=
  {| users := [root; alice; bob; carol];
     charityCodes := [code10; code11; code12];
     charities := [];
     clock := fun n => (1000 + Z.of_nat n)%Z;
     reads := 0;
     random := fun n => n / 8;
     draws := 0;
     nextId := 100 |}.

End Sample.

(** A stand-in for the block cipher, to run the encryption on examples:
    a marker byte, then every byte shifted by one. *)
Module SampleCrypto.
Import Encoding EncryptionUtil.
Local Open Scope Z_scope.

Definition shift (d : Z) (bs : bytes) : bytes := map (fun b => (b + d) mod 256) bs.

Definition crypto : Crypto :=
  {| cipherBytes := fun bs => 0xA5 :: shift 1 bs;
     decipherBytes := fun bs =>
       match bs with
       | 0xA5 :: rest => Some (shift 255 rest)
       | _ => None
       end |}.

End SampleCrypto.

(** ** Scenarios *)

Module Scenario.
Import Encoding EncryptionUtil.

(** The sample world after the administrator deactivated the unused code
    ABCD1234. *)
Definition deactivatedWorld : World := snd (Admin.Deactivate.handler 10 Sample.world).

(** Alice and bob present the code ABCD1234 at the same time. *)
Definition race : list VerifyCharityCode.Request :=
  [ {| VerifyCharityCode.reqUser := Sample.alice;
       VerifyCharityCode.pc := VerifyCharityCode.Start "ABCD1234" |};
    {| VerifyCharityCode.reqUser := Sample.bob;
       VerifyCharityCode.pc := VerifyCharityCode.Start "ABCD1234" |} ].

(** Alice presents the codes ABCD1234 and QRST9012 in two requests at the
    same time. *)
Definition twoCodes : list VerifyCharityCode.Request :=
  [ {| VerifyCharityCode.reqUser := Sample.alice;
       VerifyCharityCode.pc := VerifyCharityCode.Start "ABCD1234" |};
    {| VerifyCharityCode.reqUser := Sample.alice;
       VerifyCharityCode.pc := VerifyCharityCode.Start "QRST9012" |} ].

(** A batch of two codes, and another administrator who creates the code
    BBBBBBBB. *)
Definition batchAndRival : list Admin.Request :=
  [ Admin.Bulk 0 (Admin.BulkCreate.start 2 200000%Z (Some "Spring"));
    Admin.Create 0 (Admin.CreateCode.Start (Some "BBBBBBBB") 200000%Z None) ].

(** The batch draws AAAAAAAA and BBBBBBBB and finds both free; the rival
    stores BBBBBBBB; then the saves of the batch reach the database. *)
Definition rivalFirst : list Admin.Move :=
  [ Admin.Next 0; Admin.Ahead 0; Admin.Next 1; Admin.Next 1;
    Admin.Next 0; Admin.Next 0; Admin.Next 0 ].

(** A request that deactivates an account and makes it a charity account. *)
Definition demote : gmap string JSON :=
  {[ "accountType" := JStr "charity"; "isActive" := JBool false ]}.

(** A plaintext with delimiters and characters of one to four bytes:
    a, |, e acute, the euro sign, U+1F600 as a surrogate pair, and a
    colon. *)
Definition plaintext : jsstring := [97; 124; 233; 8364; 55357; 56832; 58]%Z.

(** The string "Hi", and the string "zz", which is no hexadecimal text. *)
Definition hi : jsstring := [72; 105]%Z.
Definition zz : jsstring := [122; 122]%Z.

(** A charity whose name cannot be read and whose description can. *)
Definition charity : Charity.t :=
  {| Charity._id := 50; Charity.owner := 3;
     Charity.basicInfo :=
       Some {| Charity.BasicInfo.name := Str zz;
               Charity.BasicInfo.description :=
                 simpleEncrypt SampleCrypto.crypto (Str hi);
               Charity.BasicInfo.mission := Undefined;
               Charity.BasicInfo.vision := Undefined;
               Charity.BasicInfo.foundedYear := Undefined;
               Charity.BasicInfo.website := Undefined;
               Charity.BasicInfo.email := Undefined;
               Charity.BasicInfo.phone := Undefined |};
     Charity.legalInfo := None; Charity.contactInfo := None;
     Charity.financialInfo := None; Charity.programs := None;
     Charity.status := Charity.pending; Charity.isPublic := false;
     Charity.logo := None; Charity.customFields := None;
     Charity.tags := []; Charity.categories := [] |}.

End Scenario.

(** ** More vocabulary *)

(** [String.prototype.toWellFormed]: every unpaired surrogate is replaced
    by U+FFFD. *)
Fixpoint toWellFormed (s : Encoding.jsstring) : Encoding.jsstring :=
  match s with
  | [] => []
  | u :: t =>
    if Encoding.isHighSurrogate u then
      match t with
      | v :: t' =>
        if Encoding.isLowSurrogate v then u :: v :: toWellFormed t'
        else Encoding.REPLACEMENT :: toWellFormed t
      | [] => [Encoding.REPLACEMENT]
      end
    else if Encoding.isLowSurrogate u then Encoding.REPLACEMENT :: toWellFormed t
    else u :: toWellFormed t
  end.

(** The code units of a string are 16-bit numbers. *)
Definition isCodeUnits (s : Encoding.jsstring) : bool :=
  forallb (fun u => (0 <=? u)%Z && (u <? 65536)%Z) s.

(** A value the encryption hooks give back as it was: a field that is not
    set, or a well-formed string. *)
Definition plainOk (v : EncryptionUtil.JsVal) : bool :=
  match v with
  | EncryptionUtil.Str (u :: t) => Encoding.isWellFormed (u :: t)
  | _ => true
  end.

(** A value the unguarded loops give back as it was: a non-empty
    well-formed string. *)
Definition strictPlain (v : EncryptionUtil.JsVal) : bool :=
  match v with
  | EncryptionUtil.Str (u :: t) => Encoding.isWellFormed (u :: t)
  | _ => false
  end.

Definition personalInfoOk (p : PersonalInfo.t) : bool :=
  plainOk (PersonalInfo.firstName p) && plainOk (PersonalInfo.lastName p)
  && plainOk (PersonalInfo.phone p) && plainOk (PersonalInfo.description p)
  && match PersonalInfo.address p with
     | Some a =>
       plainOk (PersonalInfo.Address.street a) && plainOk (PersonalInfo.Address.city a)
       && plainOk (PersonalInfo.Address.state a)
       && plainOk (PersonalInfo.Address.zipCode a)
     | None => true
     end.

Definition programOk (p : Charity.Program.t) : bool :=
  forallb plainOk (Charity.programFields p).

(** The plain record of a charity that a save followed by a read gives
    back. *)
Definition charityOk (c : Charity.t) : bool :=
  forallb plainOk (Charity.optFields Charity.basicInfoFields (Charity.basicInfo c))
  && forallb plainOk (Charity.optFields Charity.legalInfoFields (Charity.legalInfo c))
  && forallb plainOk (Charity.optFields Charity.contactInfoFields (Charity.contactInfo c))
  && match Charity.financialInfo c with
     | Some f =>
       plainOk (Charity.FinancialInfo.annualBudget f)
       && forallb strictPlain
            (Charity.optFields (fun l => l) (Charity.FinancialInfo.fundingSources f))
       && forallb plainOk
            (Charity.optFields Charity.bankingInfoFields
               (Charity.FinancialInfo.bankingInfo f))
     | None => true
     end
  && match Charity.programs c with
     | Some ps => forallb programOk ps
     | None => true
     end
  && forallb strictPlain (Charity.optFields (map snd) (Charity.customFields c)).

(** A reader who is neither the owner of the charity nor an
    administrator; a request without [req.user] is one. *)
Definition outsider (reqUser : option User.t) (charity : Charity.t) : bool :=
  match reqUser with
  | None => true
  | Some u =>
    negb (Nat.eqb (Charity.owner charity) (User._id u))
    && negb (User.AccountType_eqb (User.accountType u) User.admin)
  end.

(** What holds of a bulk request besides [bulkInv]: the loop counter
    counts the codes drawn, which are distinct; as long as no save was
    rejected the documents saved and pending carry these codes in order;
    the response is sent once the loop is over and every save settled. *)
Definition bulkCount (st : Admin.BulkCreate.State) : Prop :=
  Admin.BulkCreate.i st = length (Admin.BulkCreate.codes st) /\
  Admin.BulkCreate.i st <= Admin.BulkCreate.count st /\
  NoDup (Admin.BulkCreate.codes st) /\
  (Admin.BulkCreate.rejected st = false ->
   map CharityCode.code (Admin.BulkCreate.saved st ++ Admin.BulkCreate.pending st)
   = Admin.BulkCreate.codes st) /\
  (is_Some (Admin.BulkCreate.res st) ->
   Admin.BulkCreate.pending st = [] /\
   Admin.BulkCreate.count st <= Admin.BulkCreate.i st).

Definition requestCount (r : Admin.Request) : Prop :=
  match r with
  | Admin.Bulk _ st => bulkCount st
  | Admin.Create _ _ => True
  end.

(** Every stored document that carries the code is used. *)
Definition usedUp (code : string) (codes : list CharityCode.t) : bool :=
  forallb (fun d => negb (String.eqb (CharityCode.code d) code)
                    || CharityCode.isUsed d) codes.

(** The body [{ code: raw }] passes the schema of the redemption route
    and names the code. *)
Definition presents (code raw : string) : bool :=
  match validateCodeString raw with
  | inr value => String.eqb (toUpperCase value) code
  | inl _ => false
  end.

(** Where a request can stand that presented, as [raw], a code that was
    used up when the request began: it has not consumed a code, and if it
    has answered, not with success. *)
Definition refusing (raw : string) (pc : VerifyCharityCode.Pc) : Prop :=
  match pc with
  | VerifyCharityCode.Start raw' => raw' = raw
  | VerifyCharityCode.Found (Some d) => CharityCode.isUsed d = true
  | VerifyCharityCode.Found None => True
  | VerifyCharityCode.Used _ => False
  | VerifyCharityCode.Loaded _ _ => False
  | VerifyCharityCode.Done res => res <> VerifyCharityCode.verified
  end.

(** The requests that presented the code when they began, at the places
    [reqs0] has them, are refusing. *)
Definition allRefusing (X : string) (reqs0 now : list VerifyCharityCode.Request)
  : Prop :=
  forall i r raw r',
    reqs0 !! i = Some r ->
    VerifyCharityCode.pc r = VerifyCharityCode.Start raw ->
    presents X raw = true ->
    now !! i = Some r' -> refusing raw (VerifyCharityCode.pc r').

(** ** More scenarios *)

Module Scenario2.
Import Encoding EncryptionUtil.

(** The sample world when the sample codes have expired. *)
Definition late : World :=
  {| users := users Sample.world; charityCodes := charityCodes Sample.world;
     charities := charities Sample.world;
     clock := fun n => (200000 + Z.of_nat n)%Z; reads := 0;
     random := random Sample.world; draws := 0; nextId := 100 |}.

(** A batch of two codes, alone: two rounds of the loop, each followed by
    its save, then the response. *)
Definition batchAlone : list Admin.Request :=
  [ Admin.Bulk 0 (Admin.BulkCreate.start 2 200000%Z (Some "Spring")) ].

Definition fiveSteps : list Admin.Move :=
  [ Admin.Next 0; Admin.Next 0; Admin.Next 0; Admin.Next 0; Admin.Next 0 ].

(** The strings "Ann", "Lee", "Oslo" and "Aid". *)
Definition ann : jsstring := [65; 110; 110]%Z.
Definition lee : jsstring := [76; 101; 101]%Z.
Definition oslo : jsstring := [79; 115; 108; 111]%Z.
Definition aid : jsstring := [65; 105; 100]%Z.

Definition person : PersonalInfo.t :=
  {| PersonalInfo.firstName := Str ann; PersonalInfo.lastName := Str lee;
     PersonalInfo.phone := Undefined;
     PersonalInfo.address :=
       Some {| PersonalInfo.Address.street := Undefined;
               PersonalInfo.Address.city := Str oslo;
               PersonalInfo.Address.state := Undefined;
               PersonalInfo.Address.zipCode := Undefined;
               PersonalInfo.Address.country := Str oslo |};
     PersonalInfo.dateOfBirth := Str ann;
     PersonalInfo.description := Null |}.

Definition basics (name : JsVal) : Charity.BasicInfo.t :=
  {| Charity.BasicInfo.name := name;
     Charity.BasicInfo.description := Undefined;
     Charity.BasicInfo.mission := Undefined;
     Charity.BasicInfo.vision := Undefined;
     Charity.BasicInfo.foundedYear := Undefined;
     Charity.BasicInfo.website := Undefined;
     Charity.BasicInfo.email := Undefined;
     Charity.BasicInfo.phone := Undefined |}.

(** The body of a request that creates the charity "Aid". *)
Definition input : Charities.Input :=
  {| Charities.basicInfo := basics (Str aid);
     Charities.legalInfo := None; Charities.contactInfo := None;
     Charities.categories := []; Charities.tags := [] |}.

Definition program (name : JsVal) : Charity.Program.t :=
  {| Charity.Program.name := name;
     Charity.Program.description := Undefined;
     Charity.Program.targetAudience := Undefined;
     Charity.Program.budget := Undefined;
     Charity.Program.startDate := None; Charity.Program.endDate := None;
     Charity.Program.isActive := true |}.

(** A public charity of carol: the name "Aid", a tax id and the program
    "Ann". *)
Definition plain : Charity.t :=
  {| Charity._id := 60; Charity.owner := 3;
     Charity.basicInfo := Some (basics (Str aid));
     Charity.legalInfo :=
       Some {| Charity.LegalInfo.registrationNumber := Undefined;
               Charity.LegalInfo.taxId := Str lee;
               Charity.LegalInfo.legalStructure := Undefined;
               Charity.LegalInfo.registeredAddress := None |};
     Charity.contactInfo := None; Charity.financialInfo := None;
     Charity.programs := Some [program (Str ann)];
     Charity.status := Charity.verified; Charity.isPublic := true;
     Charity.logo := None; Charity.customFields := None;
     Charity.tags := []; Charity.categories := [] |}.

(** That charity as stored, all encrypted. *)
Definition stored : Charity.t :=
  CharityHooks.preSave SampleCrypto.crypto (fun _ => true) plain.

(** The sample world with that charity. *)
Definition withCharity : World :=
  {| users := users Sample.world; charityCodes := charityCodes Sample.world;
     charities := [stored];
     clock := clock Sample.world; reads := 0;
     random := random Sample.world; draws := 0; nextId := 100 |}.

(** Alice and bob present the code WXYZ5678, which carol has used. *)
Definition replay : list VerifyCharityCode.Request :=
  [ {| VerifyCharityCode.reqUser := Sample.alice;
       VerifyCharityCode.pc := VerifyCharityCode.Start "WXYZ5678" |};
    {| VerifyCharityCode.reqUser := Sample.bob;
       VerifyCharityCode.pc := VerifyCharityCode.Start "wxyz5678" |} ].

(** The token service of the examples: the refresh token of every sample
    user names alice; the next pair of tokens. *)
Definition verify (token : string) : option ObjectId :=
  if String.eqb token "token" then Some 1 else None.

Definition generateTokens (userId : ObjectId) : string * string :=
  ("access", "next").

End Scenario2.

(** * Part II: properties *)

Local Open Scope list_scope.

(** ** Collections *)

Section CollectionFacts.
Context {A : Type}.
Implicit Types (q : A -> bool) (coll : list A).

Lemma countDocuments_cons q x coll :
  countDocuments q (x :: coll) =
  (if q x then 1 else 0) + countDocuments q coll.
Proof. unfold countDocuments. simpl. destruct (q x); reflexivity. Qed.

Lemma countDocuments_all coll :
  countDocuments (fun _ : A => true) coll = length coll.
Proof.
  induction coll as [|x coll IH]; [reflexivity|].
  rewrite countDocuments_cons, IH. reflexivity.
Qed.

(** Two queries that select the same documents count the same. *)
Lemma countDocuments_ext q1 q2 coll :
  (forall x, q1 x = q2 x) ->
  countDocuments q1 coll = countDocuments q2 coll.
Proof.
  intros Heq. induction coll as [|x coll IH]; [reflexivity|].
  rewrite !countDocuments_cons, IH, Heq. reflexivity.
Qed.

(** A query that implies another counts at most as many documents. *)
Lemma countDocuments_mono q1 q2 coll :
  (forall x, q1 x = true -> q2 x = true) ->
  countDocuments q1 coll <= countDocuments q2 coll.
Proof.
  intros Himp. induction coll as [|x coll IH]; [reflexivity|].
  rewrite !countDocuments_cons.
  destruct (q1 x) eqn:E1.
  - rewrite (Himp x E1). lia.
  - destruct (q2 x); lia.
Qed.

(** A query and its complement split the collection. *)
Lemma countDocuments_split q coll :
  countDocuments q coll + countDocuments (fun x => negb (q x)) coll
  = length coll.
Proof.
  induction coll as [|x coll IH]; [reflexivity|].
  rewrite !countDocuments_cons. simpl length.
  destruct (q x); simpl; lia.
Qed.

Lemma findOne_none q coll :
  (forall x, In x coll -> q x = false) -> findOne q coll = None.
Proof.
  intros H. unfold findOne. induction coll as [|x coll IH]; [reflexivity|].
  simpl. rewrite (H x (or_introl eq_refl)). apply IH.
  intros y Hy. apply H. right. exact Hy.
Qed.

End CollectionFacts.

(** ** Statistics *)

Lemma q_active_isValidForUse now c :
  Admin.Stats.q_active now c = CharityCode.isValidForUse now c.
Proof.
  unfold Admin.Stats.q_active, CharityCode.isValidForUse.
  rewrite Z.gtb_ltb.
  destruct (CharityCode.isActive c), (CharityCode.isUsed c),
    (now <? CharityCode.expiresAt c)%Z; reflexivity.
Qed.

Lemma q_active_spec now c :
  Admin.Stats.q_active now c =
  CharityCode.isActive c && negb (Admin.Stats.q_expired now c)
  && negb (Admin.Stats.q_used c).
Proof.
  unfold Admin.Stats.q_active, Admin.Stats.q_expired, Admin.Stats.q_used.
  rewrite Z.gtb_ltb, Z.leb_antisym, negb_involutive.
  destruct (CharityCode.isActive c), (CharityCode.isUsed c),
    (now <? CharityCode.expiresAt c)%Z; reflexivity.
Qed.

(** C8: on every state of the collection and for every fixed evaluation
    time, the statistics satisfy [used + unused = total] and
    [active <= unused], and [active] counts exactly the codes that are
    active, not expired and not used, which are the codes [isValidForUse]
    accepts at that time. *)
Theorem stats_counts_consistent (now : Date) (codes : list CharityCode.t) :
  let s := Admin.Stats.stats now codes in
  Admin.Stats.used s + Admin.Stats.unused s = Admin.Stats.total s /\
  Admin.Stats.active s <= Admin.Stats.unused s /\
  Admin.Stats.active s =
    countDocuments (fun c => CharityCode.isActive c
                             && negb (Admin.Stats.q_expired now c)
                             && negb (Admin.Stats.q_used c)) codes /\
  Admin.Stats.active s = countDocuments (CharityCode.isValidForUse now) codes.
Proof.
  simpl. repeat split.
  - rewrite (countDocuments_ext Admin.Stats.q_unused
               (fun c => negb (Admin.Stats.q_used c))).
    + rewrite countDocuments_split. unfold Admin.Stats.q_total.
      symmetry. apply countDocuments_all.
    + intros c. unfold Admin.Stats.q_unused, Admin.Stats.q_used.
      destruct (CharityCode.isUsed c); reflexivity.
  - apply countDocuments_mono. intros c.
    unfold Admin.Stats.q_active, Admin.Stats.q_unused.
    intros H. apply andb_true_iff in H. apply H.
  - apply countDocuments_ext. intros c. apply q_active_spec.
  - apply countDocuments_ext. intros c. apply q_active_isValidForUse.
Qed.

(** The handler reads the clock once and counts on the collection as it
    stands. *)
Lemma stats_handler_spec (w : World) :
  fst (Admin.Stats.handler w) = Admin.Stats.stats (clock w (reads w)) (charityCodes w).
Proof. reflexivity. Qed.

(** ** The JSON form of a user *)

Lemma toObject_has_password (u : User.t) :
  User.toObject u !! "password" = Some (JStr (User.password u)).
Proof.
  unfold User.toObject.
  destruct (User.lastLogin u), (User.verificationToken u); reflexivity.
Qed.

Lemma toObject_has_refreshTokens (u : User.t) :
  User.toObject u !! "refreshTokens" = Some (JArr (map JStr (User.refreshTokens u))).
Proof.
  unfold User.toObject.
  destruct (User.lastLogin u), (User.verificationToken u); reflexivity.
Qed.

(** C10: whatever the user record holds, the object [toJSON] returns has
    no key [password], [refreshTokens] or [verificationToken]; every other
    key is as in [toObject]. *)
Theorem toJSON_hides_secrets (u : User.t) :
  User.toJSON u !! "password" = None /\
  User.toJSON u !! "refreshTokens" = None /\
  User.toJSON u !! "verificationToken" = None /\
  forall k : string,
    k <> "password" -> k <> "refreshTokens" -> k <> "verificationToken" ->
    User.toJSON u !! k = User.toObject u !! k.
Proof.
  unfold User.toJSON. repeat split.
  - rewrite lookup_delete_ne by discriminate.
    rewrite lookup_delete_ne by discriminate.
    apply lookup_delete_eq.
  - rewrite lookup_delete_ne by discriminate. apply lookup_delete_eq.
  - apply lookup_delete_eq.
  - intros k H1 H2 H3.
    rewrite !lookup_delete_ne by congruence. reflexivity.
Qed.

(** ** Redemption: the checks before a code is consumed *)

Lemma uniqueCodes_same_code codes c c' :
  uniqueCodes codes = true -> In c codes -> In c' codes ->
  CharityCode.code c' = CharityCode.code c -> c' = c.
Proof.
  induction codes as [|x rest IH]; [intros _ []|].
  simpl. intros Hu Hc Hc' Hcode.
  apply andb_true_iff in Hu as [Hx Hrest].
  apply negb_true_iff in Hx.
  assert (Hno : forall y, In y rest -> CharityCode.code y <> CharityCode.code x).
  { intros y Hy Heq.
    assert (existsb (Admin.byCode (CharityCode.code x)) rest = true) as Hex.
    { apply existsb_exists. exists y. split; [exact Hy|].
      unfold Admin.byCode. rewrite Heq. apply String.eqb_refl. }
    congruence. }
  destruct Hc as [->|Hc], Hc' as [->|Hc'].
  - reflexivity.
  - exfalso. exact (Hno c' Hc' Hcode).
  - exfalso. apply (Hno c Hc). symmetry. exact Hcode.
  - apply IH; assumption.
Qed.

Lemma handler_unfold (u : User.t) (raw : string) (w : World) :
  VerifyCharityCode.handler u raw w =
  let '(pc1, w1) := VerifyCharityCode.step u (VerifyCharityCode.Start raw) w in
  let '(pc2, w2) := VerifyCharityCode.step u pc1 w1 in
  let '(pc3, w3) := VerifyCharityCode.step u pc2 w2 in
  VerifyCharityCode.step u pc3 w3.
Proof. reflexivity. Qed.

(** The handler always answers: after its four steps the request is done. *)
Lemma handler_responds (u : User.t) (raw : string) (w : World) :
  exists res, fst (VerifyCharityCode.handler u raw w) = VerifyCharityCode.Done res.
Proof.
  rewrite handler_unfold.
  destruct (VerifyCharityCode.step u (VerifyCharityCode.Start raw) w)
    as [pc1 w1] eqn:H1.
  assert (Hpc1 : (exists res, pc1 = VerifyCharityCode.Done res)
                 \/ exists found, pc1 = VerifyCharityCode.Found found).
  { unfold VerifyCharityCode.step in H1.
    destruct (validateCodeString raw); [injection H1 as <- _; eauto|].
    destruct (User.canCreateCharity _); injection H1 as <- _; eauto. }
  destruct Hpc1 as [[res ->]|[found ->]]; [cbn; eauto|].
  destruct (VerifyCharityCode.step u (VerifyCharityCode.Found found) w1)
    as [pc2 w2] eqn:H2.
  assert (Hpc2 : (exists res, pc2 = VerifyCharityCode.Done res)
                 \/ exists c, pc2 = VerifyCharityCode.Used c).
  { unfold VerifyCharityCode.step, bind in H2.
    destruct found as [c|]; [|injection H2 as <- _; eauto].
    destruct (newDate w1) as [now w1'].
    destruct (negb (CharityCode.isValidForUse now c)).
    - destruct (newDate w1'). injection H2 as <- _. eauto.
    - destruct (useCode (User._id u) c w1') as [[c'|] w1''];
        injection H2 as <- _; eauto. }
  destruct Hpc2 as [[res ->]|[c ->]]; [cbn; eauto|].
  cbn [VerifyCharityCode.step]. unfold bind at 1.
  destruct (findUserById (User._id u) w2) as [user w3].
  cbn [ret VerifyCharityCode.step]. unfold bind.
  destruct (VerifyCharityCode.attach c user w3) as [res w4]. cbn. eauto.
Qed.

(** The first step of a well-formed request of an identity without grant
    is the lookup of the code among the active codes. *)
Lemma step_start_lookup (w : World) (u : User.t) (raw code : string) :
  validateCodeString raw = inr code ->
  User.canCreateCharity (User.charityAuthorization u) = false ->
  VerifyCharityCode.step u (VerifyCharityCode.Start raw) w =
  (VerifyCharityCode.Found
     (findOne (VerifyCharityCode.byCodeActive code) (charityCodes w)), w).
Proof.
  intros Hvalid Hgrant. unfold VerifyCharityCode.step.
  rewrite Hvalid, Hgrant. reflexivity.
Qed.

(** An identity that holds a grant is answered before the collection of
    codes is read: the world is left as it was. *)
Lemma handler_granted (w : World) (u : User.t) (raw : string) :
  User.canCreateCharity (User.charityAuthorization u) = true ->
  VerifyCharityCode.handler u raw w =
  (VerifyCharityCode.Done
     (match validateCodeString raw with
      | inl e => VerifyCharityCode.invalid e
      | inr _ => AlreadyGranted
      end), w).
Proof.
  intros Hgrant.
  unfold VerifyCharityCode.handler, bind, VerifyCharityCode.step.
  destruct (validateCodeString raw) as [e|code]; [reflexivity|].
  rewrite Hgrant. reflexivity.
Qed.

(** C6: for an identity that already holds a grant, whatever code is
    presented, the redemption is answered with AlreadyGranted (the code
    having the format the route accepts) and the world, hence every
    credential, is left unchanged. *)
Theorem redeem_already_granted (w : World) (u : User.t) (raw code : string) :
  User.canCreateCharity (User.charityAuthorization u) = true ->
  validateCodeString raw = inr code ->
  VerifyCharityCode.handler u raw w = (VerifyCharityCode.Done AlreadyGranted, w) /\
  charityCodes (snd (VerifyCharityCode.handler u raw w)) = charityCodes w.
Proof.
  intros Hgrant Hvalid. rewrite (handler_granted w u raw Hgrant), Hvalid.
  split; reflexivity.
Qed.

Lemma redeem_already_granted_witness :
  VerifyCharityCode.handler Sample.carol "abcd1234" Sample.world
  = (VerifyCharityCode.Done AlreadyGranted, Sample.world) /\
  charityCodes (snd (VerifyCharityCode.handler Sample.carol "abcd1234" Sample.world))
  = charityCodes Sample.world.
Proof.
  apply (redeem_already_granted Sample.world Sample.carol "abcd1234" "ABCD1234");
    reflexivity.
Defined.

(** An inactive code is not found by the query of the route. *)
Lemma inactive_code_not_found (w : World) (c : CharityCode.t) (code : string) :
  uniqueCodes (charityCodes w) = true ->
  In c (charityCodes w) ->
  CharityCode.code c = toUpperCase code ->
  CharityCode.isActive c = false ->
  findCharityCode (VerifyCharityCode.byCodeActive code) w = (None, w).
Proof.
  intros Hu Hin Hcode Hact. unfold findCharityCode, bind, getWorld, ret.
  f_equal. apply findOne_none. intros x Hx.
  unfold VerifyCharityCode.byCodeActive.
  destruct (String.eqb_spec (CharityCode.code x) (toUpperCase code)) as [Heq|]; [|reflexivity].
  assert (x = c) as -> by (apply (uniqueCodes_same_code _ _ _ Hu Hin Hx); congruence).
  rewrite Hact. reflexivity.
Qed.

(** C2, as the route behaves: a deactivated credential is invisible to the
    lookup, so that redeeming its code is answered with NotFound (or with
    AlreadyGranted when the identity holds a grant), never with Inactive,
    and the world is left unchanged. *)
Theorem redeem_inactive_not_found (w : World) (u : User.t) (c : CharityCode.t)
    (raw code : string) :
  uniqueCodes (charityCodes w) = true ->
  In c (charityCodes w) ->
  CharityCode.isActive c = false ->
  validateCodeString raw = inr code ->
  CharityCode.code c = toUpperCase code ->
  VerifyCharityCode.handler u raw w =
  (VerifyCharityCode.Done
     (if User.canCreateCharity (User.charityAuthorization u)
      then AlreadyGranted else NotFound), w).
Proof.
  intros Hu Hin Hact Hvalid Hcode.
  destruct (User.canCreateCharity (User.charityAuthorization u)) eqn:Hgrant.
  - rewrite (handler_granted w u raw Hgrant), Hvalid. reflexivity.
  - rewrite handler_unfold, (step_start_lookup w u raw code Hvalid Hgrant).
    unfold findCharityCode, bind, getWorld, ret in *.
    pose proof (inactive_code_not_found w c code Hu Hin Hcode Hact) as Hnone.
    unfold findCharityCode, bind, getWorld, ret in Hnone.
    injection Hnone as Hnone. rewrite Hnone. reflexivity.
Qed.

Lemma redeem_inactive_not_found_witness :
  VerifyCharityCode.handler Sample.alice "ABCD1234" Scenario.deactivatedWorld =
  (VerifyCharityCode.Done NotFound, Scenario.deactivatedWorld).
Proof.
  apply (redeem_inactive_not_found Scenario.deactivatedWorld Sample.alice
           (CharityCode.deactivate Sample.code10) "ABCD1234" "ABCD1234").
  - reflexivity.
  - simpl. left. reflexivity.
  - reflexivity.
  - reflexivity.
  - reflexivity.
Defined.

(** C2, as stated, fails: the administrator deactivates the unused code
    ABCD1234, alice then presents it and is answered NotFound (404), not
    Inactive. *)
Lemma redeem_inactive_reports_inactive_fails :
  fst (Admin.Deactivate.handler 10 Sample.world) = Admin.Deactivate.deactivated /\
  fst (VerifyCharityCode.handler Sample.alice "ABCD1234" Scenario.deactivatedWorld)
  = VerifyCharityCode.Done NotFound /\
  fst (VerifyCharityCode.handler Sample.alice "ABCD1234" Scenario.deactivatedWorld)
  <> VerifyCharityCode.Done Inactive.
Proof.
  repeat split; try reflexivity.
  vm_compute. discriminate.
Qed.

(** ** The grant *)

(** [updateById] rewrites the document [findOne] finds for that [_id]. *)
Lemma updateById_found {A} (idOf : A -> ObjectId) id (set : A -> A) coll x :
  findOne (fun y => Nat.eqb (idOf y) id) coll = Some x ->
  exists before after,
    coll = before ++ x :: after /\
    updateById idOf id set coll = Some (before ++ set x :: after) /\
    Forall (fun y => Nat.eqb (idOf y) id = false) before.
Proof.
  unfold findOne. induction coll as [|y rest IH]; [discriminate|].
  simpl. destruct (Nat.eqb (idOf y) id) eqn:E.
  - intros [= ->]. exists [], rest. repeat split. constructor.
  - intros Hfind. destruct (IH Hfind) as (before & after & -> & -> & Hb).
    exists (y :: before), after. repeat split. constructor; assumption.
Qed.

Lemma updateById_none {A} (idOf : A -> ObjectId) id (set : A -> A) coll :
  findOne (fun y => Nat.eqb (idOf y) id) coll = None ->
  updateById idOf id set coll = None.
Proof.
  unfold findOne. induction coll as [|y rest IH]; [reflexivity|].
  simpl. destruct (Nat.eqb (idOf y) id); [discriminate|].
  intros H. rewrite (IH H). reflexivity.
Qed.

Lemma findOne_middle {A} (q : A -> bool) before x after :
  Forall (fun y => q y = false) before -> q x = true ->
  findOne q (before ++ x :: after) = Some x.
Proof.
  unfold findOne. induction 1 as [|y before Hy _ IH]; simpl; intros Hx.
  - rewrite Hx. reflexivity.
  - rewrite Hy. apply IH, Hx.
Qed.

(** C3, as the route behaves: the attach step makes no check of its own.
    For every stored identity, with or without a grant, it answers with
    success and replaces the grant by the new one; GrantConflict does not
    exist.  An existing grant is protected by the pre-check of the
    redemption alone: a request of an identity seen with a grant leaves
    the world unchanged. *)
Theorem attach_overwrites_grant (w : World) (credential : CharityCode.t)
    (u : User.t) :
  findOne (byUserId (User._id u)) (users w) = Some u ->
  let now := clock w (reads w) in
  let grant := VerifyCharityCode.authorization credential now in
  fst (VerifyCharityCode.attach credential (Some u) w) = Success /\
  findOne (byUserId (User._id u))
          (users (snd (VerifyCharityCode.attach credential (Some u) w)))
  = Some (User.set_charityAuthorization grant u) /\
  (forall raw,
     User.canCreateCharity (User.charityAuthorization u) = true ->
     snd (VerifyCharityCode.handler u raw w) = w).
Proof.
  intros Hfind now grant.
  destruct (updateById_found User._id (User._id u)
              (User.set_charityAuthorization grant) (users w) u Hfind)
    as (before & after & Hsplit & Hupd & Hbefore).
  unfold VerifyCharityCode.attach, bind, newDate, saveUser, bind, getWorld.
  cbn [users reads clock]. fold now. fold grant. rewrite Hupd.
  cbn. repeat split.
  - apply findOne_middle; [exact Hbefore|].
    unfold byUserId. cbn. apply Nat.eqb_refl.
  - intros raw Hgrant. rewrite (handler_granted w u raw Hgrant). reflexivity.
Qed.

Lemma attach_overwrites_grant_witness :
  fst (VerifyCharityCode.attach Sample.code12 (Some Sample.carol) Sample.world)
  = Success /\
  findOne (byUserId 3)
          (users (snd (VerifyCharityCode.attach Sample.code12 (Some Sample.carol)
                         Sample.world)))
  = Some (User.set_charityAuthorization
            (VerifyCharityCode.authorization Sample.code12 1000%Z) Sample.carol) /\
  (forall raw,
     User.canCreateCharity (User.charityAuthorization Sample.carol) = true ->
     snd (VerifyCharityCode.handler Sample.carol raw Sample.world) = Sample.world).
Proof.
  apply (attach_overwrites_grant Sample.world Sample.code12 Sample.carol).
  reflexivity.
Defined.

(** C3, as stated, fails: carol holds the grant of code 11 given at time
    500; a second attach, for code 12, is answered with success, not with
    a conflict, and her grant is now that of code 12 given at time 1000. *)
Lemma attach_second_time_rejected_fails :
  User.charityAuthorization Sample.carol
  = {| User.code := Some 11; User.authorizedAt := Some 500%Z;
       User.canCreateCharity := true |} /\
  fst (VerifyCharityCode.attach Sample.code12 (Some Sample.carol) Sample.world)
  = Success /\
  option_map User.charityAuthorization
    (findOne (byUserId 3)
       (users (snd (VerifyCharityCode.attach Sample.code12 (Some Sample.carol)
                      Sample.world))))
  = Some {| User.code := Some 12; User.authorizedAt := Some 1000%Z;
            User.canCreateCharity := true |}.
Proof. repeat split. Qed.

(** The pre-check can be passed twice: alice sends two requests, each with
    its own code; both see her without a grant, both codes are consumed
    and the second attach replaces the grant of the first. *)
Lemma attach_twice_by_racing_requests :
  let '(reqs, w) :=
    VerifyCharityCode.interleave [0; 1; 0; 1; 0; 1; 0; 1] Scenario.twoCodes
      Sample.world in
  map VerifyCharityCode.response reqs = [Some Success; Some Success] /\
  option_map CharityCode.user (usedByOf 10 w) = Some (Some 1) /\
  option_map CharityCode.user (usedByOf 12 w) = Some (Some 1) /\
  grantOf 1 w = Some (VerifyCharityCode.authorization Sample.code12 1007%Z).
Proof. vm_compute. repeat split. Qed.

(** ** Redemption under concurrency *)

(** One request after the other: alice wins, bob is answered AlreadyUsed,
    the code records alice. *)
Lemma redeem_one_after_the_other :
  let '(reqs, w) :=
    VerifyCharityCode.interleave [0; 0; 0; 0; 1; 1; 1; 1] Scenario.race Sample.world in
  map VerifyCharityCode.response reqs = [Some Success; Some AlreadyUsed] /\
  usedByOf 10 w = Some {| CharityCode.user := Some 1;
                          CharityCode.usedAt := Some 1002%Z |} /\
  grantOf 2 w = Some Sample.noAuthorization.
Proof. vm_compute. repeat split. Qed.

(** C1 fails on the route: when both lookups are answered before either
    request writes, both requests pass the validity check on their own
    copy of the code, both are answered with success and both identities
    receive the grant; the code records the last writer only. *)
Theorem redeem_race_two_winners :
  let '(reqs, w) :=
    VerifyCharityCode.interleave [0; 1; 0; 1; 0; 1; 0; 1] Scenario.race Sample.world in
  map VerifyCharityCode.response reqs = [Some Success; Some Success] /\
  usedByOf 10 w = Some {| CharityCode.user := Some 2;
                          CharityCode.usedAt := Some 1005%Z |} /\
  grantOf 1 w = Some (VerifyCharityCode.authorization Sample.code10 1006%Z) /\
  grantOf 2 w = Some (VerifyCharityCode.authorization Sample.code10 1007%Z).
Proof. vm_compute. repeat split. Qed.

(** *** The race, for every valid code *)

Lemma updateById_middle {A} (idOf : A -> ObjectId) id (set : A -> A) before x after :
  Forall (fun y => Nat.eqb (idOf y) id = false) before ->
  Nat.eqb (idOf x) id = true ->
  updateById idOf id set (before ++ x :: after) = Some (before ++ set x :: after).
Proof.
  induction 1 as [|y before Hy _ IH]; cbn; intros Hx.
  - rewrite Hx. reflexivity.
  - rewrite Hy, (IH Hx). reflexivity.
Qed.

Lemma findOne_replace_other {A} (q : A -> bool) before x x' after :
  q x = false -> q x' = false ->
  findOne q (before ++ x' :: after) = findOne q (before ++ x :: after).
Proof.
  intros Hx Hx'. unfold findOne.
  induction before as [|y before IH]; cbn.
  - rewrite Hx, Hx'. reflexivity.
  - destruct (q y); [reflexivity|exact IH].
Qed.

Lemma findOne_holds {A} (q : A -> bool) coll x :
  findOne q coll = Some x -> q x = true.
Proof. intros H. apply find_some in H. apply H. Qed.

(** The step that consumes a code that is valid on the copy of the request
    and still stored. *)
Lemma step_found_valid (w : World) (u : User.t) (c : CharityCode.t) before stored after :
  charityCodes w = before ++ stored :: after ->
  Forall (fun y => Nat.eqb (CharityCode._id y) (CharityCode._id c) = false) before ->
  CharityCode._id stored = CharityCode._id c ->
  CharityCode.isActive c = true ->
  CharityCode.isUsed c = false ->
  (clock w (reads w) < CharityCode.expiresAt c)%Z ->
  (clock w (S (reads w)) < CharityCode.expiresAt c)%Z ->
  let usedAt := clock w (S (S (reads w))) in
  VerifyCharityCode.step u (VerifyCharityCode.Found (Some c)) w =
  (VerifyCharityCode.Used (CharityCode.markUsed (User._id u) usedAt c),
   setCodes (before ++ CharityCode.markUsed (User._id u) usedAt stored :: after)
            (S (S (S (reads w)))) w).
Proof.
  intros Hsplit Hbefore Hid Hact Hunused Ht0 Ht1 usedAt.
  unfold VerifyCharityCode.step, bind at 1, newDate.
  unfold CharityCode.isValidForUse at 1. rewrite Hact, Hunused.
  apply Z.ltb_lt in Ht0, Ht1. rewrite Ht0. cbn [andb negb].
  unfold useCode, bind, newDate. cbn [clock reads].
  unfold CharityCode.isValidForUse. rewrite Hact, Hunused, Ht1. cbn [andb negb].
  unfold saveCharityCode, bind, getWorld. cbn [charityCodes].
  rewrite Hsplit.
  rewrite (updateById_middle CharityCode._id (CharityCode._id c) _ before stored after
             Hbefore) by (rewrite Hid; apply Nat.eqb_refl).
  reflexivity.
Qed.

Lemma step_loaded (w : World) (u : User.t) (c : CharityCode.t) (user : User.t)
    before stored after :
  users w = before ++ stored :: after ->
  Forall (fun y => Nat.eqb (User._id y) (User._id user) = false) before ->
  User._id stored = User._id user ->
  VerifyCharityCode.step u (VerifyCharityCode.Loaded c (Some user)) w =
  (VerifyCharityCode.Done Success,
   setUsers (before ++ User.set_charityAuthorization
                         (VerifyCharityCode.authorization c (clock w (reads w)))
                         stored :: after)
            (S (reads w)) w).
Proof.
  intros Hsplit Hbefore Hid.
  unfold VerifyCharityCode.step, bind at 1, VerifyCharityCode.attach, bind, newDate.
  unfold saveUser, bind, getWorld. cbn [users clock reads].
  rewrite Hsplit.
  rewrite (updateById_middle User._id (User._id user) _ before stored after Hbefore)
    by (rewrite Hid; apply Nat.eqb_refl).
  reflexivity.
Qed.

(** For every stored code that is valid while the two requests run and
    every two identities without grant, the schedule that answers the two
    lookups first makes both requests succeed, and the code records the
    second writer. *)
Lemma redeem_race_every_valid_code (w : World) (a b ua ub : User.t)
    (c : CharityCode.t) (raw code : string) :
  validateCodeString raw = inr code ->
  User.canCreateCharity (User.charityAuthorization a) = false ->
  User.canCreateCharity (User.charityAuthorization b) = false ->
  findOne (VerifyCharityCode.byCodeActive code) (charityCodes w) = Some c ->
  findOne (fun d => Nat.eqb (CharityCode._id d) (CharityCode._id c)) (charityCodes w)
  = Some c ->
  CharityCode.isUsed c = false ->
  (forall k, k < 5 -> (clock w (reads w + k) < CharityCode.expiresAt c)%Z) ->
  findOne (byUserId (User._id a)) (users w) = Some ua ->
  findOne (byUserId (User._id b)) (users w) = Some ub ->
  User._id a <> User._id b ->
  let '(reqs, w') :=
    VerifyCharityCode.interleave [0; 1; 0; 1; 0; 1; 0; 1]
      [ {| VerifyCharityCode.reqUser := a;
           VerifyCharityCode.pc := VerifyCharityCode.Start raw |};
        {| VerifyCharityCode.reqUser := b;
           VerifyCharityCode.pc := VerifyCharityCode.Start raw |} ] w in
  map VerifyCharityCode.response reqs = [Some Success; Some Success] /\
  usedByOf (CharityCode._id c) w'
  = Some {| CharityCode.user := Some (User._id b);
            CharityCode.usedAt := Some (clock w (reads w + 5)) |}.
Proof.
  intros Hv Ha Hb Hc Hcid Hunused Htime Hua Hub Hne.
  assert (Hact : CharityCode.isActive c = true).
  { apply findOne_holds in Hc. unfold VerifyCharityCode.byCodeActive in Hc.
    apply andb_true_iff in Hc as [_ Hc]. destruct (CharityCode.isActive c); [reflexivity|discriminate]. }
  destruct (updateById_found CharityCode._id (CharityCode._id c) id (charityCodes w) c Hcid)
    as (cb & ca & Hcsplit & _ & Hcbefore).
  assert (Huaid : User._id ua = User._id a).
  { apply findOne_holds in Hua. apply Nat.eqb_eq in Hua. exact Hua. }
  assert (Hubid : User._id ub = User._id b).
  { apply findOne_holds in Hub. apply Nat.eqb_eq in Hub. exact Hub. }
  unfold byUserId in Hua, Hub.
  rewrite <- Huaid in Hua. rewrite <- Hubid in Hub.
  destruct (updateById_found User._id (User._id ua) id (users w) ua Hua)
    as (uab & uaa & Husplit & _ & Huabefore).
  (* the two lookups *)
  cbn [VerifyCharityCode.interleave lookup list_lookup].
  unfold bind at 1. unfold VerifyCharityCode.advance at 1. unfold bind at 1.
  cbn [VerifyCharityCode.reqUser VerifyCharityCode.pc].
  rewrite (step_start_lookup w a raw code Hv Ha), Hc.
  cbn [ret insert list_insert lookup list_lookup].
  unfold bind at 1. unfold VerifyCharityCode.advance at 1. unfold bind at 1.
  cbn [VerifyCharityCode.reqUser VerifyCharityCode.pc].
  rewrite (step_start_lookup w b raw code Hv Hb), Hc.
  cbn [ret insert list_insert lookup list_lookup].
  (* the two writes on the code *)
  unfold bind at 1. unfold VerifyCharityCode.advance at 1. unfold bind at 1.
  cbn [VerifyCharityCode.reqUser VerifyCharityCode.pc].
  rewrite (step_found_valid w a c cb c ca Hcsplit Hcbefore eq_refl Hact Hunused).
  2: { specialize (Htime 0). rewrite Nat.add_0_r in Htime. apply Htime. lia. }
  2: { specialize (Htime 1). rewrite Nat.add_1_r in Htime. apply Htime. lia. }
  cbn [ret insert list_insert lookup list_lookup].
  unfold bind at 1. unfold VerifyCharityCode.advance at 1. unfold bind at 1.
  cbn [VerifyCharityCode.reqUser VerifyCharityCode.pc].
  erewrite (step_found_valid _ b c cb _ ca); cycle 1.
  { reflexivity. }
  { exact Hcbefore. }
  { reflexivity. }
  { exact Hact. }
  { exact Hunused. }
  { cbn. specialize (Htime 3). replace (reads w + 3) with (S (S (S (reads w)))) in Htime by lia.
    apply Htime. lia. }
  { cbn. specialize (Htime 4). replace (reads w + 4) with (S (S (S (S (reads w))))) in Htime by lia.
    apply Htime. lia. }
  cbn [ret insert list_insert lookup list_lookup].
  (* the two lookups of the user *)
  unfold bind at 1. unfold VerifyCharityCode.advance at 1. unfold bind at 1.
  cbn [VerifyCharityCode.reqUser VerifyCharityCode.pc VerifyCharityCode.step].
  unfold bind at 1. unfold findUserById at 1. unfold bind at 1. unfold getWorld at 1.
  cbn [ret users setCodes].
  rewrite Huaid in Hua. rewrite Hua.
  cbn [ret insert list_insert lookup list_lookup].
  unfold bind at 1. unfold VerifyCharityCode.advance at 1. unfold bind at 1.
  cbn [VerifyCharityCode.reqUser VerifyCharityCode.pc VerifyCharityCode.step].
  unfold bind at 1. unfold findUserById at 1. unfold bind at 1. unfold getWorld at 1.
  cbn [ret users setCodes].
  rewrite Hubid in Hub. rewrite Hub.
  cbn [ret insert list_insert lookup list_lookup].
  (* the two writes on the users *)
  unfold bind at 1. unfold VerifyCharityCode.advance at 1. unfold bind at 1.
  cbn [VerifyCharityCode.reqUser VerifyCharityCode.pc].
  erewrite (step_loaded _ a _ ua uab ua uaa); cycle 1.
  { exact Husplit. }
  { exact Huabefore. }
  { reflexivity. }
  cbn [ret insert list_insert lookup list_lookup].
  assert (Hub' : findOne (fun y => Nat.eqb (User._id y) (User._id ub))
                   (uab ++ User.set_charityAuthorization
                             (VerifyCharityCode.authorization
                                (CharityCode.markUsed (User._id a)
                                   (clock w (S (S (reads w)))) c)
                                (clock w (S (S (S (S (S (S (reads w)))))))))
                             ua :: uaa) = Some ub).
  { rewrite (findOne_replace_other _ uab ua _ uaa).
    - rewrite <- Husplit, Hubid. exact Hub.
    - apply Nat.eqb_neq. congruence.
    - cbn. apply Nat.eqb_neq. congruence. }
  destruct (updateById_found User._id (User._id ub) id _ ub Hub')
    as (ubb & uba & Hubsplit & _ & Hubbefore).
  unfold bind at 1. unfold VerifyCharityCode.advance at 1. unfold bind at 1.
  cbn [VerifyCharityCode.reqUser VerifyCharityCode.pc].
  erewrite (step_loaded _ b _ ub ubb ub uba); cycle 1.
  { cbn. exact Hubsplit. }
  { exact Hubbefore. }
  { reflexivity. }
  cbn [ret insert list_insert lookup list_lookup map VerifyCharityCode.response
       VerifyCharityCode.pc].
  split; [reflexivity|].
  unfold usedByOf. cbn [charityCodes setUsers setCodes].
  rewrite (findOne_middle _ cb _ ca Hcbefore) by (cbn; apply Nat.eqb_refl).
  cbn. repeat f_equal. lia.
Qed.

(** ** Batches of codes *)

Lemma grows_refl w : grows w w.
Proof. exists []. symmetry. apply app_nil_r. Qed.

Lemma grows_trans w1 w2 w3 : grows w1 w2 -> grows w2 w3 -> grows w1 w3.
Proof.
  intros [a1 H1] [a2 H2]. exists (a1 ++ a2).
  rewrite H2, H1. symmetry. apply app_assoc.
Qed.

Lemma grows_In w w' d : grows w w' -> In d (charityCodes w) -> In d (charityCodes w').
Proof. intros [added ->] H. apply in_or_app. left. exact H. Qed.

Lemma insertCharityCode_spec doc w :
  let '(ok, w') := insertCharityCode doc w in
  grows w w' /\ (ok = true -> In doc (charityCodes w')).
Proof.
  unfold insertCharityCode, bind, getWorld.
  destruct (findOne _ (charityCodes w)); cbn.
  - split; [apply grows_refl|discriminate].
  - split; [exists [doc]; reflexivity|].
    intros _. apply in_or_app. right. left. reflexivity.
Qed.

Lemma drawCode_codes w : charityCodes (snd (drawCode w)) = charityCodes w.
Proof. reflexivity. Qed.

Lemma bulkInv_grows w w' st : grows w w' -> bulkInv w st -> bulkInv w' st.
Proof.
  intros Hg [Hs Hr]. split; [|exact Hr].
  eapply Forall_impl; [exact Hs|]. intros d. apply grows_In, Hg.
Qed.

Lemma requestInv_grows w w' r : grows w w' -> requestInv w r -> requestInv w' r.
Proof. destruct r; [trivial|]. apply bulkInv_grows. Qed.

Lemma generate_spec admin st w :
  Admin.BulkCreate.res st = None ->
  bulkInv w st ->
  let '(st', w') := Admin.BulkCreate.generate admin st w in
  grows w w' /\ bulkInv w' st'.
Proof.
  intros Hres Hinv. unfold Admin.BulkCreate.generate, bind.
  destruct (drawCode w) as [code w1] eqn:Hdraw.
  assert (Hg1 : grows w w1).
  { exists []. rewrite app_nil_r.
    change w1 with (snd (code, w1)). rewrite <- Hdraw. apply drawCode_codes. }
  destruct (Admin.BulkCreate.includes code (Admin.BulkCreate.codes st));
    [split; [exact Hg1|apply (bulkInv_grows w); assumption]|].
  unfold findCharityCode, bind, getWorld, ret.
  destruct (findOne _ (charityCodes w1));
    [split; [exact Hg1|apply (bulkInv_grows w); assumption]|].
  cbn. split.
  - exact Hg1.
  - destruct Hinv as [Hs Hr]. split; cbn.
    + eapply Forall_impl; [exact Hs|]. intros d. apply (grows_In w w1 d Hg1).
    + rewrite Hres. discriminate.
Qed.

Lemma bulk_step_spec admin st w :
  bulkInv w st ->
  let '(st', w') := Admin.BulkCreate.step admin st w in
  grows w w' /\ bulkInv w' st'.
Proof.
  intros Hinv. unfold Admin.BulkCreate.step.
  destruct (Admin.BulkCreate.res st) eqn:Hres;
    [split; [apply grows_refl|exact Hinv]|].
  destruct (Admin.BulkCreate.pending st) as [|doc rest].
  - destruct (Admin.BulkCreate.i st <? Admin.BulkCreate.count st)%nat.
    + apply generate_spec; assumption.
    + split; [apply grows_refl|]. destruct Hinv as [Hs Hr].
      split; cbn; [exact Hs|]. intros r [= <-]. reflexivity.
  - unfold Admin.BulkCreate.commit, bind.
    pose proof (insertCharityCode_spec doc w) as Hins.
    destruct (insertCharityCode doc w) as [ok w'].
    destruct Hins as [Hg Hok]. cbn. split; [exact Hg|].
    destruct Hinv as [Hs Hr]. split; cbn.
    + assert (Hs' : Forall (fun d => In d (charityCodes w')) (Admin.BulkCreate.saved st)).
      { eapply Forall_impl; [exact Hs|]. intros d. apply grows_In, Hg. }
      destruct ok; [|exact Hs'].
      apply Forall_app. split; [exact Hs'|].
      constructor; [apply Hok; reflexivity|constructor].
    + rewrite Hres. discriminate.
Qed.

Lemma create_step_grows admin pc w :
  grows w (snd (Admin.CreateCode.step admin pc w)).
Proof.
  destruct pc as [[code|] expiresAt description|doc|res];
    unfold Admin.CreateCode.step, bind, drawCode, findCharityCode, bind,
      getWorld, ret, freshId.
  - destruct (findOne _ (charityCodes w)); cbn;
      exists []; rewrite app_nil_r; reflexivity.
  - cbn [charityCodes].
    match goal with
    | |- context [findOne ?q ?l] => destruct (findOne q l)
    end; cbn; exists []; rewrite app_nil_r; reflexivity.
  - pose proof (insertCharityCode_spec doc w) as Hins.
    destruct (insertCharityCode doc w) as [ok w']. cbn. apply Hins.
  - apply grows_refl.
Qed.

Lemma advance_spec r w :
  requestInv w r ->
  let '(r', w') := Admin.advance r w in
  grows w w' /\ requestInv w' r'.
Proof.
  intros Hinv. destruct r as [admin pc|admin st]; unfold Admin.advance, bind.
  - pose proof (create_step_grows admin pc w) as Hg.
    destruct (Admin.CreateCode.step admin pc w) as [pc' w']. cbn.
    split; [exact Hg|exact I].
  - pose proof (bulk_step_spec admin st w Hinv) as Hs.
    destruct (Admin.BulkCreate.step admin st w) as [st' w']. exact Hs.
Qed.

Lemma advanceAhead_spec r w :
  requestInv w r ->
  let '(r', w') := Admin.advanceAhead r w in
  grows w w' /\ requestInv w' r'.
Proof.
  intros Hinv. destruct r as [admin pc|admin st]; unfold Admin.advanceAhead.
  - split; [apply grows_refl|exact I].
  - unfold bind, Admin.BulkCreate.loopAhead.
    destruct (Admin.BulkCreate.res st) eqn:Hres;
      [split; [apply grows_refl|exact Hinv]|].
    destruct (Admin.BulkCreate.i st <? Admin.BulkCreate.count st)%nat;
      [|split; [apply grows_refl|exact Hinv]].
    pose proof (generate_spec admin st w Hres Hinv) as Hs.
    destruct (Admin.BulkCreate.generate admin st w) as [st' w']. exact Hs.
Qed.

Lemma Forall_list_insert {A} (P : A -> Prop) (l : list A) i x :
  Forall P l -> P x -> Forall P (<[i := x]> l).
Proof.
  intros Hl Hx. revert i. induction Hl as [|y l Hy Hl IH]; intros i.
  - constructor.
  - destruct i as [|i]; cbn; constructor; auto.
Qed.

Lemma Forall_list_lookup {A} (P : A -> Prop) (l : list A) i x :
  Forall P l -> l !! i = Some x -> P x.
Proof.
  intros Hl. revert i. induction Hl as [|y l Hy Hl IH]; intros i; [discriminate|].
  destruct i as [|i]; cbn; [intros [= <-]; exact Hy|apply IH].
Qed.




(** ** Administrator accounts *)

Lemma validate_accountType body value :
  AdminUsers.validate body = inr value ->
  AdminUsers.accountType value <> Some User.admin.
Proof.
  unfold AdminUsers.validate, AdminUsers.validateAccountType.
  destruct (body !! "accountType") as [[| | |s| |]|]; try discriminate.
  - destruct (String.eqb s "individual");
      [|destruct (String.eqb s "charity"); [|discriminate]];
      destruct (AdminUsers.validateIsActive _); try discriminate;
      destruct (bool_decide _); try discriminate;
      intros [= <-]; discriminate.
  - destruct (AdminUsers.validateIsActive _); try discriminate.
    destruct (bool_decide _); try discriminate.
    intros [= <-]. discriminate.
Qed.

(** An assignment does not make an administrator. *)
Lemma assign_not_admin value user :
  AdminUsers.accountType value <> Some User.admin ->
  User.accountType user <> User.admin ->
  User.accountType (AdminUsers.assign value user) <> User.admin.
Proof.
  unfold AdminUsers.assign. intros Hv Hu.
  destruct (AdminUsers.accountType value) as [a|], (AdminUsers.isActive value);
    cbn; try assumption; congruence.
Qed.

Lemma AccountType_eqb_eq a b : User.AccountType_eqb a b = true <-> a = b.
Proof. destruct a, b; cbn; split; congruence. Qed.

Lemma lookup_middle_update {A} (before after : list A) (x x' : A) i y :
  (before ++ x' :: after) !! i = Some y ->
  (before ++ x :: after) !! i = Some y \/ y = x'.
Proof.
  revert i. induction before as [|b before IH]; intros [|i]; cbn.
  - intros [= <-]. right. reflexivity.
  - intros H. left. exact H.
  - intros H. left. exact H.
  - apply IH.
Qed.

(** The route PUT /users/:id on an administrator account. *)
Lemma updateUser_admin (w : World) (id : ObjectId) (body : gmap string JSON)
    (u : User.t) :
  findOne (byUserId id) (users w) = Some u ->
  User.accountType u = User.admin ->
  AdminUsers.updateUser id body w =
  (match AdminUsers.validate body with
   | inl e => AdminUsers.invalid e
   | inr _ => AdminUsers.cannotModify
   end, w).
Proof.
  intros Hfind Hadmin. unfold AdminUsers.updateUser.
  destruct (AdminUsers.validate body) as [e|value]; [reflexivity|].
  unfold bind, findUserById, bind, getWorld, ret.
  unfold byUserId in Hfind. rewrite Hfind, Hadmin. reflexivity.
Qed.

(** The route DELETE /users/:id on an administrator account. *)
Lemma deleteUser_admin (w : World) (id : ObjectId) (u : User.t) :
  findOne (byUserId id) (users w) = Some u ->
  User.accountType u = User.admin ->
  AdminUsers.deleteUser id w = (AdminUsers.cannotDelete, w).
Proof.
  intros Hfind Hadmin. unfold AdminUsers.deleteUser.
  unfold bind, findUserById, bind, getWorld, ret.
  unfold byUserId in Hfind. rewrite Hfind, Hadmin. reflexivity.
Qed.

(** No request to PUT /users/:id makes an administrator: an account that
    is an administrator afterwards was one before, unchanged. *)
Lemma updateUser_no_new_admin (w : World) (id : ObjectId)
    (body : gmap string JSON) (i : nat) (u' : User.t) :
  users (snd (AdminUsers.updateUser id body w)) !! i = Some u' ->
  User.accountType u' = User.admin ->
  users w !! i = Some u'.
Proof.
  unfold AdminUsers.updateUser.
  destruct (AdminUsers.validate body) as [e|value] eqn:Hvalid; [cbn; tauto|].
  unfold bind, findUserById, bind, getWorld, ret.
  destruct (findOne _ (users w)) as [user|] eqn:Hfind; [|cbn; tauto].
  destruct (User.AccountType_eqb (User.accountType user) User.admin) eqn:Hadm;
    [cbn; tauto|].
  assert (Hfind' : findOne (fun y => Nat.eqb (User._id y) (User._id user)) (users w)
                   = Some user).
  { clear -Hfind. unfold findOne in *.
    induction (users w) as [|y rest IH]; [discriminate|].
    cbn in *. destruct (Nat.eqb (User._id y) id) eqn:E.
    - injection Hfind as ->. rewrite Nat.eqb_refl. reflexivity.
    - destruct (Nat.eqb (User._id y) (User._id user)) eqn:E'; [|apply IH, Hfind].
      exfalso. apply Nat.eqb_eq in E'.
      apply find_some in Hfind as [_ Hid]. apply Nat.eqb_eq in Hid.
      rewrite E', Hid, Nat.eqb_refl in E. discriminate. }
  destruct (updateById_found User._id (User._id user) (AdminUsers.assign value)
              (users w) user Hfind')
    as (before & after & Hsplit & Hupd & _).
  unfold saveUser, bind, getWorld. rewrite Hupd. cbn.
  intros Hlook Hacc. rewrite Hsplit.
  destruct (lookup_middle_update before after user _ i u' Hlook) as [H| ->];
    [exact H|].
  exfalso. revert Hacc. apply assign_not_admin.
  - apply (validate_accountType body), Hvalid.
  - intros Heq. apply AccountType_eqb_eq in Heq. congruence.
Qed.

(** C9: through the user-management routes an administrator account
    cannot be modified: on such an account the update (of a body the
    schema accepts) and the deletion are answered with Forbidden (403)
    and leave the world, hence the account and the charities it owns,
    unchanged; and no update, of whatever account and with whatever body,
    makes an account an administrator, the schema accepting only
    individual and charity. *)
Theorem admin_accounts_immutable (w : World) (id : ObjectId)
    (body : gmap string JSON) (value : AdminUsers.Update) (u : User.t) :
  findOne (byUserId id) (users w) = Some u ->
  User.accountType u = User.admin ->
  AdminUsers.validate body = inr value ->
  AdminUsers.updateUser id body w = (AdminUsers.cannotModify, w) /\
  AdminUsers.deleteUser id w = (AdminUsers.cannotDelete, w) /\
  AdminUsers.accountType value <> Some User.admin /\
  (forall (w0 : World) (id0 : ObjectId) (body0 : gmap string JSON)
          (i : nat) (u' : User.t),
     users (snd (AdminUsers.updateUser id0 body0 w0)) !! i = Some u' ->
     User.accountType u' = User.admin ->
     users w0 !! i = Some u').
Proof.
  intros Hfind Hadmin Hvalid. repeat split.
  - rewrite (updateUser_admin w id body u Hfind Hadmin), Hvalid. reflexivity.
  - apply (deleteUser_admin w id u Hfind Hadmin).
  - apply (validate_accountType body), Hvalid.
  - apply updateUser_no_new_admin.
Qed.

Lemma admin_accounts_immutable_witness :
  AdminUsers.updateUser 0 Scenario.demote Sample.world = (AdminUsers.cannotModify, Sample.world) /\
  AdminUsers.deleteUser 0 Sample.world = (AdminUsers.cannotDelete, Sample.world) /\
  AdminUsers.accountType
    {| AdminUsers.accountType := Some User.charity;
       AdminUsers.isActive := Some false |} <> Some User.admin /\
  (forall (w0 : World) (id0 : ObjectId) (body0 : gmap string JSON)
          (i : nat) (u' : User.t),
     users (snd (AdminUsers.updateUser id0 body0 w0)) !! i = Some u' ->
     User.accountType u' = User.admin ->
     users w0 !! i = Some u').
Proof.
  apply (admin_accounts_immutable Sample.world 0 Scenario.demote _ Sample.root).
  - reflexivity.
  - reflexivity.
  - vm_compute. reflexivity.
Defined.

(** The same request on alice, who is no administrator, is carried out;
    asking for the account type admin is refused by the schema. *)
Lemma updateUser_examples :
  fst (AdminUsers.updateUser 1 Scenario.demote Sample.world) = AdminUsers.updated /\
  option_map User.accountType
    (findOne (byUserId 1) (users (snd (AdminUsers.updateUser 1 Scenario.demote Sample.world))))
  = Some User.charity /\
  AdminUsers.updateUser 1 {[ "accountType" := JStr "admin" ]} Sample.world
  = (AdminUsers.invalid any_only, Sample.world).
Proof. vm_compute. repeat split. Qed.

(** ** Field encryption *)

Section Codec.
Import Encoding EncryptionUtil.
Local Open Scope Z_scope.

Ltac zarith := Z.to_euclidean_division_equations; lia.

(** Decide the comparisons of the goal from the hypotheses. *)
Ltac decide_cmp :=
  repeat match goal with
  | |- context [ (?a <=? ?b) ] =>
      first [ replace (a <=? b) with true by (symmetry; apply Z.leb_le; zarith)
            | replace (a <=? b) with false by (symmetry; apply Z.leb_gt; zarith) ]
  | |- context [ (?a <? ?b) ] =>
      first [ replace (a <? b) with true by (symmetry; apply Z.ltb_lt; zarith)
            | replace (a <? b) with false by (symmetry; apply Z.ltb_ge; zarith) ]
  | |- context [ (?a =? ?b) ] =>
      first [ replace (a =? b) with true by (symmetry; apply Z.eqb_eq; zarith)
            | replace (a =? b) with false by (symmetry; apply Z.eqb_neq; zarith) ]
  end.

Lemma encodeCodePoint_bytes c :
  is_scalar c -> Forall is_byte (encodeCodePoint c).
Proof.
  unfold is_scalar, encodeCodePoint, is_byte. intros Hc.
  destruct (Z.ltb_spec c 0x80); [repeat constructor; lia|].
  destruct (Z.ltb_spec c 0x800); [repeat constructor; zarith|].
  destruct (Z.ltb_spec c 0x10000); repeat constructor; zarith.
Qed.

(** The decoder reads back the bytes of one code point, whatever follows. *)
Lemma decode_encodeCodePoint c rest :
  is_scalar c ->
  utf8DecodeFrom Idle (encodeCodePoint c ++ rest)
  = codePointToUnits c ++ utf8DecodeFrom Idle rest.
Proof.
  intros Hc. unfold is_scalar in Hc. unfold encodeCodePoint.
  destruct (Z.ltb_spec c 0x80).
  { cbn [app utf8DecodeFrom decodeByte].
    unfold decodeLead, codePointToUnits. decide_cmp. reflexivity. }
  destruct (Z.ltb_spec c 0x800).
  { cbn [app utf8DecodeFrom decodeByte].
    unfold decodeLead. decide_cmp. cbn [andb decodeByte app utf8DecodeFrom].
    decide_cmp. cbn [andb app]. unfold codePointToUnits. decide_cmp.
    cbn [app]. f_equal. zarith. }
  destruct (Z.ltb_spec c 0x10000).
  { cbn [app utf8DecodeFrom decodeByte].
    unfold decodeLead. decide_cmp. cbn [andb decodeByte app utf8DecodeFrom].
    destruct (Z.eqb_spec (224 + c / 4096) 224);
      destruct (Z.eqb_spec (224 + c / 4096) 237);
      decide_cmp; cbn [andb decodeByte app utf8DecodeFrom]; decide_cmp;
      cbn [andb app]; unfold codePointToUnits; decide_cmp; cbn [app];
      f_equal; zarith. }
  cbn [app utf8DecodeFrom decodeByte].
  unfold decodeLead. decide_cmp. cbn [andb decodeByte app utf8DecodeFrom].
  destruct (Z.eqb_spec (240 + c / 262144) 240);
    destruct (Z.eqb_spec (240 + c / 262144) 244);
    decide_cmp; cbn [andb decodeByte app utf8DecodeFrom]; decide_cmp;
    cbn [andb decodeByte app utf8DecodeFrom]; decide_cmp;
    cbn [andb app]; unfold codePointToUnits; decide_cmp; cbn [app].
  all: try (exfalso; lia).
  all: assert (Hcp : (((240 + c / 262144) mod 8 * 64
                        + (128 + (c / 4096) mod 64) mod 64) * 64
                       + (128 + (c / 64) mod 64) mod 64) * 64
                      + (128 + c mod 64) mod 64 = c) by zarith;
       rewrite Hcp; reflexivity.
Qed.

(** On a well-formed string the ['utf8'] encoding writes bytes, and the
    decoding reads the string back. *)
Lemma utf8_round_trip_bounded (n : nat) (s : jsstring) :
  (length s <= n)%nat ->
  isWellFormed s = true ->
  Forall is_byte (utf8Write s) /\ utf8Slice (utf8Write s) = s.
Proof.
  unfold utf8Slice. revert s.
  induction n as [|n IH]; intros [|u t] Hlen Hwf;
    try (split; [constructor|reflexivity]); [cbn in Hlen; lia|].
  cbn [isWellFormed utf8Write] in *.
  destruct (isHighSurrogate u) eqn:Hhigh.
  - destruct t as [|v t']; [discriminate|].
    apply andb_true_iff in Hwf as [Hlow Hwf]. rewrite Hlow.
    destruct (IH t') as [IHb IHs]; [cbn in Hlen; lia|exact Hwf|].
    unfold isHighSurrogate in Hhigh. unfold isLowSurrogate in Hlow.
    apply andb_true_iff in Hhigh as [H1 H2]. apply andb_true_iff in Hlow as [H3 H4].
    apply Z.leb_le in H1, H2, H3, H4.
    assert (Hs : is_scalar (0x10000 + (u - 0xD800) * 1024 + (v - 0xDC00)))
      by (unfold is_scalar; lia).
    split.
    + apply Forall_app. split; [apply encodeCodePoint_bytes, Hs|exact IHb].
    + rewrite (decode_encodeCodePoint _ _ Hs), IHs.
      unfold codePointToUnits. decide_cmp. cbn [app]. f_equal; [zarith|].
      f_equal. zarith.
  - apply andb_true_iff in Hwf as [Hwf Hrest].
    apply andb_true_iff in Hwf as [Hwf Hlt].
    apply andb_true_iff in Hwf as [Hlow Hge].
    apply negb_true_iff in Hlow. rewrite Hlow.
    destruct (IH t) as [IHb IHs]; [cbn in Hlen; lia|exact Hrest|].
    apply Z.leb_le in Hge. apply Z.ltb_lt in Hlt.
    assert (Hs : is_scalar u).
    { unfold is_scalar, isHighSurrogate, isLowSurrogate in *.
      destruct (Z.leb_spec 0xD800 u), (Z.leb_spec u 0xDBFF),
        (Z.leb_spec 0xDC00 u), (Z.leb_spec u 0xDFFF); cbn in *;
        try discriminate; lia. }
    split.
    + apply Forall_app. split; [apply encodeCodePoint_bytes, Hs|exact IHb].
    + rewrite (decode_encodeCodePoint _ _ Hs), IHs.
      unfold codePointToUnits. decide_cmp. reflexivity.
Qed.

Lemma utf8_round_trip (s : jsstring) :
  isWellFormed s = true ->
  Forall is_byte (utf8Write s) /\ utf8Slice (utf8Write s) = s.
Proof. apply (utf8_round_trip_bounded (length s)). reflexivity. Qed.

Lemma unhex_hexDigit n : 0 <= n < 16 -> unhex (hexDigit n) = Some n.
Proof.
  intros Hn.
  assert (H : exists k : nat, (k < 16)%nat /\ n = Z.of_nat k)
    by (exists (Z.to_nat n); lia).
  destruct H as (k & Hk & ->).
  do 16 (destruct k as [|k]; [reflexivity|]). lia.
Qed.

Lemma hexDecode_hexSlice bs : Forall is_byte bs -> hexDecode (hexSlice bs) = bs.
Proof.
  induction 1 as [|b bs Hb _ IH]; [reflexivity|].
  unfold is_byte in Hb. cbn [hexSlice flat_map app hexDecode].
  rewrite !unhex_hexDigit by zarith.
  fold (hexSlice bs). rewrite IH. f_equal. zarith.
Qed.

Lemma hexSlice_even bs : Nat.odd (length (hexSlice bs)) = false.
Proof.
  induction bs as [|b bs IH]; [reflexivity|].
  cbn [hexSlice flat_map app length]. fold (hexSlice bs).
  rewrite Nat.odd_succ, Nat.even_succ. exact IH.
Qed.

(** The ['hex'] decoding reads back what the encoding wrote. *)
Lemma hex_round_trip bs : Forall is_byte bs -> hexWrite (hexSlice bs) = Some bs.
Proof.
  intros Hb. unfold hexWrite. rewrite hexSlice_even, (hexDecode_hexSlice bs Hb).
  reflexivity.
Qed.

Lemma hexSlice_truthy bs : bs <> [] -> truthy (Str (hexSlice bs)) = true.
Proof. destruct bs; [congruence|reflexivity]. Qed.

(** An unpaired surrogate and U+FFFD are written as the same bytes. *)
Lemma simpleEncrypt_lone_surrogate (K : Crypto) :
  simpleEncrypt K (Str [0xD800]) = simpleEncrypt K (Str [REPLACEMENT]).
Proof. reflexivity. Qed.

End Codec.

Import Encoding EncryptionUtil.

(** C5, as the code behaves: for every non-empty plaintext made of
    well-formed UTF-16 (code units in range, no unpaired surrogate),
    decryption is the inverse of encryption, the cipher being one that
    the decipher inverts.  The plaintext has no delimiter to trip on: the
    stored value is the hexadecimal form of the cipher text alone. *)
Theorem simpleDecrypt_simpleEncrypt (K : Crypto) (s : jsstring) :
  CryptoSpec K ->
  s <> [] ->
  isWellFormed s = true ->
  simpleDecrypt K (simpleEncrypt K (Str s)) = Str s.
Proof.
  intros HK Hne Hwf.
  destruct (utf8_round_trip s Hwf) as [Hbytes Hback].
  unfold simpleEncrypt.
  destruct s as [|u t]; [congruence|]. cbn [truthy negb].
  unfold simpleDecrypt.
  rewrite (hexSlice_truthy _ (cipher_nonempty K HK _)). cbn [negb].
  rewrite (hex_round_trip _ (cipher_is_bytes K HK _ Hbytes)).
  rewrite (decipher_cipher K HK _ Hbytes), Hback. reflexivity.
Qed.

Lemma SampleCrypto_spec : CryptoSpec SampleCrypto.crypto.
Proof.
  split; cbn.
  - intros bs Hbs. constructor; [unfold is_byte; lia|].
    unfold SampleCrypto.shift. induction Hbs as [|b bs Hb _ IH]; constructor.
    + unfold is_byte in *. Z.to_euclidean_division_equations; lia.
    + exact IH.
  - discriminate.
  - intros bs Hbs. f_equal. unfold SampleCrypto.shift.
    induction Hbs as [|b bs Hb _ IH]; [reflexivity|].
    cbn. rewrite IH. f_equal. unfold is_byte in Hb.
    Z.to_euclidean_division_equations; lia.
Qed.

Lemma simpleDecrypt_simpleEncrypt_witness :
  simpleDecrypt SampleCrypto.crypto
    (simpleEncrypt SampleCrypto.crypto (Str Scenario.plaintext))
  = Str Scenario.plaintext.
Proof.
  apply (simpleDecrypt_simpleEncrypt SampleCrypto.crypto Scenario.plaintext).
  - exact SampleCrypto_spec.
  - discriminate.
  - reflexivity.
Defined.

(** C5, as stated, fails: the one-unit string made of the unpaired
    surrogate U+D800 is not empty; it is encrypted as U+FFFD is, whatever
    the cipher, and decrypted as U+FFFD. *)
Lemma simpleDecrypt_simpleEncrypt_lone_surrogate :
  (forall K : Crypto,
     simpleEncrypt K (Str [0xD800%Z]) = simpleEncrypt K (Str [0xFFFD%Z])) /\
  simpleDecrypt SampleCrypto.crypto
    (simpleEncrypt SampleCrypto.crypto (Str [0xD800%Z])) = Str [0xFFFD%Z] /\
  simpleDecrypt SampleCrypto.crypto
    (simpleEncrypt SampleCrypto.crypto (Str [0xD800%Z])) <> Str [0xD800%Z].
Proof.
  split; [intros K; reflexivity|].
  split; [vm_compute; reflexivity|].
  vm_compute. discriminate.
Qed.

(** ** Records with unreadable fields *)

Lemma simpleDecrypt_throws (K : Crypto) (s : jsstring) :
  decipherThrows K s = true -> simpleDecrypt K (Str s) = Null.
Proof.
  unfold decipherThrows, simpleDecrypt.
  destruct (truthy (Str s)); [|reflexivity]. cbn [negb].
  destruct (hexWrite s) as [bs|]; [|reflexivity].
  destruct (decipherBytes K bs); [discriminate|reflexivity].
Qed.

(** A text of odd length is no hexadecimal text. *)
Lemma simpleDecrypt_odd_length (K : Crypto) (s : jsstring) :
  Nat.odd (length s) = true -> simpleDecrypt K (Str s) = Null.
Proof.
  intros Hodd. apply simpleDecrypt_throws.
  unfold decipherThrows, hexWrite. rewrite Hodd. reflexivity.
Qed.

Lemma simpleDecrypt_reads (K : Crypto) (s : jsstring) :
  decipherThrows K s = false ->
  s <> [] ->
  exists plain, simpleDecrypt K (Str s) = Str plain.
Proof.
  unfold decipherThrows, simpleDecrypt. intros H Hne.
  destruct s as [|u t]; [congruence|]. cbn [truthy negb].
  destruct (hexWrite (u :: t)) as [bs|]; [|discriminate].
  destruct (decipherBytes K bs) as [plain|]; [|discriminate].
  exists (utf8Slice plain). reflexivity.
Qed.

Lemma shows_decryptIfSet K v : shows K v (Charity.decryptIfSet K v).
Proof.
  unfold shows, Charity.decryptIfSet.
  destruct (truthy v); [reflexivity|left; reflexivity].
Qed.

Lemma shows_simpleDecrypt K v : shows K v (simpleDecrypt K v).
Proof.
  unfold shows. destruct (truthy v) eqn:Hv; [reflexivity|].
  right. unfold simpleDecrypt. rewrite Hv. reflexivity.
Qed.

Lemma shows_map_simpleDecrypt K (l : list JsVal) :
  Forall2 (shows K) l (map (simpleDecrypt K) l).
Proof. induction l; constructor; [apply shows_simpleDecrypt|assumption]. Qed.

Lemma shows_address K a :
  Forall2 (shows K) (Charity.addressFields a)
          (Charity.addressFields (Charity.decryptAddress K a)).
Proof. repeat constructor; apply shows_decryptIfSet. Qed.

Lemma shows_optFields {A} K (fields : A -> list JsVal) (f : A -> A) (o : option A) :
  (forall x, Forall2 (shows K) (fields x) (fields (f x))) ->
  Forall2 (shows K) (Charity.optFields fields o)
          (Charity.optFields fields (option_map f o)).
Proof. intros H. destruct o; [apply H|constructor]. Qed.

Lemma shows_programs K (ps : list Charity.Program.t) :
  Forall2 (shows K) (flat_map Charity.programFields ps)
          (flat_map Charity.programFields (map (Charity.decryptProgram K) ps)).
Proof.
  induction ps as [|p ps IH]; [constructor|].
  cbn [map flat_map]. apply Forall2_app; [|exact IH].
  repeat constructor; apply shows_decryptIfSet.
Qed.

Lemma shows_customFields K (kvs : list (string * JsVal)) :
  Forall2 (shows K) (map snd kvs)
          (map snd (map (fun kv => (fst kv, simpleDecrypt K (snd kv))) kvs)).
Proof.
  induction kvs as [|kv kvs IH]; constructor;
    [apply shows_simpleDecrypt|exact IH].
Qed.

(** Every encrypted field of a record is shown on its own. *)
Lemma getDecryptedData_shows (K : Crypto) (charity : Charity.t) :
  Forall2 (shows K) (Charity.encryptedFields charity)
          (Charity.encryptedFields (Charity.getDecryptedData K charity)).
Proof.
  unfold Charity.encryptedFields, Charity.getDecryptedData.
  cbn [Charity.basicInfo Charity.legalInfo Charity.contactInfo
       Charity.financialInfo Charity.programs Charity.customFields].
  repeat apply Forall2_app.
  - apply shows_optFields. intros b.
    repeat constructor; apply shows_decryptIfSet.
  - apply shows_optFields. intros l.
    unfold Charity.legalInfoFields, Charity.decryptLegalInfo.
    cbn [Charity.LegalInfo.registrationNumber Charity.LegalInfo.taxId
         Charity.LegalInfo.legalStructure Charity.LegalInfo.registeredAddress].
    apply Forall2_app; [repeat constructor; apply shows_decryptIfSet|].
    apply shows_optFields, shows_address.
  - apply shows_optFields. intros c.
    unfold Charity.contactInfoFields, Charity.decryptContactInfo.
    cbn [Charity.ContactInfo.primaryContact Charity.ContactInfo.mailingAddress].
    apply Forall2_app.
    + apply shows_optFields. intros p.
      repeat constructor; apply shows_decryptIfSet.
    + apply shows_optFields, shows_address.
  - apply shows_optFields. intros f.
    unfold Charity.financialInfoFields, Charity.decryptFinancialInfo.
    cbn [Charity.FinancialInfo.annualBudget Charity.FinancialInfo.fundingSources
         Charity.FinancialInfo.bankingInfo].
    repeat apply Forall2_app.
    + repeat constructor; apply shows_decryptIfSet.
    + destruct (Charity.FinancialInfo.fundingSources f) as [l|];
        [apply shows_map_simpleDecrypt|constructor].
    + apply shows_optFields. intros b.
      repeat constructor; apply shows_decryptIfSet.
  - destruct (Charity.programs charity) as [ps|];
      [apply shows_programs|constructor].
  - destruct (Charity.customFields charity) as [kvs|];
      [apply shows_customFields|constructor].
Qed.


Lemma unhex_not_digit (u : Z) : isHexDigit (Z.land u 255) = false -> unhex u = None.
Proof.
  unfold isHexDigit, unhex. cbv zeta.
  destruct ((48 <=? Z.land u 255) && (Z.land u 255 <=? 57))%Z; [discriminate|].
  destruct ((97 <=? Z.land u 255) && (Z.land u 255 <=? 102))%Z; [discriminate|].
  destruct ((65 <=? Z.land u 255) && (Z.land u 255 <=? 70))%Z; [discriminate|].
  reflexivity.
Qed.

(** The decoder reads nothing of a text that does not begin with two
    digits. *)
Lemma hexDecode_no_pair (blob : jsstring) :
  beginsWithHexPair blob = false -> hexDecode blob = [].
Proof.
  destruct blob as [|a [|b t]]; try reflexivity.
  cbn [beginsWithHexPair hexDecode]. intros H.
  apply andb_false_iff in H as [H | H]; rewrite (unhex_not_digit _ H).
  - reflexivity.
  - destruct (unhex a); reflexivity.
Qed.

(** The decoder stops at the first pair that is no pair of digits: what
    follows the cipher text is not read. *)
Lemma hexDecode_hexSlice_app (bs : bytes) (rest : jsstring) :
  Forall is_byte bs -> beginsWithHexPair rest = false ->
  hexDecode (hexSlice bs ++ rest) = bs.
Proof.
  intros Hbs Hrest. induction Hbs as [|b bs Hb _ IH].
  - apply hexDecode_no_pair, Hrest.
  - unfold is_byte in Hb.
    change (hexSlice (b :: bs))
      with ([hexDigit (b / 16); hexDigit (b mod 16)] ++ hexSlice bs).
    rewrite <- app_assoc. cbn [app hexDecode].
    rewrite !unhex_hexDigit by (Z.to_euclidean_division_equations; lia).
    rewrite IH. f_equal. Z.to_euclidean_division_equations; lia.
Qed.

Lemma simpleDecrypt_no_pair (K : Crypto) (blob : jsstring) :
  decipherBytes K [] = None ->
  beginsWithHexPair blob = false -> simpleDecrypt K (Str blob) = Null.
Proof.
  intros Hempty Hpair. apply simpleDecrypt_throws.
  unfold decipherThrows, hexWrite.
  destruct (Nat.odd (length blob)); [reflexivity|].
  rewrite (hexDecode_no_pair blob Hpair), Hempty. reflexivity.
Qed.

(** A blob made under a key [K'], read under [K]: the answer is what the
    decipher of [K] makes of the cipher text of [K']. *)
Lemma simpleDecrypt_foreign (K K' : Crypto) (s : jsstring) :
  CryptoSpec K' -> s <> [] -> isWellFormed s = true ->
  simpleDecrypt K (Str (blobOf K' s)) =
  match decipherBytes K (cipherBytes K' (utf8Write s)) with
  | Some plain => Str (utf8Slice plain)
  | None => Null
  end.
Proof.
  intros HK' Hne Hwf. destruct (utf8_round_trip s Hwf) as [Hbytes _].
  unfold simpleDecrypt, blobOf.
  rewrite (hexSlice_truthy _ (cipher_nonempty K' HK' _)). cbn [negb].
  rewrite (hex_round_trip _ (cipher_is_bytes K' HK' _ Hbytes)). reflexivity.
Qed.

(** A blob followed by an even number of characters that do not begin
    with two digits is read as the blob alone. *)
Lemma simpleDecrypt_trailing (K : Crypto) (s rest : jsstring) :
  CryptoSpec K -> s <> [] -> isWellFormed s = true ->
  Nat.odd (length rest) = false -> beginsWithHexPair rest = false ->
  simpleDecrypt K (Str (blobOf K s ++ rest)) = Str s.
Proof.
  intros HK Hne Hwf Heven Hrest.
  destruct (utf8_round_trip s Hwf) as [Hbytes Hback].
  pose proof (cipher_is_bytes K HK _ Hbytes) as Hcipher.
  pose proof (cipher_nonempty K HK (utf8Write s)) as Hsome.
  unfold simpleDecrypt, blobOf.
  assert (Ht : truthy (Str (hexSlice (cipherBytes K (utf8Write s)) ++ rest)) = true).
  { pose proof (hexSlice_truthy _ Hsome) as Ht.
    destruct (hexSlice (cipherBytes K (utf8Write s))); [discriminate|reflexivity]. }
  rewrite Ht. cbn [negb]. unfold hexWrite.
  assert (Hodd : Nat.odd (length (hexSlice (cipherBytes K (utf8Write s)) ++ rest))
                 = false).
  { rewrite length_app, Nat.odd_add, hexSlice_even, Heven. reflexivity. }
  rewrite Hodd, (hexDecode_hexSlice_app _ rest Hcipher Hrest).
  rewrite (decipher_cipher K HK _ Hbytes), Hback. reflexivity.
Qed.




(** The sample charity: the name, which is no cipher text, is shown as
    [null]; the description is shown in plain text. *)
Lemma getDecryptedData_example :
  option_map (fun b => (Charity.BasicInfo.name b, Charity.BasicInfo.description b))
    (Charity.basicInfo (Charity.getDecryptedData SampleCrypto.crypto Scenario.charity))
  = Some (Null, Str Scenario.hi).
Proof. vm_compute. reflexivity. Qed.

(** * Part III: more properties of the code *)

(** ** Redemption, one request at a time *)

(** The second step of the handler on a code that is not valid on the
    first reading of the clock: the reason is read off a second reading
    and nothing is written. *)
Lemma step_found_refused (w : World) (u : User.t) (c : CharityCode.t) :
  CharityCode.isValidForUse (clock w (reads w)) c = false ->
  VerifyCharityCode.step u (VerifyCharityCode.Found (Some c)) w =
  (VerifyCharityCode.Done
     (VerifyCharityCode.notValid (VerifyCharityCode.reason (clock w (S (reads w))) c)),
   setCodes (charityCodes w) (S (S (reads w))) w).
Proof.
  intros Hinv. unfold VerifyCharityCode.step, bind, newDate.
  rewrite Hinv. reflexivity.
Qed.

Lemma handler_refused (w : World) (u : User.t) (c : CharityCode.t) (raw code : string) :
  validateCodeString raw = inr code ->
  User.canCreateCharity (User.charityAuthorization u) = false ->
  findOne (VerifyCharityCode.byCodeActive code) (charityCodes w) = Some c ->
  CharityCode.isValidForUse (clock w (reads w)) c = false ->
  VerifyCharityCode.handler u raw w =
  (VerifyCharityCode.Done
     (VerifyCharityCode.notValid (VerifyCharityCode.reason (clock w (S (reads w))) c)),
   setCodes (charityCodes w) (S (S (reads w))) w).
Proof.
  intros Hv Hg Hc Hinv.
  rewrite handler_unfold, (step_start_lookup w u raw code Hv Hg), Hc.
  rewrite (step_found_refused w u c Hinv). reflexivity.
Qed.

(** X1: a code whose expiry has passed is never redeemed: the request of
    an identity without grant is answered with Expired, also when the
    code has been used, and the collections are left unchanged. *)
Theorem redeem_expired (w : World) (u : User.t) (c : CharityCode.t) (raw code : string) :
  validateCodeString raw = inr code ->
  User.canCreateCharity (User.charityAuthorization u) = false ->
  findOne (VerifyCharityCode.byCodeActive code) (charityCodes w) = Some c ->
  (CharityCode.expiresAt c <= clock w (reads w))%Z ->
  (CharityCode.expiresAt c <= clock w (S (reads w)))%Z ->
  fst (VerifyCharityCode.handler u raw w) = VerifyCharityCode.Done Expired /\
  charityCodes (snd (VerifyCharityCode.handler u raw w)) = charityCodes w /\
  users (snd (VerifyCharityCode.handler u raw w)) = users w.
Proof.
  intros Hv Hg Hc Ht0 Ht1.
  rewrite (handler_refused w u c raw code Hv Hg Hc).
  - cbn [fst snd]. repeat split.
    unfold Expired, VerifyCharityCode.reason.
    apply Z.geb_le in Ht1. rewrite Ht1. reflexivity.
  - unfold CharityCode.isValidForUse.
    apply Z.ltb_ge in Ht0. rewrite Ht0, andb_false_r. reflexivity.
Qed.

Lemma redeem_expired_witness :
  fst (VerifyCharityCode.handler Sample.alice "WXYZ5678" Scenario2.late)
  = VerifyCharityCode.Done Expired /\
  charityCodes (snd (VerifyCharityCode.handler Sample.alice "WXYZ5678" Scenario2.late))
  = charityCodes Scenario2.late /\
  users (snd (VerifyCharityCode.handler Sample.alice "WXYZ5678" Scenario2.late))
  = users Scenario2.late.
Proof.
  apply (redeem_expired Scenario2.late Sample.alice Sample.code11
           "WXYZ5678" "WXYZ5678");
    try reflexivity; cbn; lia.
Defined.

Lemma usedUp_updateById (X : string) (id userId : ObjectId) (now : Date)
    (codes codes' : list CharityCode.t) :
  usedUp X codes = true ->
  updateById CharityCode._id id (CharityCode.markUsed userId now) codes = Some codes' ->
  usedUp X codes' = true.
Proof.
  revert codes'. induction codes as [|d rest IH]; intros codes' Hused; [discriminate|].
  cbn [usedUp forallb] in Hused. apply andb_true_iff in Hused as [Hd Hrest].
  cbn [updateById]. destruct (Nat.eqb (CharityCode._id d) id).
  - intros [= <-]. cbn [usedUp forallb CharityCode.markUsed CharityCode.isUsed].
    rewrite orb_true_r. exact Hrest.
  - destruct (updateById CharityCode._id id (CharityCode.markUsed userId now) rest)
      as [rest'|]; [|discriminate].
    intros [= <-]. cbn [usedUp forallb]. rewrite Hd. apply (IH rest' Hrest eq_refl).
Qed.

(** No step of a redemption makes a used document unused. *)
Lemma step_usedUp (X : string) (u : User.t) (pc : VerifyCharityCode.Pc) (w : World) :
  usedUp X (charityCodes w) = true ->
  usedUp X (charityCodes (snd (VerifyCharityCode.step u pc w))) = true.
Proof.
  intros Hused. destruct pc as [raw|[c|]|c|c [usr|]|res]; cbn [VerifyCharityCode.step].
  - destruct (validateCodeString raw); [exact Hused|].
    destruct (User.canCreateCharity (User.charityAuthorization u)); exact Hused.
  - unfold useCode, saveCharityCode, bind, newDate, getWorld, ret, putCharityCodes.
    cbn [fst snd charityCodes clock reads].
    destruct (CharityCode.isValidForUse (clock w (reads w)) c); cbn [negb];
      [|exact Hused].
    cbn [fst snd charityCodes clock reads].
    destruct (CharityCode.isValidForUse (clock w (S (reads w))) c); cbn [negb];
      [|exact Hused].
    cbn [fst snd charityCodes clock reads].
    destruct (updateById CharityCode._id (CharityCode._id c)
                (CharityCode.markUsed (User._id u) (clock w (S (S (reads w)))))
                (charityCodes w)) as [codes'|] eqn:Hupd; cbn [fst snd charityCodes].
    + apply (usedUp_updateById X _ _ _ _ _ Hused Hupd).
    + exact Hused.
  - exact Hused.
  - exact Hused.
  - unfold VerifyCharityCode.attach, saveUser, bind, newDate, getWorld, ret, putUsers.
    cbn [fst snd users].
    destruct (updateById User._id (User._id usr) _ (users w)); exact Hused.
  - exact Hused.
  - exact Hused.
Qed.

(** A request that presented a used-up code goes on refusing. *)
Lemma step_refusing (X raw : string) (u : User.t) (pc : VerifyCharityCode.Pc)
    (w : World) :
  presents X raw = true ->
  usedUp X (charityCodes w) = true ->
  refusing raw pc ->
  refusing raw (fst (VerifyCharityCode.step u pc w)).
Proof.
  intros Hraw Hused Hpc.
  destruct pc as [raw'|[c|]|c|c usr|res]; cbn [refusing] in Hpc; try contradiction.
  - subst raw'. cbn [VerifyCharityCode.step]. unfold presents in Hraw.
    destruct (validateCodeString raw) as [e|code]; [discriminate|].
    apply String.eqb_eq in Hraw.
    destruct (User.canCreateCharity (User.charityAuthorization u));
      [cbn; discriminate|].
    unfold findCharityCode, bind, getWorld, ret. cbn [fst snd refusing].
    destruct (findOne (VerifyCharityCode.byCodeActive code) (charityCodes w))
      as [d|] eqn:Hd; [|exact I].
    pose proof (findOne_holds _ _ _ Hd) as Hq.
    apply find_some in Hd as [Hin _].
    unfold VerifyCharityCode.byCodeActive in Hq.
    apply andb_true_iff in Hq as [Hq _].
    unfold usedUp in Hused. rewrite forallb_forall in Hused.
    specialize (Hused d Hin). rewrite Hraw in Hq. rewrite Hq in Hused.
    exact Hused.
  - cbn [VerifyCharityCode.step]. unfold bind, newDate, ret.
    unfold CharityCode.isValidForUse. rewrite Hpc, andb_false_r.
    cbn. discriminate.
  - cbn. discriminate.
  - cbn. exact Hpc.
Qed.

Lemma interleave_refusing (X : string) (reqs0 : list VerifyCharityCode.Request)
    (schedule : list nat) :
  forall (now : list VerifyCharityCode.Request) (w : World),
    allRefusing X reqs0 now ->
    usedUp X (charityCodes w) = true ->
    usedUp X (charityCodes (snd (VerifyCharityCode.interleave schedule now w))) = true /\
    allRefusing X reqs0 (fst (VerifyCharityCode.interleave schedule now w)).
Proof.
  induction schedule as [|j rest IH]; intros now w Hinv Hused.
  - split; [exact Hused|exact Hinv].
  - destruct (now !! j) as [rj|] eqn:Hj.
    2: { cbn [VerifyCharityCode.interleave]. rewrite Hj. apply IH; assumption. }
    destruct (VerifyCharityCode.step (VerifyCharityCode.reqUser rj)
                (VerifyCharityCode.pc rj) w) as [pc' w'] eqn:Hstep.
    assert (Heq : VerifyCharityCode.interleave (j :: rest) now w =
                  VerifyCharityCode.interleave rest
                    (<[j := {| VerifyCharityCode.reqUser := VerifyCharityCode.reqUser rj;
                               VerifyCharityCode.pc := pc' |}]> now) w').
    { cbn [VerifyCharityCode.interleave]. rewrite Hj.
      unfold VerifyCharityCode.advance, bind, ret. cbv beta. rewrite Hstep. reflexivity. }
    rewrite Heq. apply IH.
    + intros i r raw r' Hr Hpc Hraw Hr'.
      destruct (decide (j = i)) as [-> | Hne].
      * rewrite list_lookup_insert_eq in Hr' by (eapply lookup_lt_Some; exact Hj).
        injection Hr' as <-. cbn [VerifyCharityCode.pc].
        replace pc' with (fst (VerifyCharityCode.step (VerifyCharityCode.reqUser rj)
                                 (VerifyCharityCode.pc rj) w))
          by (rewrite Hstep; reflexivity).
        apply (step_refusing X); [exact Hraw|exact Hused|].
        apply (Hinv i r raw rj Hr Hpc Hraw Hj).
      * rewrite list_lookup_insert_ne in Hr' by exact Hne.
        apply (Hinv i r raw r' Hr Hpc Hraw Hr').
    + replace w' with (snd (VerifyCharityCode.step (VerifyCharityCode.reqUser rj)
                              (VerifyCharityCode.pc rj) w))
        by (rewrite Hstep; reflexivity).
      apply step_usedUp, Hused.
Qed.

(** X2: a code that is used up is never redeemed again.  Once every
    stored document that carries a code is used, no redemption request
    that begins afterwards and presents that code is answered with
    success, whoever sends it and however the requests interleave; and the
    documents that carry the code stay used. *)
Theorem used_code_never_redeemed_again (X : string) (schedule : list nat)
    (reqs : list VerifyCharityCode.Request) (w : World) :
  usedUp X (charityCodes w) = true ->
  let result := VerifyCharityCode.interleave schedule reqs w in
  usedUp X (charityCodes (snd result)) = true /\
  forall i r raw r',
    reqs !! i = Some r ->
    VerifyCharityCode.pc r = VerifyCharityCode.Start raw ->
    presents X raw = true ->
    fst result !! i = Some r' ->
    VerifyCharityCode.response r' <> Some Success.
Proof.
  intros Hused result. subst result.
  destruct (interleave_refusing X reqs schedule reqs w) as [Hused' Hreqs].
  { intros i r raw r' Hr Hpc _ Hr'. rewrite Hr in Hr'. injection Hr' as <-.
    rewrite Hpc. reflexivity. }
  { exact Hused. }
  split; [exact Hused'|].
  intros i r raw r' Hr Hpc Hraw Hr'.
  specialize (Hreqs i r raw r' Hr Hpc Hraw Hr').
  unfold VerifyCharityCode.response.
  destruct (VerifyCharityCode.pc r'); try discriminate.
  cbn [refusing] in Hreqs. unfold Success. congruence.
Qed.

Lemma used_code_never_redeemed_again_witness :
  let result :=
    VerifyCharityCode.interleave [0; 1; 0; 1; 0; 1; 0; 1] Scenario2.replay
      Sample.world in
  usedUp "WXYZ5678" (charityCodes (snd result)) = true /\
  forall i r raw r',
    Scenario2.replay !! i = Some r ->
    VerifyCharityCode.pc r = VerifyCharityCode.Start raw ->
    presents "WXYZ5678" raw = true ->
    fst result !! i = Some r' ->
    VerifyCharityCode.response r' <> Some Success.
Proof.
  apply (used_code_never_redeemed_again "WXYZ5678" [0; 1; 0; 1; 0; 1; 0; 1]
           Scenario2.replay Sample.world).
  reflexivity.
Defined.

(** X3: the effect of a successful redemption.  A stored code that is
    active, unused and not expired, presented by a stored identity
    without grant, is answered with success; exactly that code is
    rewritten, as used by the identity, and exactly that identity, with a
    grant naming the code, after which [canCreateCharity] lets the
    identity through. *)
Theorem redeem_success (w : World) (u stored : User.t) (c : CharityCode.t)
    (raw code : string) :
  validateCodeString raw = inr code ->
  User.canCreateCharity (User.charityAuthorization u) = false ->
  findOne (VerifyCharityCode.byCodeActive code) (charityCodes w) = Some c ->
  findOne (fun d => Nat.eqb (CharityCode._id d) (CharityCode._id c)) (charityCodes w)
  = Some c ->
  CharityCode.isUsed c = false ->
  (clock w (reads w) < CharityCode.expiresAt c)%Z ->
  (clock w (S (reads w)) < CharityCode.expiresAt c)%Z ->
  findOne (byUserId (User._id u)) (users w) = Some stored ->
  let usedAt := clock w (S (S (reads w))) in
  let used := CharityCode.markUsed (User._id u) usedAt c in
  let granted :=
    User.set_charityAuthorization
      (VerifyCharityCode.authorization used (clock w (S (S (S (reads w)))))) stored in
  exists cb ca ub ua,
    charityCodes w = cb ++ c :: ca /\
    users w = ub ++ stored :: ua /\
    VerifyCharityCode.handler u raw w =
    (VerifyCharityCode.Done Success,
     setUsers (ub ++ granted :: ua) (S (S (S (S (reads w)))))
       (setCodes (cb ++ used :: ca) (S (S (S (reads w)))) w)) /\
    Middleware.canCreateCharity granted = Middleware.Next tt.
Proof.
  intros Hv Hg Hc Hcid Hunused Ht0 Ht1 Hst usedAt used granted.
  assert (Hact : CharityCode.isActive c = true).
  { apply findOne_holds in Hc. unfold VerifyCharityCode.byCodeActive in Hc.
    apply andb_true_iff in Hc as [_ Hc].
    destruct (CharityCode.isActive c); [reflexivity|discriminate]. }
  destruct (updateById_found CharityCode._id (CharityCode._id c) id (charityCodes w) c Hcid)
    as (cb & ca & Hcsplit & _ & Hcbefore).
  assert (Hsid : User._id stored = User._id u).
  { apply findOne_holds in Hst. apply Nat.eqb_eq in Hst. exact Hst. }
  unfold byUserId in Hst.
  assert (Hst' : findOne (fun y => Nat.eqb (User._id y) (User._id stored)) (users w)
                 = Some stored) by (rewrite Hsid; exact Hst).
  destruct (updateById_found User._id (User._id stored) id (users w) stored Hst')
    as (ub & ua & Husplit & _ & Hubefore).
  exists cb, ca, ub, ua. split; [exact Hcsplit|]. split; [exact Husplit|]. split.
  - rewrite handler_unfold, (step_start_lookup w u raw code Hv Hg), Hc.
    rewrite (step_found_valid w u c cb c ca Hcsplit Hcbefore eq_refl Hact Hunused Ht0 Ht1).
    cbn [VerifyCharityCode.step]. unfold bind at 1. unfold findUserById at 1.
    unfold bind at 1. unfold getWorld at 1. cbn [ret users setCodes].
    rewrite Hst.
    erewrite (step_loaded _ u _ stored ub stored ua); cycle 1.
    { exact Husplit. }
    { exact Hubefore. }
    { reflexivity. }
    reflexivity.
  - unfold Middleware.canCreateCharity. cbn.
    destruct (User.AccountType_eqb (User.accountType stored) User.admin); reflexivity.
Qed.

Lemma redeem_success_witness :
  exists cb ca ub ua,
    charityCodes Sample.world = cb ++ Sample.code10 :: ca /\
    users Sample.world = ub ++ Sample.alice :: ua /\
    VerifyCharityCode.handler Sample.alice "abcd1234" Sample.world =
    (VerifyCharityCode.Done Success,
     setUsers
       (ub ++ User.set_charityAuthorization
                (VerifyCharityCode.authorization
                   (CharityCode.markUsed 1 1002%Z Sample.code10) 1003%Z)
                Sample.alice :: ua) 4
       (setCodes (cb ++ CharityCode.markUsed 1 1002%Z Sample.code10 :: ca) 3
          Sample.world)) /\
    Middleware.canCreateCharity
      (User.set_charityAuthorization
         (VerifyCharityCode.authorization
            (CharityCode.markUsed 1 1002%Z Sample.code10) 1003%Z) Sample.alice)
    = Middleware.Next tt.
Proof.
  apply (redeem_success Sample.world Sample.alice Sample.alice Sample.code10
           "abcd1234" "ABCD1234"); reflexivity.
Defined.

(** The second step of the handler leaves the users as they are. *)
Lemma step_found_users (w : World) (u : User.t) (found : option CharityCode.t) :
  users (snd (VerifyCharityCode.step u (VerifyCharityCode.Found found) w)) = users w.
Proof.
  unfold VerifyCharityCode.step. destruct found as [c|]; [|reflexivity].
  unfold bind at 1. unfold newDate at 1.
  destruct (negb (CharityCode.isValidForUse _ c)); [reflexivity|].
  unfold bind at 1. unfold useCode, bind, newDate. cbn [clock reads].
  destruct (negb (CharityCode.isValidForUse _ c)); [reflexivity|].
  unfold saveCharityCode, bind, getWorld. cbn [charityCodes].
  destruct (updateById _ _ _ _); reflexivity.
Qed.

(** X4: a grant is written by no request but one that is answered with
    success: whenever the answer is anything else, the users are left as
    they were. *)
Theorem grant_only_on_success (w : World) (u : User.t) (raw : string) :
  fst (VerifyCharityCode.handler u raw w) <> VerifyCharityCode.Done Success ->
  users (snd (VerifyCharityCode.handler u raw w)) = users w.
Proof.
  rewrite handler_unfold.
  destruct (VerifyCharityCode.step u (VerifyCharityCode.Start raw) w)
    as [pc1 w1] eqn:H1.
  assert (Hw1 : w1 = w /\
                ((exists res, pc1 = VerifyCharityCode.Done res)
                 \/ exists found, pc1 = VerifyCharityCode.Found found)).
  { unfold VerifyCharityCode.step in H1.
    destruct (validateCodeString raw); [injection H1 as <- <-; eauto|].
    destruct (User.canCreateCharity _); injection H1 as <- <-; eauto. }
  destruct Hw1 as [-> [[res ->]|[found ->]]]; [cbn; reflexivity|].
  pose proof (step_found_users w u found) as Husers.
  destruct (VerifyCharityCode.step u (VerifyCharityCode.Found found) w)
    as [pc2 w2] eqn:H2. cbn [snd] in Husers.
  assert (Hpc2 : (exists res, pc2 = VerifyCharityCode.Done res)
                 \/ exists c, pc2 = VerifyCharityCode.Used c).
  { unfold VerifyCharityCode.step, bind in H2.
    destruct found as [c|]; [|injection H2 as <- _; eauto].
    destruct (newDate w) as [now w'].
    destruct (negb (CharityCode.isValidForUse now c)).
    - destruct (newDate w'). injection H2 as <- _. eauto.
    - destruct (useCode (User._id u) c w') as [[c'|] w''];
        injection H2 as <- _; eauto. }
  destruct Hpc2 as [[res ->]|[c ->]]; [cbn; intros _; exact Husers|].
  change (VerifyCharityCode.step u (VerifyCharityCode.Used c) w2)
    with (VerifyCharityCode.Loaded c (findOne (byUserId (User._id u)) (users w2)), w2).
  cbv beta iota.
  destruct (findOne (byUserId (User._id u)) (users w2)) as [user|];
    [|cbn; intros _; exact Husers].
  unfold VerifyCharityCode.step, bind, VerifyCharityCode.attach, bind, newDate,
    saveUser, bind, getWorld. cbn [users].
  destruct (updateById _ _ _ (users w2)); cbn.
  - intros H. exfalso. apply H. reflexivity.
  - intros _. exact Husers.
Qed.

Lemma grant_only_on_success_witness :
  users (snd (VerifyCharityCode.handler Sample.alice "WXYZ5678" Sample.world))
  = users Sample.world.
Proof.
  apply (grant_only_on_success Sample.world Sample.alice "WXYZ5678").
  vm_compute. discriminate.
Defined.

(** ** Deactivation *)

(** X5: the deactivation of a stored code.  A used code is refused and
    nothing is written; an unused one is rewritten with [isActive]
    false, the other codes staying as they are, and is from then on valid
    for use at no time. *)
Theorem deactivate_effect (w : World) (id : ObjectId) (c : CharityCode.t) :
  findOne (fun d => Nat.eqb (CharityCode._id d) id) (charityCodes w) = Some c ->
  if CharityCode.isUsed c
  then Admin.Deactivate.handler id w = (Admin.Deactivate.alreadyUsed, w)
  else exists before after,
         charityCodes w = before ++ c :: after /\
         Admin.Deactivate.handler id w =
         (Admin.Deactivate.deactivated,
          setCodes (before ++ CharityCode.deactivate c :: after) (reads w) w) /\
         CharityCode.usedBy (CharityCode.deactivate c) = CharityCode.usedBy c /\
         forall now, CharityCode.isValidForUse now (CharityCode.deactivate c) = false.
Proof.
  intros Hfind. unfold Admin.Deactivate.handler, bind at 1, findCharityCode, bind,
    getWorld, ret. rewrite Hfind.
  destruct (CharityCode.isUsed c) eqn:Hused; [reflexivity|].
  assert (Hid : CharityCode._id c = id).
  { apply findOne_holds in Hfind. apply Nat.eqb_eq in Hfind. exact Hfind. }
  assert (Hfind' : findOne (fun d => Nat.eqb (CharityCode._id d) (CharityCode._id c))
                     (charityCodes w) = Some c) by (rewrite Hid; exact Hfind).
  destruct (updateById_found CharityCode._id (CharityCode._id c) CharityCode.deactivate
              (charityCodes w) c Hfind')
    as (before & after & Hsplit & Hupd & _).
  exists before, after. split; [exact Hsplit|]. split; [|split; [reflexivity|]].
  - unfold saveCharityCode, bind, getWorld. rewrite Hupd. reflexivity.
  - intros now. reflexivity.
Qed.

Lemma deactivate_effect_witness :
  exists before after,
    charityCodes Sample.world = before ++ Sample.code10 :: after /\
    Admin.Deactivate.handler 10 Sample.world =
    (Admin.Deactivate.deactivated,
     setCodes (before ++ CharityCode.deactivate Sample.code10 :: after) 0 Sample.world) /\
    CharityCode.usedBy (CharityCode.deactivate Sample.code10)
    = CharityCode.usedBy Sample.code10 /\
    forall now,
      CharityCode.isValidForUse now (CharityCode.deactivate Sample.code10) = false.
Proof.
  apply (deactivate_effect Sample.world 10 Sample.code10). reflexivity.
Defined.

(** ** The codes that are drawn *)

Lemma charAt_alphanum (i : nat) :
  i < 36 ->
  exists c, CharityCode.charAt i = String c EmptyString /\
            isAlphanum c = true /\ toUpperChar c = c.
Proof.
  intros Hi.
  do 36 (destruct i as [|i]; [eexists; repeat split|]).
  lia.
Qed.

Lemma generateCode_accepted (rand : nat -> nat) :
  (forall k, rand k < 36) ->
  String.length (CharityCode.generateCode rand) = 8 /\
  validateCodeString (CharityCode.generateCode rand)
  = inr (CharityCode.generateCode rand).
Proof.
  intros Hr. unfold CharityCode.generateCode. cbn [seq fold_left].
  destruct (charAt_alphanum (rand 0) (Hr 0)) as (c0 & -> & Ha0 & Hu0).
  destruct (charAt_alphanum (rand 1) (Hr 1)) as (c1 & -> & Ha1 & Hu1).
  destruct (charAt_alphanum (rand 2) (Hr 2)) as (c2 & -> & Ha2 & Hu2).
  destruct (charAt_alphanum (rand 3) (Hr 3)) as (c3 & -> & Ha3 & Hu3).
  destruct (charAt_alphanum (rand 4) (Hr 4)) as (c4 & -> & Ha4 & Hu4).
  destruct (charAt_alphanum (rand 5) (Hr 5)) as (c5 & -> & Ha5 & Hu5).
  destruct (charAt_alphanum (rand 6) (Hr 6)) as (c6 & -> & Ha6 & Hu6).
  destruct (charAt_alphanum (rand 7) (Hr 7)) as (c7 & -> & Ha7 & Hu7).
  cbv [String.append]. split; [reflexivity|].
  unfold validateCodeString, toUpperCase. cbn -[isAlphanum toUpperChar].
  rewrite Hu0, Hu1, Hu2, Hu3, Hu4, Hu5, Hu6, Hu7.
  rewrite Ha0, Ha1, Ha2, Ha3, Ha4, Ha5, Ha6, Ha7. reflexivity.
Qed.

(** X6: every code the generator draws has the format the redemption
    route asks for: eight upper-case alphanumeric characters, which the
    schema of the route accepts as they are. *)
Theorem drawn_code_is_accepted (w : World) :
  String.length (fst (drawCode w)) = 8 /\
  validateCodeString (fst (drawCode w)) = inr (fst (drawCode w)).
Proof.
  unfold drawCode. cbn [fst]. apply generateCode_accepted.
  intros k. apply Nat.mod_upper_bound. lia.
Qed.

(** ** The unique index and the batches *)

Lemma existsb_byCode_none (codes : list CharityCode.t) (code : string) :
  findOne (Admin.byCode code) codes = None ->
  existsb (Admin.byCode code) codes = false.
Proof.
  unfold findOne. induction codes as [|x rest IH]; [reflexivity|].
  cbn. destruct (Admin.byCode code x); [discriminate|exact IH].
Qed.

Lemma uniqueCodes_insert (codes : list CharityCode.t) (doc : CharityCode.t) :
  uniqueCodes codes = true ->
  findOne (Admin.byCode (CharityCode.code doc)) codes = None ->
  uniqueCodes (codes ++ [doc]) = true.
Proof.
  induction codes as [|x rest IH]; [reflexivity|].
  cbn [uniqueCodes app]. intros Hu Hnone.
  apply andb_true_iff in Hu as [Hx Hrest].
  unfold findOne in Hnone. cbn in Hnone.
  destruct (Admin.byCode (CharityCode.code doc) x) eqn:Hdx; [discriminate|].
  rewrite existsb_app, (IH Hrest Hnone), andb_true_r.
  apply negb_true_iff in Hx. rewrite Hx. cbn.
  unfold Admin.byCode in *. rewrite String.eqb_sym, Hdx. reflexivity.
Qed.

Lemma insertCharityCode_unique (doc : CharityCode.t) (w : World) :
  uniqueCodes (charityCodes w) = true ->
  uniqueCodes (charityCodes (snd (insertCharityCode doc w))) = true.
Proof.
  intros Hu. unfold insertCharityCode, bind, getWorld.
  destruct (findOne _ (charityCodes w)) eqn:Hfind; cbn; [exact Hu|].
  apply uniqueCodes_insert; assumption.
Qed.

(** A round of the loop of a batch writes nothing. *)
Lemma generate_codes (admin : ObjectId) (st : Admin.BulkCreate.State) (w : World) :
  charityCodes (snd (Admin.BulkCreate.generate admin st w)) = charityCodes w.
Proof.
  unfold Admin.BulkCreate.generate, bind, drawCode, findCharityCode, bind, getWorld,
    ret, freshId. cbn [charityCodes].
  destruct (Admin.BulkCreate.includes _ _); [reflexivity|].
  match goal with
  | |- context [findOne ?q ?l] => destruct (findOne q l)
  end; reflexivity.
Qed.

Lemma advance_unique (r : Admin.Request) (w : World) :
  uniqueCodes (charityCodes w) = true ->
  uniqueCodes (charityCodes (snd (Admin.advance r w))) = true.
Proof.
  intros Hu. destruct r as [admin pc|admin st]; unfold Admin.advance, bind.
  - destruct pc as [[code|] expiresAt description|doc|res];
      unfold Admin.CreateCode.step, bind, drawCode, findCharityCode, bind,
        getWorld, ret, freshId.
    + destruct (findOne _ (charityCodes w)); exact Hu.
    + cbn [charityCodes].
      match goal with
      | |- context [findOne ?q ?l] => destruct (findOne q l)
      end; exact Hu.
    + pose proof (insertCharityCode_unique doc w Hu) as H.
      destruct (insertCharityCode doc w). exact H.
    + exact Hu.
  - unfold Admin.BulkCreate.step.
    destruct (Admin.BulkCreate.res st); [exact Hu|].
    destruct (Admin.BulkCreate.pending st) as [|doc rest].
    + destruct (Admin.BulkCreate.i st <? Admin.BulkCreate.count st)%nat; [|exact Hu].
      pose proof (generate_codes admin st w) as H.
      destruct (Admin.BulkCreate.generate admin st w). cbn in *. rewrite H. exact Hu.
    + unfold Admin.BulkCreate.commit, bind.
      pose proof (insertCharityCode_unique doc w Hu) as H.
      destruct (insertCharityCode doc w). exact H.
Qed.

Lemma advanceAhead_unique (r : Admin.Request) (w : World) :
  uniqueCodes (charityCodes w) = true ->
  uniqueCodes (charityCodes (snd (Admin.advanceAhead r w))) = true.
Proof.
  intros Hu. destruct r as [admin pc|admin st]; unfold Admin.advanceAhead; [exact Hu|].
  unfold bind, Admin.BulkCreate.loopAhead.
  destruct (Admin.BulkCreate.res st); [exact Hu|].
  destruct (Admin.BulkCreate.i st <? Admin.BulkCreate.count st)%nat; [|exact Hu].
  pose proof (generate_codes admin st w) as H.
  destruct (Admin.BulkCreate.generate admin st w). cbn in *. rewrite H. exact Hu.
Qed.

(** X7: the creation routes never store a code twice.  Whatever requests
    the administrators send and however they interleave, if no two stored
    credentials had the same code before, none have afterwards: a save
    that would break the unique index is rejected, never carried out. *)
Theorem codes_stay_unique (schedule : list Admin.Move) (reqs : list Admin.Request)
    (w : World) :
  uniqueCodes (charityCodes w) = true ->
  uniqueCodes (charityCodes (snd (Admin.interleave schedule reqs w))) = true.
Proof.
  revert reqs w. induction schedule as [|m rest IH]; intros reqs w Hu; [exact Hu|].
  cbn [Admin.interleave].
  set (sel := match m with
              | Admin.Next i => (i, Admin.advance)
              | Admin.Ahead i => (i, Admin.advanceAhead)
              end).
  assert (Hf : forall r w0, uniqueCodes (charityCodes w0) = true ->
               uniqueCodes (charityCodes (snd (snd sel r w0))) = true).
  { intros r w0. destruct m; cbn; [apply advance_unique|apply advanceAhead_unique]. }
  destruct sel as [i f]. cbn in Hf.
  destruct (reqs !! i) as [r|]; [|apply IH, Hu].
  unfold bind. specialize (Hf r w Hu).
  destruct (f r w) as [r' w1]. apply IH. exact Hf.
Qed.

Lemma codes_stay_unique_witness :
  uniqueCodes
    (charityCodes
       (snd (Admin.interleave Scenario.rivalFirst Scenario.batchAndRival Sample.world)))
  = true.
Proof.
  apply (codes_stay_unique Scenario.rivalFirst Scenario.batchAndRival Sample.world).
  reflexivity.
Defined.

Lemma includes_In (code : string) (codes : list string) :
  Admin.BulkCreate.includes code codes = false -> ~ In code codes.
Proof.
  unfold Admin.BulkCreate.includes. intros H Hin.
  assert (existsb (String.eqb code) codes = true) as Hex.
  { apply existsb_exists. exists code. split; [exact Hin|apply String.eqb_refl]. }
  congruence.
Qed.

Lemma NoDup_snoc {A} (l : list A) (x : A) : NoDup l -> ~ In x l -> NoDup (l ++ [x]).
Proof.
  intros Hl Hx. apply NoDup_app. split; [exact Hl|]. split.
  - intros y Hy Hin. apply list_elem_of_In in Hy, Hin.
    destruct Hin as [<-|[]]. exact (Hx Hy).
  - apply NoDup_singleton.
Qed.

Lemma generate_count (admin : ObjectId) (st : Admin.BulkCreate.State) (w : World) :
  Admin.BulkCreate.res st = None ->
  Admin.BulkCreate.i st < Admin.BulkCreate.count st ->
  bulkCount st ->
  bulkCount (fst (Admin.BulkCreate.generate admin st w)).
Proof.
  intros Hres Hlt Hinv. unfold Admin.BulkCreate.generate, bind.
  destruct (drawCode w) as [code w1].
  destruct (Admin.BulkCreate.includes code (Admin.BulkCreate.codes st)) eqn:Hincl;
    [exact Hinv|].
  unfold findCharityCode, bind, getWorld, ret.
  destruct (findOne _ (charityCodes w1)); [exact Hinv|].
  destruct Hinv as (Hi & Hle & Hnd & Hmap & Hdone).
  cbn. unfold bulkCount. cbn.
  split; [rewrite length_app, Hi; cbn; lia|].
  split; [lia|].
  split; [apply NoDup_snoc; [exact Hnd|apply includes_In, Hincl]|].
  split.
  - intros Hrej. rewrite app_assoc, map_app, (Hmap Hrej). reflexivity.
  - rewrite Hres. intros [x Hx]. discriminate.
Qed.

Lemma bulk_step_count (admin : ObjectId) (st : Admin.BulkCreate.State) (w : World) :
  bulkCount st -> bulkCount (fst (Admin.BulkCreate.step admin st w)).
Proof.
  intros Hinv. unfold Admin.BulkCreate.step.
  destruct (Admin.BulkCreate.res st) eqn:Hres; [exact Hinv|].
  destruct (Admin.BulkCreate.pending st) as [|doc rest] eqn:Hpend.
  - destruct (Nat.ltb_spec (Admin.BulkCreate.i st) (Admin.BulkCreate.count st)).
    + apply generate_count; assumption.
    + destruct Hinv as (Hi & Hle & Hnd & Hmap & Hdone).
      cbn. unfold bulkCount. cbn.
      split; [exact Hi|]. split; [exact Hle|]. split; [exact Hnd|].
      split; [exact Hmap|]. intros _. split; [exact Hpend|exact H].
  - unfold Admin.BulkCreate.commit, bind.
    destruct (insertCharityCode doc w) as [ok w'].
    destruct Hinv as (Hi & Hle & Hnd & Hmap & Hdone).
    cbn. unfold bulkCount. cbn.
    split; [exact Hi|]. split; [exact Hle|]. split; [exact Hnd|]. split.
    + destruct ok; [|discriminate]. intros Hrej. rewrite <- (Hmap Hrej), Hpend.
      rewrite <- app_assoc. reflexivity.
    + rewrite Hres. intros [x Hx]. discriminate.
Qed.

Lemma loopAhead_count (admin : ObjectId) (st : Admin.BulkCreate.State) (w : World) :
  bulkCount st -> bulkCount (fst (Admin.BulkCreate.loopAhead admin st w)).
Proof.
  intros Hinv. unfold Admin.BulkCreate.loopAhead.
  destruct (Admin.BulkCreate.res st) eqn:Hres; [exact Hinv|].
  destruct (Nat.ltb_spec (Admin.BulkCreate.i st) (Admin.BulkCreate.count st));
    [|exact Hinv].
  apply generate_count; assumption.
Qed.

Lemma interleave_invariants (schedule : list Admin.Move) (reqs : list Admin.Request)
    (w : World) :
  Forall (requestInv w) reqs ->
  Forall requestCount reqs ->
  let '(reqs', w') := Admin.interleave schedule reqs w in
  Forall (requestInv w') reqs' /\ Forall requestCount reqs'.
Proof.
  revert reqs w. induction schedule as [|m rest IH]; intros reqs w Hinv Hcnt.
  - cbn. split; assumption.
  - cbn [Admin.interleave].
    set (sel := match m with
                | Admin.Next i => (i, Admin.advance)
                | Admin.Ahead i => (i, Admin.advanceAhead)
                end).
    assert (Hf : forall r w0, requestInv w0 r -> requestCount r ->
                 let '(r', w') := snd sel r w0 in
                 grows w0 w' /\ requestInv w' r' /\ requestCount r').
    { intros r w0 Hr Hc. destruct m; cbn.
      - pose proof (advance_spec r w0 Hr) as Hs.
        assert (Hc' : requestCount (fst (Admin.advance r w0))).
        { destruct r as [admin pc|admin st]; unfold Admin.advance, bind.
          - destruct (Admin.CreateCode.step admin pc w0). exact I.
          - pose proof (bulk_step_count admin st w0 Hc) as Hb.
            destruct (Admin.BulkCreate.step admin st w0). exact Hb. }
        destruct (Admin.advance r w0) as [r' w']. tauto.
      - pose proof (advanceAhead_spec r w0 Hr) as Hs.
        assert (Hc' : requestCount (fst (Admin.advanceAhead r w0))).
        { destruct r as [admin pc|admin st]; unfold Admin.advanceAhead; [exact I|].
          unfold bind. pose proof (loopAhead_count admin st w0 Hc) as Hb.
          destruct (Admin.BulkCreate.loopAhead admin st w0). exact Hb. }
        destruct (Admin.advanceAhead r w0) as [r' w']. tauto. }
    destruct sel as [i f]. cbn in Hf.
    destruct (reqs !! i) as [r|] eqn:Hlook; [|apply IH; assumption].
    unfold bind.
    pose proof (Hf r w (Forall_list_lookup _ _ _ _ Hinv Hlook)
                  (Forall_list_lookup _ _ _ _ Hcnt Hlook)) as Hstep.
    destruct (f r w) as [r' w1]. destruct Hstep as (Hg & Hr' & Hc').
    apply IH.
    + apply Forall_list_insert; [|exact Hr'].
      eapply Forall_impl; [exact Hinv|]. intros q. apply requestInv_grows, Hg.
    + apply Forall_list_insert; assumption.
Qed.

(** X8: a batch that is answered with success has stored exactly the
    number of codes asked for, with pairwise distinct codes, under every
    interleaving with other requests of the administrators. *)
Theorem bulk_create_success (schedule : list Admin.Move) (reqs : list Admin.Request)
    (w : World) :
  Forall (requestInv w) reqs ->
  Forall requestCount reqs ->
  let '(reqs', w') := Admin.interleave schedule reqs w in
  forall admin st,
    In (Admin.Bulk admin st) reqs' ->
    Admin.BulkCreate.res st
    = Some (Admin.BulkCreate.created (Admin.BulkCreate.count st)) ->
    length (Admin.BulkCreate.saved st) = Admin.BulkCreate.count st /\
    NoDup (map CharityCode.code (Admin.BulkCreate.saved st)) /\
    Forall (fun d => In d (charityCodes w')) (Admin.BulkCreate.saved st).
Proof.
  intros Hinv Hcnt.
  pose proof (interleave_invariants schedule reqs w Hinv Hcnt) as H.
  destruct (Admin.interleave schedule reqs w) as [reqs' w'].
  destruct H as [Hinv' Hcnt']. intros admin st Hin Hres.
  pose proof (proj1 (List.Forall_forall _ _) Hinv' _ Hin) as [Hsaved Hr].
  pose proof (proj1 (List.Forall_forall _ _) Hcnt' _ Hin)
    as (Hi & Hle & Hnd & Hmap & Hdone).
  assert (Hrej : Admin.BulkCreate.rejected st = false).
  { specialize (Hr _ Hres). destruct (Admin.BulkCreate.rejected st); [|reflexivity].
    discriminate. }
  destruct Hdone as [Hpend Hge]; [rewrite Hres; eexists; reflexivity|].
  specialize (Hmap Hrej). rewrite Hpend, app_nil_r in Hmap.
  repeat split.
  - rewrite <- (length_map CharityCode.code), Hmap. lia.
  - rewrite Hmap. exact Hnd.
  - exact Hsaved.
Qed.

Lemma bulk_create_success_witness :
  let '(reqs', w') :=
    Admin.interleave Scenario2.fiveSteps Scenario2.batchAlone Sample.world in
  forall admin st,
    In (Admin.Bulk admin st) reqs' ->
    Admin.BulkCreate.res st
    = Some (Admin.BulkCreate.created (Admin.BulkCreate.count st)) ->
    length (Admin.BulkCreate.saved st) = Admin.BulkCreate.count st /\
    NoDup (map CharityCode.code (Admin.BulkCreate.saved st)) /\
    Forall (fun d => In d (charityCodes w')) (Admin.BulkCreate.saved st).
Proof.
  apply (bulk_create_success Scenario2.fiveSteps Scenario2.batchAlone Sample.world).
  - repeat constructor; cbn; discriminate.
  - constructor; [|constructor]. cbn. unfold bulkCount. cbn.
    split; [reflexivity|]. split; [lia|]. split; [constructor|].
    split; [reflexivity|]. intros [x Hx]. discriminate.
Defined.

(** The batch of the witness is answered with success and has stored
    AAAAAAAA and BBBBBBBB, numbered 1/2 and 2/2. *)
Lemma bulk_create_alone :
  let '(reqs', w') :=
    Admin.interleave Scenario2.fiveSteps Scenario2.batchAlone Sample.world in
  map bulkResponse reqs' = [Some (Admin.BulkCreate.created 2)] /\
  map codeAndDescription (charityCodes w') =
    map codeAndDescription (charityCodes Sample.world)
    ++ [("AAAAAAAA", Some "Spring (1/2)"); ("BBBBBBBB", Some "Spring (2/2)")].
Proof. vm_compute. split; reflexivity. Qed.

(** ** The deletion of a user by an administrator *)

Lemma deleteById_found {A} (idOf : A -> ObjectId) id coll x :
  findOne (fun y => Nat.eqb (idOf y) id) coll = Some x ->
  exists before after,
    coll = before ++ x :: after /\
    deleteById idOf id coll = before ++ after /\
    Forall (fun y => Nat.eqb (idOf y) id = false) before.
Proof.
  unfold findOne. induction coll as [|y rest IH]; [discriminate|].
  cbn. destruct (Nat.eqb (idOf y) id) eqn:E.
  - intros [= ->]. exists [], rest. repeat split. constructor.
  - intros Hfind. destruct (IH Hfind) as (before & after & -> & -> & Hb).
    exists (y :: before), after. repeat split. constructor; assumption.
Qed.

(** X9: the deletion of an account that is no administrator removes that
    account, and of the charities exactly those it owns: every charity of
    another owner stays, none of its own does; the codes are untouched. *)
Theorem deleteUser_cascade (w : World) (id : ObjectId) (u : User.t) :
  findOne (byUserId id) (users w) = Some u ->
  User.accountType u <> User.admin ->
  let w' := snd (AdminUsers.deleteUser id w) in
  fst (AdminUsers.deleteUser id w) = AdminUsers.deleted /\
  (exists before after,
     users w = before ++ u :: after /\ users w' = before ++ after) /\
  (forall c, In c (charities w') <->
             In c (charities w) /\ Charity.owner c <> User._id u) /\
  charityCodes w' = charityCodes w.
Proof.
  intros Hfind Hadm w'. subst w'.
  unfold AdminUsers.deleteUser, bind at 1, findUserById, bind, getWorld, ret.
  unfold byUserId in Hfind. rewrite Hfind.
  destruct (User.AccountType_eqb (User.accountType u) User.admin) eqn:E.
  { apply AccountType_eqb_eq in E. contradiction. }
  cbn. split; [reflexivity|]. split; [|split; [|reflexivity]].
  - destruct (deleteById_found User._id id (users w) u Hfind)
      as (before & after & Hsplit & Hdel & _).
    exists before, after. split; assumption.
  - intros c. unfold deleteMany. rewrite filter_In, negb_true_iff, Nat.eqb_neq.
    assert (Hid : User._id u = id).
    { apply findOne_holds in Hfind. apply Nat.eqb_eq in Hfind. exact Hfind. }
    reflexivity.
Qed.

Lemma deleteUser_cascade_witness :
  let w' := snd (AdminUsers.deleteUser 1 Sample.world) in
  fst (AdminUsers.deleteUser 1 Sample.world) = AdminUsers.deleted /\
  (exists before after,
     users Sample.world = before ++ Sample.alice :: after /\
     users w' = before ++ after) /\
  (forall c, In c (charities w') <->
             In c (charities Sample.world) /\ Charity.owner c <> User._id Sample.alice) /\
  charityCodes w' = charityCodes Sample.world.
Proof.
  apply (deleteUser_cascade Sample.world 1 Sample.alice).
  - reflexivity.
  - discriminate.
Defined.

(** ** The dashboard *)

(** X10: the numbers of the dashboard are consistent: [inactiveUsers],
    computed as a difference, is the number of the users that are not
    active, the active and the inactive users are all the users, and
    there are no more administrators than users. *)
Theorem dashboard_counts_consistent (w : World) :
  let s := Dashboard.stats w in
  Dashboard.inactiveUsers s
  = countDocuments (fun u => negb (User.isActive u)) (users w) /\
  Dashboard.activeUsers s + Dashboard.inactiveUsers s = Dashboard.totalUsers s /\
  Dashboard.totalAdmins s <= Dashboard.totalUsers s /\
  Dashboard.totalCharities s = length (charities w).
Proof.
  cbn.
  pose proof (countDocuments_split (fun u => Bool.eqb (User.isActive u) true) (users w))
    as Hsplit.
  rewrite (countDocuments_ext (fun u => negb (Bool.eqb (User.isActive u) true))
             (fun u => negb (User.isActive u))) in Hsplit
    by (intros u; destruct (User.isActive u); reflexivity).
  rewrite !countDocuments_all.
  repeat split; try lia.
  rewrite <- (countDocuments_all (users w)).
  apply countDocuments_mono. reflexivity.
Qed.

(** ** Encryption on write, decryption on read *)

Section MoreCodec.
Import Encoding EncryptionUtil.
Local Open Scope Z_scope.

Lemma REPLACEMENT_scalar : is_scalar REPLACEMENT.
Proof. unfold is_scalar, REPLACEMENT. lia. Qed.

Lemma codePointToUnits_bmp c : 0 <= c < 0x10000 -> codePointToUnits c = [c].
Proof.
  intros Hc. unfold codePointToUnits.
  destruct (Z.ltb_spec c 0x10000); [reflexivity|lia].
Qed.

Lemma codePointToUnits_pair u v :
  isHighSurrogate u = true -> isLowSurrogate v = true ->
  codePointToUnits (0x10000 + (u - 0xD800) * 1024 + (v - 0xDC00)) = [u; v].
Proof.
  unfold isHighSurrogate, isLowSurrogate. intros Hu Hv.
  apply andb_true_iff in Hu as [H1 H2]. apply andb_true_iff in Hv as [H3 H4].
  apply Z.leb_le in H1, H2, H3, H4. unfold codePointToUnits.
  destruct (Z.ltb_spec (65536 + (u - 55296) * 1024 + (v - 56320)) 65536); [lia|].
  f_equal; [|f_equal]; Z.to_euclidean_division_equations; lia.
Qed.

Lemma pair_scalar u v :
  isHighSurrogate u = true -> isLowSurrogate v = true ->
  is_scalar (0x10000 + (u - 0xD800) * 1024 + (v - 0xDC00)).
Proof.
  unfold isHighSurrogate, isLowSurrogate, is_scalar. intros Hu Hv.
  apply andb_true_iff in Hu as [H1 H2]. apply andb_true_iff in Hv as [H3 H4].
  apply Z.leb_le in H1, H2, H3, H4. lia.
Qed.

Lemma not_surrogate_scalar u :
  isHighSurrogate u = false -> isLowSurrogate u = false ->
  0 <= u < 65536 -> is_scalar u.
Proof.
  unfold isHighSurrogate, isLowSurrogate, is_scalar. intros Hh Hl Hu.
  destruct (Z.leb_spec 0xD800 u), (Z.leb_spec u 0xDBFF),
    (Z.leb_spec 0xDC00 u), (Z.leb_spec u 0xDFFF); cbn in *;
    try discriminate; lia.
Qed.

(** Encoding then decoding a string replaces its unpaired surrogates. *)
Lemma utf8_sanitizes_bounded (n : nat) (s : jsstring) :
  (length s <= n)%nat ->
  isCodeUnits s = true ->
  Forall is_byte (utf8Write s) /\ utf8Slice (utf8Write s) = toWellFormed s.
Proof.
  unfold utf8Slice. revert s.
  induction n as [|n IH]; intros [|u t] Hlen Hcu;
    try (split; [constructor|reflexivity]); [cbn in Hlen; lia|].
  cbn [isCodeUnits forallb] in Hcu. apply andb_true_iff in Hcu as [Hu Hcu].
  apply andb_true_iff in Hu as [Hu0 Hu1]. apply Z.leb_le in Hu0. apply Z.ltb_lt in Hu1.
  assert (IHt : Forall is_byte (utf8Write t)
                /\ utf8DecodeFrom Idle (utf8Write t) = toWellFormed t).
  { apply IH; [cbn in Hlen; lia|exact Hcu]. }
  destruct IHt as [IHb IHs].
  cbn [utf8Write toWellFormed].
  destruct (isHighSurrogate u) eqn:Hhigh.
  - destruct t as [|v t'].
    + split; [apply encodeCodePoint_bytes, REPLACEMENT_scalar|].
      rewrite <- (app_nil_r (encodeCodePoint REPLACEMENT)).
      rewrite (decode_encodeCodePoint _ _ REPLACEMENT_scalar). reflexivity.
    + destruct (isLowSurrogate v) eqn:Hlow.
      * cbn [isCodeUnits forallb] in Hcu. apply andb_true_iff in Hcu as [_ Hcu'].
        destruct (IH t') as [IHb' IHs']; [cbn in Hlen; lia|exact Hcu'|].
        split.
        -- apply Forall_app. split; [|exact IHb'].
           apply encodeCodePoint_bytes, pair_scalar; assumption.
        -- rewrite (decode_encodeCodePoint _ _ (pair_scalar u v Hhigh Hlow)), IHs'.
           rewrite (codePointToUnits_pair u v Hhigh Hlow). reflexivity.
      * split.
        -- apply Forall_app. split; [|exact IHb].
           apply encodeCodePoint_bytes, REPLACEMENT_scalar.
        -- rewrite (decode_encodeCodePoint _ _ REPLACEMENT_scalar), IHs. reflexivity.
  - destruct (isLowSurrogate u) eqn:Hlow.
    + split.
      * apply Forall_app. split; [|exact IHb].
        apply encodeCodePoint_bytes, REPLACEMENT_scalar.
      * rewrite (decode_encodeCodePoint _ _ REPLACEMENT_scalar), IHs. reflexivity.
    + assert (Hs : is_scalar u) by (apply not_surrogate_scalar; [assumption..|lia]).
      split.
      * apply Forall_app. split; [apply encodeCodePoint_bytes, Hs|exact IHb].
      * rewrite (decode_encodeCodePoint _ _ Hs), IHs.
        rewrite codePointToUnits_bmp by lia. reflexivity.
Qed.

(** The digits of the hexadecimal form make a well-formed string. *)
Lemma hexSlice_isWellFormed bs :
  Forall is_byte bs -> isWellFormed (hexSlice bs) = true.
Proof.
  induction 1 as [|b bs Hb _ IH]; [reflexivity|].
  unfold is_byte in Hb. cbn [hexSlice flat_map app]. fold (hexSlice bs).
  assert (Hd : forall n, 0 <= n < 16 ->
               isHighSurrogate (hexDigit n) = false /\
               isLowSurrogate (hexDigit n) = false /\
               0 <= hexDigit n < 65536).
  { intros n Hn. unfold hexDigit, isHighSurrogate, isLowSurrogate.
    destruct (Z.ltb_spec n 10);
      repeat split; try lia;
      match goal with
      | |- (?a <=? ?b) && _ = false =>
        destruct (Z.leb_spec a b); [lia|reflexivity]
      end. }
  destruct (Hd (b / 16)) as (H1 & H2 & H3); [Z.to_euclidean_division_equations; lia|].
  destruct (Hd (b mod 16)) as (H4 & H5 & H6); [Z.to_euclidean_division_equations; lia|].
  cbn [isWellFormed]. rewrite H1, H2, H4, H5. cbn [negb andb].
  destruct H3 as [H3a H3b], H6 as [H6a H6b].
  apply Z.leb_le in H3a, H6a. apply Z.ltb_lt in H3b, H6b.
  rewrite H3a, H3b, H6a, H6b. exact IH.
Qed.

End MoreCodec.

Import Encoding EncryptionUtil.

(** X11: what decryption gives back for every string.  For a non-empty
    string of 16-bit code units, encrypting then decrypting yields the
    string with each unpaired surrogate replaced by U+FFFD, the cipher
    being one that the decipher inverts. *)
Theorem decrypt_encrypt_toWellFormed (K : Crypto) (s : jsstring) :
  CryptoSpec K ->
  s <> [] ->
  isCodeUnits s = true ->
  simpleDecrypt K (simpleEncrypt K (Str s)) = Str (toWellFormed s).
Proof.
  intros HK Hne Hcu.
  destruct (utf8_sanitizes_bounded (length s) s (Nat.le_refl _) Hcu) as [Hbytes Hback].
  unfold simpleEncrypt.
  destruct s as [|u t]; [congruence|]. cbn [truthy negb].
  unfold simpleDecrypt.
  rewrite (hexSlice_truthy _ (cipher_nonempty K HK _)). cbn [negb].
  rewrite (hex_round_trip _ (cipher_is_bytes K HK _ Hbytes)).
  rewrite (decipher_cipher K HK _ Hbytes), Hback. reflexivity.
Qed.

(** The string a, unpaired U+DC00, b is read back as a, U+FFFD, b. *)
Lemma decrypt_encrypt_toWellFormed_witness :
  simpleDecrypt SampleCrypto.crypto
    (simpleEncrypt SampleCrypto.crypto (Str [97; 56320; 98]%Z))
  = Str (toWellFormed [97; 56320; 98]%Z).
Proof.
  apply (decrypt_encrypt_toWellFormed SampleCrypto.crypto [97; 56320; 98]%Z).
  - exact SampleCrypto_spec.
  - discriminate.
  - reflexivity.
Defined.

(** A field that is plain is read back as it was written. *)
Lemma decrypt_encrypt_plain (K : Crypto) (v : JsVal) :
  CryptoSpec K -> plainOk v = true ->
  Charity.decryptIfSet K (CharityHooks.encryptIfSet K v) = v.
Proof.
  intros HK Hv. unfold CharityHooks.encryptIfSet.
  destruct (truthy v) eqn:Ht.
  - destruct v as [| |[|u t]]; try discriminate. cbn [plainOk] in Hv.
    destruct (utf8_round_trip (u :: t) Hv) as [Hbytes Hback].
    change (simpleEncrypt K (Str (u :: t)))
      with (Str (hexSlice (cipherBytes K (utf8Write (u :: t))))).
    unfold Charity.decryptIfSet.
    rewrite (hexSlice_truthy _ (cipher_nonempty K HK _)).
    unfold simpleDecrypt.
    rewrite (hexSlice_truthy _ (cipher_nonempty K HK _)). cbn [negb].
    rewrite (hex_round_trip _ (cipher_is_bytes K HK _ Hbytes)).
    rewrite (decipher_cipher K HK _ Hbytes), Hback. reflexivity.
  - unfold Charity.decryptIfSet. rewrite Ht. reflexivity.
Qed.

Lemma encryptIfModified_true (K : Crypto) (m : string -> bool) path v :
  m path = true ->
  PersonalInfo.encryptIfModified K m path v = CharityHooks.encryptIfSet K v.
Proof.
  intros Hm. unfold PersonalInfo.encryptIfModified, CharityHooks.encryptIfSet.
  rewrite Hm, andb_true_r. reflexivity.
Qed.

Lemma encryptIfModified_false (K : Crypto) (m : string -> bool) path v :
  m path = false -> PersonalInfo.encryptIfModified K m path v = v.
Proof.
  intros Hm. unfold PersonalInfo.encryptIfModified.
  rewrite Hm, andb_false_r. reflexivity.
Qed.

(** A non-empty plain string is read back from the unguarded loops. *)
Lemma decrypt_encrypt_strict (K : Crypto) (v : JsVal) :
  CryptoSpec K -> strictPlain v = true ->
  simpleDecrypt K (simpleEncrypt K v) = v.
Proof.
  intros HK Hv. destruct v as [| |[|u t]]; try discriminate.
  pose proof (decrypt_encrypt_plain K (Str (u :: t)) HK Hv) as H.
  unfold CharityHooks.encryptIfSet, Charity.decryptIfSet in H.
  change (truthy (Str (u :: t))) with true in H. cbv iota in H.
  change (simpleEncrypt K (Str (u :: t)))
    with (Str (hexSlice (cipherBytes K (utf8Write (u :: t))))) in *.
  rewrite (hexSlice_truthy _ (cipher_nonempty K HK _)) in H. exact H.
Qed.

(** What the hook has written is plain text to a second run of the hook. *)
Lemma encryptIfSet_plainOk (K : Crypto) (v : JsVal) :
  CryptoSpec K -> plainOk v = true -> plainOk (CharityHooks.encryptIfSet K v) = true.
Proof.
  intros HK Hv. unfold CharityHooks.encryptIfSet.
  destruct (truthy v) eqn:Ht; [|exact Hv].
  destruct v as [| |[|u t]]; try discriminate. cbn [plainOk] in Hv.
  destruct (utf8_round_trip (u :: t) Hv) as [Hbytes _].
  change (simpleEncrypt K (Str (u :: t)))
    with (Str (hexSlice (cipherBytes K (utf8Write (u :: t))))).
  pose proof (hexSlice_isWellFormed _ (cipher_is_bytes K HK _ Hbytes)) as Hwf.
  pose proof (hexSlice_truthy _ (cipher_nonempty K HK (utf8Write (u :: t)))) as Htr.
  destruct (hexSlice (cipherBytes K (utf8Write (u :: t)))); [discriminate|].
  exact Hwf.
Qed.

Ltac split_andb :=
  repeat match goal with
  | H : _ && _ = true |- _ => apply andb_true_iff in H; destruct H
  end.

(** X12: the personal information is read back as it was written.  When
    every path of it is modified and every value set is a well-formed
    string, [getDecryptedPersonalInfo] after the hook gives the record
    back; the country and the date of birth are stored as they are,
    whatever is modified. *)
Theorem personalInfo_round_trip (K : Crypto) (m : string -> bool) (p : PersonalInfo.t) :
  CryptoSpec K ->
  (forall path, m path = true) ->
  personalInfoOk p = true ->
  PersonalInfo.getDecryptedPersonalInfo K (PersonalInfo.preSave K m p) = p /\
  (forall m', PersonalInfo.dateOfBirth (PersonalInfo.preSave K m' p)
              = PersonalInfo.dateOfBirth p) /\
  (forall m', option_map PersonalInfo.Address.country
                (PersonalInfo.address (PersonalInfo.preSave K m' p))
              = option_map PersonalInfo.Address.country (PersonalInfo.address p)).
Proof.
  intros HK Hm Hok. split; [|split].
  - destruct p as [fn ln ph addr dob descr].
    unfold personalInfoOk in Hok. cbn in Hok. split_andb.
    unfold PersonalInfo.getDecryptedPersonalInfo, PersonalInfo.preSave. cbn.
    rewrite !(encryptIfModified_true K m) by apply Hm.
    rewrite !decrypt_encrypt_plain by assumption.
    destruct addr as [[st ci sta zi co]|]; [|reflexivity].
    cbn in *. split_andb.
    rewrite !(encryptIfModified_true K m) by apply Hm.
    rewrite !decrypt_encrypt_plain by assumption. reflexivity.
  - intros m'. reflexivity.
  - intros m'. destruct p as [fn ln ph [a|] dob descr]; reflexivity.
Qed.

Lemma personalInfo_round_trip_witness :
  PersonalInfo.getDecryptedPersonalInfo SampleCrypto.crypto
    (PersonalInfo.preSave SampleCrypto.crypto (fun _ => true) Scenario2.person)
  = Scenario2.person /\
  (forall m', PersonalInfo.dateOfBirth
                (PersonalInfo.preSave SampleCrypto.crypto m' Scenario2.person)
              = PersonalInfo.dateOfBirth Scenario2.person) /\
  (forall m', option_map PersonalInfo.Address.country
                (PersonalInfo.address
                   (PersonalInfo.preSave SampleCrypto.crypto m' Scenario2.person))
              = option_map PersonalInfo.Address.country
                  (PersonalInfo.address Scenario2.person)).
Proof.
  apply (personalInfo_round_trip SampleCrypto.crypto (fun _ => true) Scenario2.person).
  - exact SampleCrypto_spec.
  - reflexivity.
  - reflexivity.
Defined.

Lemma option_map_compose' {A B C} (f : A -> B) (g : B -> C) (o : option A) :
  option_map g (option_map f o) = option_map (fun x => g (f x)) o.
Proof. destruct o; reflexivity. Qed.

(** ** Charities: what is stored and what is shown *)

Lemma map_decrypt_encrypt_strict (K : Crypto) (l : list JsVal) :
  CryptoSpec K -> forallb strictPlain l = true ->
  map (simpleDecrypt K) (map (simpleEncrypt K) l) = l.
Proof.
  intros HK. induction l as [|v l IH]; [reflexivity|].
  cbn. intros H. apply andb_true_iff in H as [Hv Hl].
  rewrite (decrypt_encrypt_strict K v HK Hv), (IH Hl). reflexivity.
Qed.

Lemma decrypt_encrypt_program (K : Crypto) (p : Charity.Program.t) :
  CryptoSpec K -> programOk p = true ->
  Charity.decryptProgram K (CharityHooks.encryptProgram K p) = p.
Proof.
  intros HK Hp. destruct p. unfold programOk in Hp. cbn in Hp. split_andb.
  unfold Charity.decryptProgram, CharityHooks.encryptProgram. cbn.
  rewrite !decrypt_encrypt_plain by assumption. reflexivity.
Qed.

Lemma map_decrypt_encrypt_program (K : Crypto) (ps : list Charity.Program.t) :
  CryptoSpec K -> forallb programOk ps = true ->
  map (Charity.decryptProgram K) (map (CharityHooks.encryptProgram K) ps) = ps.
Proof.
  intros HK. induction ps as [|p ps IH]; [reflexivity|].
  cbn. intros H. apply andb_true_iff in H as [Hp Hps].
  rewrite (decrypt_encrypt_program K p HK Hp), (IH Hps). reflexivity.
Qed.

Lemma encryptProgram_programOk (K : Crypto) (p : Charity.Program.t) :
  CryptoSpec K -> programOk p = true ->
  programOk (CharityHooks.encryptProgram K p) = true.
Proof.
  intros HK Hp. destruct p. unfold programOk in *. cbn in *. split_andb.
  rewrite !encryptIfSet_plainOk by assumption. reflexivity.
Qed.

Lemma map_decrypt_encrypt_custom (K : Crypto) (kvs : list (string * JsVal)) :
  CryptoSpec K -> forallb strictPlain (map snd kvs) = true ->
  map (fun kv => (fst kv, simpleDecrypt K (snd kv)))
      (map (fun kv => (fst kv, simpleEncrypt K (snd kv))) kvs) = kvs.
Proof.
  intros HK. induction kvs as [|[k v] kvs IH]; [reflexivity|].
  cbn. intros H. apply andb_true_iff in H as [Hv Hl].
  rewrite (decrypt_encrypt_strict K v HK Hv), (IH Hl). reflexivity.
Qed.

Lemma decrypt_encrypt_address (K : Crypto) (m : string -> bool) path
    (a : Charity.Address.t) :
  CryptoSpec K -> (forall p, m p = true) ->
  forallb plainOk (Charity.addressFields a) = true ->
  Charity.decryptAddress K (CharityHooks.encryptAddress K m path a) = a.
Proof.
  intros HK Hm Ha. destruct a. cbn in Ha. split_andb.
  unfold Charity.decryptAddress, CharityHooks.encryptAddress,
    CharityHooks.encryptIfModified. cbn.
  rewrite !(encryptIfModified_true K m) by apply Hm.
  rewrite !decrypt_encrypt_plain by assumption. reflexivity.
Qed.

Lemma forallb_app_true {A} (f : A -> bool) (l1 l2 : list A) :
  forallb f (l1 ++ l2) = true -> forallb f l1 = true /\ forallb f l2 = true.
Proof. rewrite forallb_app. apply andb_true_iff. Qed.

Ltac split_all :=
  repeat match goal with
  | H : _ && _ = true |- _ => apply andb_true_iff in H; destruct H
  | H : forallb _ (_ ++ _) = true |- _ => apply forallb_app_true in H; destruct H
  end.

Section RoundTrip.
Variable K : Crypto.
Variable m : string -> bool.
Hypothesis HK : CryptoSpec K.
Hypothesis Hm : forall path, m path = true.

Ltac leaves :=
  cbn in *; split_all;
  rewrite ?(encryptIfModified_true K m) by apply Hm;
  rewrite ?decrypt_encrypt_plain by assumption;
  try reflexivity.

Lemma round_trip_basicInfo (b : Charity.BasicInfo.t) :
  forallb plainOk (Charity.basicInfoFields b) = true ->
  Charity.decryptBasicInfo K (CharityHooks.encryptBasicInfo K m b) = b.
Proof.
  intros H. destruct b.
  unfold Charity.decryptBasicInfo, CharityHooks.encryptBasicInfo,
    CharityHooks.encryptIfModified. leaves.
Qed.

Lemma round_trip_primaryContact (c : Charity.PrimaryContact.t) :
  forallb plainOk (Charity.primaryContactFields c) = true ->
  Charity.decryptPrimaryContact K (CharityHooks.encryptPrimaryContact K m c) = c.
Proof.
  intros H. destruct c.
  unfold Charity.decryptPrimaryContact, CharityHooks.encryptPrimaryContact,
    CharityHooks.encryptIfModified. leaves.
Qed.

Lemma round_trip_bankingInfo (b : Charity.BankingInfo.t) :
  forallb plainOk (Charity.bankingInfoFields b) = true ->
  Charity.decryptBankingInfo K (CharityHooks.encryptBankingInfo K m b) = b.
Proof.
  intros H. destruct b.
  unfold Charity.decryptBankingInfo, CharityHooks.encryptBankingInfo,
    CharityHooks.encryptIfModified. leaves.
Qed.

Lemma round_trip_option {A} (fields : A -> list JsVal) (f : A -> A) (o : option A) :
  (forall x, forallb plainOk (fields x) = true -> f x = x) ->
  forallb plainOk (Charity.optFields fields o) = true ->
  option_map f o = o.
Proof.
  intros Hf Ho. destruct o as [x|]; [|reflexivity].
  cbn in *. rewrite (Hf x Ho). reflexivity.
Qed.

Lemma round_trip_legalInfo (l : Charity.LegalInfo.t) :
  forallb plainOk (Charity.legalInfoFields l) = true ->
  Charity.decryptLegalInfo K (CharityHooks.encryptLegalInfo K m l) = l.
Proof.
  intros H. destruct l as [rn ti ls ra].
  unfold Charity.legalInfoFields in H. cbn in H. split_all.
  unfold Charity.decryptLegalInfo, CharityHooks.encryptLegalInfo,
    CharityHooks.encryptIfModified. cbn.
  rewrite !(encryptIfModified_true K m) by apply Hm.
  rewrite !decrypt_encrypt_plain by assumption.
  f_equal. rewrite option_map_compose'.
  apply (round_trip_option Charity.addressFields); [|assumption].
  intros a Ha. apply (decrypt_encrypt_address K m _ a HK Hm Ha).
Qed.

Lemma round_trip_contactInfo (c : Charity.ContactInfo.t) :
  forallb plainOk (Charity.contactInfoFields c) = true ->
  Charity.decryptContactInfo K (CharityHooks.encryptContactInfo K m c) = c.
Proof.
  intros H. destruct c as [pc ma].
  unfold Charity.contactInfoFields in H. cbn in H. split_all.
  unfold Charity.decryptContactInfo, CharityHooks.encryptContactInfo. cbn.
  rewrite !option_map_compose'. f_equal.
  - apply (round_trip_option Charity.primaryContactFields); [|assumption].
    intros x. apply round_trip_primaryContact.
  - apply (round_trip_option Charity.addressFields); [|assumption].
    intros a Ha. apply (decrypt_encrypt_address K m _ a HK Hm Ha).
Qed.

End RoundTrip.

(** X13: a charity is read back as it was written.  When every path is
    modified (as on a new document), every field set is a well-formed
    string and the funding sources and the custom fields are non-empty
    well-formed strings, [getDecryptedData] after the hook gives the
    record back. *)
Theorem charity_round_trip (K : Crypto) (m : string -> bool) (c : Charity.t) :
  CryptoSpec K ->
  (forall path, m path = true) ->
  charityOk c = true ->
  Charity.getDecryptedData K (CharityHooks.preSave K m c) = c.
Proof.
  intros HK Hm Hok. destruct c as [id owner bi li ci fi ps st pub logo cf tags cats].
  unfold charityOk in Hok. cbn in Hok. split_all.
  unfold Charity.getDecryptedData, CharityHooks.preSave. cbn.
  rewrite !Hm, !option_map_compose'.
  f_equal.
  - apply (round_trip_option Charity.basicInfoFields); [|assumption].
    intros x. apply (round_trip_basicInfo K m HK Hm).
  - apply (round_trip_option Charity.legalInfoFields); [|assumption].
    intros x. apply (round_trip_legalInfo K m HK Hm).
  - apply (round_trip_option Charity.contactInfoFields); [|assumption].
    intros x. apply (round_trip_contactInfo K m HK Hm).
  - destruct fi as [[ab fs bk]|]; [|reflexivity]. cbn in *. split_all.
    unfold Charity.decryptFinancialInfo, CharityHooks.encryptFinancialInfo,
      CharityHooks.encryptIfModified. cbn.
    rewrite !Hm, !option_map_compose'.
    rewrite !(encryptIfModified_true K m) by apply Hm.
    rewrite !decrypt_encrypt_plain by assumption.
    do 2 f_equal.
    + destruct fs as [l|]; [|reflexivity]. cbn in *.
      rewrite (map_decrypt_encrypt_strict K l HK) by assumption. reflexivity.
    + apply (round_trip_option Charity.bankingInfoFields); [|assumption].
      intros x. apply (round_trip_bankingInfo K m HK Hm).
  - destruct ps as [l|]; [|reflexivity]. cbn in *.
    rewrite (map_decrypt_encrypt_program K l HK) by assumption. reflexivity.
  - destruct cf as [kvs|]; [|reflexivity]. cbn in *.
    rewrite (map_decrypt_encrypt_custom K kvs HK) by assumption. reflexivity.
Qed.

Lemma charity_round_trip_witness :
  Charity.getDecryptedData SampleCrypto.crypto Scenario2.stored = Scenario2.plain.
Proof.
  apply (charity_round_trip SampleCrypto.crypto (fun _ => true) Scenario2.plain).
  - exact SampleCrypto_spec.
  - reflexivity.
  - vm_compute. reflexivity.
Defined.

(** ** The charities *)

Lemma filter_findOne_none {A} (q : A -> bool) coll :
  findOne q coll = None -> List.filter q coll = [].
Proof.
  unfold findOne. induction coll as [|x rest IH]; [reflexivity|].
  cbn. destruct (q x); [discriminate|exact IH].
Qed.

Lemma findOne_In {A} (q : A -> bool) coll x :
  In x coll -> q x = true -> exists y, findOne q coll = Some y.
Proof.
  intros Hin Hq. unfold findOne. destruct (find q coll) as [y|] eqn:E; [eauto|].
  rewrite (find_none q coll E x Hin) in Hq. discriminate.
Qed.

(** X14: a charity that was created is listed, readable, to its owner.
    For a user the guard lets through who owns no charity yet, POST /
    answers 201 and stores one more charity, encrypted by the hook; GET
    /my-charities then gives its name and description as they were sent,
    pending and not public. *)
Theorem create_then_listed (K : Crypto) (u : User.t) (value : Charities.Input)
    (w : World) :
  CryptoSpec K ->
  Middleware.canCreateCharity u = Middleware.Next tt ->
  findOne (Charities.byOwner (User._id u)) (charities w) = None ->
  forallb plainOk (Charity.basicInfoFields (Charities.basicInfo value)) = true ->
  let w' := snd (Charities.create K u (inr value) w) in
  fst (Charities.create K u (inr value) w) = Charities.created /\
  charities w' =
    charities w ++
    [CharityHooks.preSave K (fun _ => true)
       (Charities.newCharity (nextId w) (User._id u) value)] /\
  fst (Charities.myCharities K u w') =
    [ {| Charities.id := nextId w;
         Charities.name := Some (Charity.BasicInfo.name (Charities.basicInfo value));
         Charities.description :=
           Some (Charity.BasicInfo.description (Charities.basicInfo value));
         Charities.status := Charity.pending;
         Charities.isPublic := false |} ].
Proof.
  intros HK Hcan Hnone Hok.
  unfold Charities.create. rewrite Hcan.
  unfold bind, getWorld, ret, freshId, putCharities. cbn [fst snd].
  rewrite Hnone. cbn [Charities.is_Some_b andb fst snd charities].
  split; [reflexivity|]. split; [reflexivity|].
  unfold Charities.myCharities, bind, getWorld, ret. cbn [fst snd charities].
  rewrite List.filter_app, (filter_findOne_none _ _ Hnone).
  cbn [List.filter app]. unfold Charities.byOwner at 1.
  cbn [CharityHooks.preSave Charities.newCharity Charity.owner].
  rewrite Nat.eqb_refl. cbn [map].
  unfold Charities.summary, Charity.getDecryptedData, CharityHooks.preSave,
    Charities.newCharity.
  cbn [Charity._id Charity.basicInfo Charity.status Charity.isPublic option_map].
  rewrite (round_trip_basicInfo K (fun _ => true) HK (fun _ => eq_refl) _ Hok).
  reflexivity.
Qed.

Lemma create_then_listed_witness :
  fst (Charities.myCharities SampleCrypto.crypto Sample.carol
         (snd (Charities.create SampleCrypto.crypto Sample.carol
                 (inr Scenario2.input) Sample.world))) =
  [ {| Charities.id := 100;
       Charities.name := Some (EncryptionUtil.Str Scenario2.aid);
       Charities.description := Some EncryptionUtil.Undefined;
       Charities.status := Charity.pending;
       Charities.isPublic := false |} ].
Proof.
  apply (create_then_listed SampleCrypto.crypto Sample.carol Scenario2.input
           Sample.world SampleCrypto_spec); reflexivity.
Defined.

(** The two steps, run without interruption, are the handler. *)
Lemma create_steps (K : Crypto) (u : User.t)
    (validated : JoiError + Charities.Input) (w : World) :
  (pc <- Charities.step K u (Charities.Start validated) ;; Charities.step K u pc) w
  = (Charities.Done (fst (Charities.create K u validated w)),
     snd (Charities.create K u validated w)).
Proof.
  unfold Charities.create, Charities.step, bind.
  destruct (Middleware.canCreateCharity u); [|reflexivity].
  destruct validated as [e|value]; [reflexivity|].
  unfold getWorld, ret, freshId, putCharities. cbn [fst snd].
  destruct (Charities.is_Some_b
              (findOne (Charities.byOwner (User._id u)) (charities w))
            && User.AccountType_eqb (User.accountType u) User.individual);
    reflexivity.
Qed.

Lemma countDocuments_app {A} (q : A -> bool) (l1 l2 : list A) :
  countDocuments q (l1 ++ l2) = countDocuments q l1 + countDocuments q l2.
Proof. unfold countDocuments. rewrite List.filter_app, length_app. reflexivity. Qed.

Lemma interleave_cons (K : Crypto) (i : nat) (rest : list nat)
    (reqs : list Charities.Request) (r : Charities.Request) (w : World) :
  reqs !! i = Some r ->
  Charities.interleave K (i :: rest) reqs w =
  Charities.interleave K rest
    (<[i := {| Charities.reqUser := Charities.reqUser r;
               Charities.pc := fst (Charities.step K (Charities.reqUser r)
                                      (Charities.pc r) w) |}]> reqs)
    (snd (Charities.step K (Charities.reqUser r) (Charities.pc r) w)).
Proof.
  intros Hr. cbn [Charities.interleave]. rewrite Hr.
  unfold Charities.advance, bind, ret. cbv beta.
  destruct (Charities.step K (Charities.reqUser r) (Charities.pc r) w).
  reflexivity.
Qed.

Lemma step_lookup (K : Crypto) (u : User.t) (value : Charities.Input) (w : World) :
  Middleware.canCreateCharity u = Middleware.Next tt ->
  Charities.step K u (Charities.Start (inr value)) w =
  (Charities.Looked value (findOne (Charities.byOwner (User._id u)) (charities w)), w).
Proof. intros Hcan. cbn [Charities.step]. rewrite Hcan. reflexivity. Qed.

Lemma step_refuse_second (K : Crypto) (u : User.t) (value : Charities.Input)
    (c : Charity.t) (w : World) :
  User.accountType u = User.individual ->
  Charities.step K u (Charities.Looked value (Some c)) w
  = (Charities.Done Charities.onlyOne, w).
Proof. intros Hkind. cbn [Charities.step]. rewrite Hkind. reflexivity. Qed.

(** X15: the limit of one charity for an individual account is a check
    followed by a separate save.  For an individual who holds a grant and
    owns no charity, two creation requests that run one after the other
    are answered 201 and then 400, and one charity is stored; when both
    look up before either saves, both are answered 201 and the account
    owns two charities. *)
Theorem create_limit_is_check_then_act (K : Crypto) (u : User.t)
    (first second : Charities.Input) (w : World) :
  User.accountType u = User.individual ->
  User.canCreateCharity (User.charityAuthorization u) = true ->
  findOne (Charities.byOwner (User._id u)) (charities w) = None ->
  let reqs :=
    [ {| Charities.reqUser := u; Charities.pc := Charities.Start (inr first) |};
      {| Charities.reqUser := u; Charities.pc := Charities.Start (inr second) |} ] in
  let owned (result : list Charities.Request * World) :=
    countDocuments (Charities.byOwner (User._id u)) (charities (snd result)) in
  (map Charities.response (fst (Charities.interleave K [0; 0; 1; 1] reqs w))
   = [Some Charities.created; Some Charities.onlyOne] /\
   owned (Charities.interleave K [0; 0; 1; 1] reqs w) = 1) /\
  (map Charities.response (fst (Charities.interleave K [0; 1; 0; 1] reqs w))
   = [Some Charities.created; Some Charities.created] /\
   owned (Charities.interleave K [0; 1; 0; 1] reqs w) = 2).
Proof.
  intros Hkind Hgrant Hnone reqs owned. subst reqs owned.
  assert (Hcan : Middleware.canCreateCharity u = Middleware.Next tt).
  { unfold Middleware.canCreateCharity. rewrite Hkind, Hgrant. reflexivity. }
  assert (Hzero : countDocuments (Charities.byOwner (User._id u)) (charities w) = 0).
  { unfold countDocuments. rewrite (filter_findOne_none _ _ Hnone). reflexivity. }
  assert (Hown : forall id value,
            Charities.byOwner (User._id u)
              (CharityHooks.preSave K (fun _ => true)
                 (Charities.newCharity id (User._id u) value)) = true).
  { intros id value. unfold Charities.byOwner. cbn. apply Nat.eqb_refl. }
  assert (Hfound : forall id value,
            findOne (Charities.byOwner (User._id u))
              (charities w ++
               [CharityHooks.preSave K (fun _ => true)
                  (Charities.newCharity id (User._id u) value)])
            = Some (CharityHooks.preSave K (fun _ => true)
                      (Charities.newCharity id (User._id u) value))).
  { intros id value. apply findOne_middle; [|apply Hown].
    apply List.Forall_forall. intros c Hc.
    destruct (Charities.byOwner (User._id u) c) eqn:E; [|reflexivity].
    unfold findOne in Hnone. rewrite (find_none _ _ Hnone c Hc) in E. discriminate. }
  split.
  - erewrite (interleave_cons K 0 _ _ _ w); [|reflexivity].
    cbn [Charities.reqUser Charities.pc].
    rewrite (step_lookup K u first w Hcan), Hnone.
    cbn [fst snd insert list_insert].
    erewrite (interleave_cons K 0 _ _ _ w); [|reflexivity].
    cbn [Charities.reqUser Charities.pc insert list_insert].
    set (w1 := snd (Charities.step K u (Charities.Looked first None) w)).
    change (fst (Charities.step K u (Charities.Looked first None) w))
      with (Charities.Done Charities.created).
    erewrite (interleave_cons K 1 _ _ _ w1); [|reflexivity].
    cbn [Charities.reqUser Charities.pc insert list_insert].
    rewrite (step_lookup K u second w1 Hcan).
    change (charities w1)
      with (charities w ++
            [CharityHooks.preSave K (fun _ => true)
               (Charities.newCharity (nextId w) (User._id u) first)]).
    rewrite Hfound. cbn [fst snd].
    erewrite (interleave_cons K 1 _ _ _ w1); [|reflexivity].
    cbn [Charities.reqUser Charities.pc insert list_insert].
    rewrite (step_refuse_second K u second _ w1 Hkind).
    cbn [Charities.interleave ret fst snd map Charities.response Charities.pc].
    split; [reflexivity|].
    change (charities w1)
      with (charities w ++
            [CharityHooks.preSave K (fun _ => true)
               (Charities.newCharity (nextId w) (User._id u) first)]).
    rewrite countDocuments_app, Hzero. unfold countDocuments. cbn [List.filter].
    rewrite Hown. reflexivity.
  - erewrite (interleave_cons K 0 _ _ _ w); [|reflexivity].
    cbn [Charities.reqUser Charities.pc].
    rewrite (step_lookup K u first w Hcan), Hnone.
    cbn [fst snd insert list_insert].
    erewrite (interleave_cons K 1 _ _ _ w); [|reflexivity].
    cbn [Charities.reqUser Charities.pc insert list_insert].
    rewrite (step_lookup K u second w Hcan), Hnone.
    cbn [fst snd].
    erewrite (interleave_cons K 0 _ _ _ w); [|reflexivity].
    cbn [Charities.reqUser Charities.pc insert list_insert].
    set (w1 := snd (Charities.step K u (Charities.Looked first None) w)).
    change (fst (Charities.step K u (Charities.Looked first None) w))
      with (Charities.Done Charities.created).
    erewrite (interleave_cons K 1 _ _ _ w1); [|reflexivity].
    cbn [Charities.reqUser Charities.pc insert list_insert].
    set (w2 := snd (Charities.step K u (Charities.Looked second None) w1)).
    change (fst (Charities.step K u (Charities.Looked second None) w1))
      with (Charities.Done Charities.created).
    cbn [Charities.interleave ret fst snd map Charities.response Charities.pc].
    split; [reflexivity|].
    change (charities w2)
      with ((charities w ++
             [CharityHooks.preSave K (fun _ => true)
                (Charities.newCharity (nextId w) (User._id u) first)]) ++
            [CharityHooks.preSave K (fun _ => true)
               (Charities.newCharity (S (nextId w)) (User._id u) second)]).
    rewrite !countDocuments_app, Hzero. unfold countDocuments. cbn [List.filter].
    rewrite !Hown. reflexivity.
Qed.

Lemma create_limit_is_check_then_act_witness :
  let reqs :=
    [ {| Charities.reqUser := Sample.carol;
         Charities.pc := Charities.Start (inr Scenario2.input) |};
      {| Charities.reqUser := Sample.carol;
         Charities.pc := Charities.Start (inr Scenario2.input) |} ] in
  let owned (result : list Charities.Request * World) :=
    countDocuments (Charities.byOwner (User._id Sample.carol))
      (charities (snd result)) in
  (map Charities.response
     (fst (Charities.interleave SampleCrypto.crypto [0; 0; 1; 1] reqs Sample.world))
   = [Some Charities.created; Some Charities.onlyOne] /\
   owned (Charities.interleave SampleCrypto.crypto [0; 0; 1; 1] reqs Sample.world) = 1) /\
  (map Charities.response
     (fst (Charities.interleave SampleCrypto.crypto [0; 1; 0; 1] reqs Sample.world))
   = [Some Charities.created; Some Charities.created] /\
   owned (Charities.interleave SampleCrypto.crypto [0; 1; 0; 1] reqs Sample.world) = 2).
Proof.
  apply (create_limit_is_check_then_act SampleCrypto.crypto Sample.carol
           Scenario2.input Scenario2.input Sample.world); reflexivity.
Defined.

(** *** A save that modifies no encrypted path *)

Section Unmodified.
Variable K : Crypto.
Variable m : string -> bool.
Hypothesis Hm : forall path, path <> "status" -> m path = false.

Ltac untouched :=
  unfold CharityHooks.encryptIfModified;
  rewrite ?(encryptIfModified_false K m) by (apply Hm; cbv; discriminate);
  try reflexivity.

Lemma encryptAddress_unmodified path (a : Charity.Address.t) :
  path = "legalInfo.registeredAddress" \/ path = "contactInfo.mailingAddress" ->
  CharityHooks.encryptAddress K m path a = a.
Proof.
  intros [-> | ->]; destruct a; unfold CharityHooks.encryptAddress; cbn; untouched.
Qed.

Lemma option_map_id {A} (f : A -> A) (o : option A) :
  (forall x, f x = x) -> option_map f o = o.
Proof. intros Hf. destruct o as [x|]; [cbn; rewrite Hf|]; reflexivity. Qed.

Lemma preSave_unmodified (c : Charity.t) : CharityHooks.preSave K m c = c.
Proof.
  destruct c as [id owner bi li ci fi ps st pub logo cf tags cats].
  unfold CharityHooks.preSave. cbn.
  rewrite !Hm by (cbv; discriminate).
  f_equal; apply option_map_id.
  - intros []. unfold CharityHooks.encryptBasicInfo. cbn. untouched.
  - intros [rn ti ls ra]. unfold CharityHooks.encryptLegalInfo. cbn. untouched.
    f_equal. apply option_map_id. intros a.
    apply encryptAddress_unmodified. left. reflexivity.
  - intros [pc ma]. unfold CharityHooks.encryptContactInfo. cbn. f_equal.
    + apply option_map_id. intros [].
      unfold CharityHooks.encryptPrimaryContact. cbn. untouched.
    + apply option_map_id. intros a.
      apply encryptAddress_unmodified. right. reflexivity.
  - intros [ab fs bk]. unfold CharityHooks.encryptFinancialInfo. cbn.
    rewrite !Hm by (cbv; discriminate). untouched.
    f_equal. apply option_map_id. intros [].
    unfold CharityHooks.encryptBankingInfo. cbn. untouched.
Qed.

End Unmodified.

(** X16: a change of status encrypts nothing again.  For a status of the
    enumeration and a stored charity, PUT /charities/:id/status answers
    200 and the stored charity differs from the one before in its status
    only; the other charities, the users and the codes are as before. *)
Theorem status_update_keeps_cipher_text (K : Crypto) (id : ObjectId)
    (body : gmap string JSON) (s : Charity.Status) (c : Charity.t) (w : World) :
  CharityStatus.parse (body !! "status") = Some s ->
  findOne (Charities.byId id) (charities w) = Some c ->
  let w' := snd (CharityStatus.update K id body w) in
  fst (CharityStatus.update K id body w) = CharityStatus.updated /\
  (exists before after,
     charities w = before ++ c :: after /\
     charities w' = before ++ CharityStatus.set_status s c :: after) /\
  users w' = users w /\ charityCodes w' = charityCodes w.
Proof.
  intros Hparse Hfind.
  pose proof (findOne_holds _ _ _ Hfind) as Hid.
  unfold Charities.byId in Hid. apply Nat.eqb_eq in Hid.
  unfold CharityStatus.update. rewrite Hparse.
  unfold Charities.saveCharity, bind, getWorld, ret. cbn [fst snd].
  rewrite Hfind. cbn [fst snd].
  rewrite preSave_unmodified
    by (intros path Hp; apply String.eqb_neq; congruence).
  destruct (updateById_found Charity._id (Charity._id c)
              (fun _ => CharityStatus.set_status s c) (charities w) c)
    as (before & after & Hw & Hupd & _).
  { rewrite Hid. exact Hfind. }
  rewrite Hupd. unfold putCharities. cbn [fst snd charities users charityCodes].
  split; [reflexivity|]. split; [|split; reflexivity].
  exists before, after. split; [exact Hw|reflexivity].
Qed.

Lemma status_update_keeps_cipher_text_witness :
  fst (CharityStatus.update SampleCrypto.crypto 60
         {[ "status" := JStr "suspended" ]} Scenario2.withCharity)
  = CharityStatus.updated /\
  (exists before after,
     charities Scenario2.withCharity = before ++ Scenario2.stored :: after /\
     charities (snd (CharityStatus.update SampleCrypto.crypto 60
                       {[ "status" := JStr "suspended" ]} Scenario2.withCharity))
     = before ++ CharityStatus.set_status Charity.suspended Scenario2.stored :: after) /\
  users (snd (CharityStatus.update SampleCrypto.crypto 60
                {[ "status" := JStr "suspended" ]} Scenario2.withCharity))
  = users Scenario2.withCharity /\
  charityCodes (snd (CharityStatus.update SampleCrypto.crypto 60
                       {[ "status" := JStr "suspended" ]} Scenario2.withCharity))
  = charityCodes Scenario2.withCharity.
Proof.
  apply (status_update_keeps_cipher_text SampleCrypto.crypto 60
           {[ "status" := JStr "suspended" ]} Charity.suspended Scenario2.stored
           Scenario2.withCharity).
  - vm_compute. reflexivity.
  - vm_compute. reflexivity.
Defined.

(** *** A program more *)

Lemma map_encryptProgram_programOk (K : Crypto) (ps : list Charity.Program.t) :
  CryptoSpec K -> forallb programOk ps = true ->
  forallb programOk (map (CharityHooks.encryptProgram K) ps) = true.
Proof.
  intros HK. induction ps as [|p ps IH]; [reflexivity|].
  cbn [forallb map]. intros H. apply andb_true_iff in H as [Hp Hps].
  rewrite (encryptProgram_programOk K p HK Hp), (IH Hps). reflexivity.
Qed.

Lemma authorizeCharityOwner_allowed (u : User.t) (id : ObjectId) (c : Charity.t)
    (w : World) :
  findOne (Charities.byId id) (charities w) = Some c ->
  Middleware.authorizeCharityOwner u id w =
  (if Nat.eqb (Charity.owner c) (User._id u)
      || User.AccountType_eqb (User.accountType u) User.admin
   then Middleware.Next c else Middleware.Respond Middleware.notOwner, w).
Proof.
  intros Hfind. unfold Middleware.authorizeCharityOwner, bind, getWorld, ret.
  cbn [fst snd]. change (fun c0 => Nat.eqb (Charity._id c0) id) with (Charities.byId id).
  rewrite Hfind.
  destruct (Nat.eqb (Charity.owner c) (User._id u));
    destruct (User.AccountType_eqb (User.accountType u) User.admin); reflexivity.
Qed.

(** X17: a program more encrypts the programs of before once more.  When
    the owner of a charity, or an administrator, adds a program to a
    charity whose programs are stored encrypted, POST /:id/programs
    answers 201 and a read of the stored charity gives the new program as
    it was sent, but the programs of before as their cipher text. *)
Theorem addProgram_encrypts_again (K : Crypto) (u : User.t) (id : ObjectId)
    (c : Charity.t) (ps : list Charity.Program.t)
    (name description targetAudience budget : EncryptionUtil.JsVal)
    (startDate endDate : option Date) (w : World) :
  CryptoSpec K ->
  findOne (Charities.byId id) (charities w) = Some c ->
  Charity.owner c = User._id u \/ User.accountType u = User.admin ->
  Charity.programs c = Some (map (CharityHooks.encryptProgram K) ps) ->
  forallb programOk ps = true ->
  forallb plainOk [name; description; targetAudience; budget] = true ->
  let program :=
    {| Charity.Program.name := name;
       Charity.Program.description := description;
       Charity.Program.targetAudience := targetAudience;
       Charity.Program.budget := budget;
       Charity.Program.startDate := startDate;
       Charity.Program.endDate := endDate;
       Charity.Program.isActive := true |} in
  let result :=
    Charities.addProgram K u id name description targetAudience budget
      startDate endDate w in
  fst result = Charities.programAdded /\
  exists before after stored,
    charities w = before ++ c :: after /\
    charities (snd result) = before ++ stored :: after /\
    Charity.programs (Charity.getDecryptedData K stored) =
      Some (map (CharityHooks.encryptProgram K) ps ++ [program]).
Proof.
  intros HK Hfind Hallowed Hps Hok Hnew program result.
  pose proof (findOne_holds _ _ _ Hfind) as Hid.
  unfold Charities.byId in Hid. apply Nat.eqb_eq in Hid.
  assert (Hguard : Nat.eqb (Charity.owner c) (User._id u)
                   || User.AccountType_eqb (User.accountType u) User.admin = true).
  { destruct Hallowed as [-> | ->].
    - rewrite Nat.eqb_refl. reflexivity.
    - apply orb_true_r. }
  subst result. unfold Charities.addProgram, Charities.saveCharity, bind, ret, getWorld.
  rewrite !(authorizeCharityOwner_allowed u id c w Hfind), !Hguard. cbn [fst snd].
  destruct (updateById_found Charity._id (Charity._id c)
              (Charities.set_programs
                 (Charity.programs
                    (CharityHooks.preSave K (String.eqb "programs")
                       (Charities.push program c))))
              (charities w) c)
    as (before & after & Hw & Hupd & _).
  { rewrite Hid. exact Hfind. }
  fold program. rewrite Hupd. unfold putCharities. cbn [fst snd charities].
  split; [reflexivity|].
  eexists before, after, _. split; [exact Hw|]. split; [reflexivity|].
  unfold Charities.push. rewrite Hps.
  cbn. rewrite map_decrypt_encrypt_program; [reflexivity|exact HK|].
  rewrite forallb_app, (map_encryptProgram_programOk K ps HK Hok).
  cbn [andb forallb]. rewrite andb_true_r. exact Hnew.
Qed.

Lemma addProgram_encrypts_again_witness :
  let result :=
    Charities.addProgram SampleCrypto.crypto Sample.carol 60
      (EncryptionUtil.Str Scenario2.lee) EncryptionUtil.Undefined
      EncryptionUtil.Undefined EncryptionUtil.Undefined None None
      Scenario2.withCharity in
  fst result = Charities.programAdded /\
  exists before after stored,
    charities Scenario2.withCharity = before ++ Scenario2.stored :: after /\
    charities (snd result) = before ++ stored :: after /\
    Charity.programs (Charity.getDecryptedData SampleCrypto.crypto stored) =
      Some (map (CharityHooks.encryptProgram SampleCrypto.crypto)
              [Scenario2.program (EncryptionUtil.Str Scenario2.ann)]
            ++ [Scenario2.program (EncryptionUtil.Str Scenario2.lee)]).
Proof.
  apply (addProgram_encrypts_again SampleCrypto.crypto Sample.carol 60
           Scenario2.stored [Scenario2.program (EncryptionUtil.Str Scenario2.ann)]
           (EncryptionUtil.Str Scenario2.lee) EncryptionUtil.Undefined
           EncryptionUtil.Undefined EncryptionUtil.Undefined None None
           Scenario2.withCharity SampleCrypto_spec).
  - reflexivity.
  - left. reflexivity.
  - reflexivity.
  - reflexivity.
  - reflexivity.
Defined.

(** *** What a reader sees of a charity *)

(** X18: a reader who is neither the owner nor an administrator is shown
    a charity only if it is public, and then without its legal and
    financial information. *)
Theorem getById_outsider (K : Crypto) (reqUser : option User.t) (id : ObjectId)
    (c d : Charity.t) (w : World) :
  findOne (Charities.byId id) (charities w) = Some c ->
  outsider reqUser c = true ->
  fst (Charities.getById K reqUser id w) = inr d ->
  Charity.isPublic c = true /\
  d = Charities.withoutSensitive (Charity.getDecryptedData K c) /\
  Charity.legalInfo d = None /\ Charity.financialInfo d = None.
Proof.
  intros Hfind Hout. unfold Charities.getById, bind, getWorld, ret.
  cbn [fst snd]. rewrite Hfind.
  destruct reqUser as [u|].
  - cbn [outsider] in Hout. apply andb_true_iff in Hout as [Hown Hadm].
    destruct (findOne (fun u0 => Nat.eqb (User._id u0) (Charity.owner c)) (users w))
      as [o|] eqn:Ho; [|discriminate].
    pose proof (findOne_holds _ _ _ Ho) as Hoid. cbn in Hoid.
    apply Nat.eqb_eq in Hoid. rewrite Hoid, Hown, Hadm.
    destruct (Charity.isPublic c); cbn; [|discriminate].
    intros [= <-]. repeat split.
  - destruct (findOne (fun u0 => Nat.eqb (User._id u0) (Charity.owner c)) (users w));
      (destruct (Charity.isPublic c); cbn; [|discriminate]);
      intros [= <-]; repeat split.
Qed.

Lemma getById_outsider_witness :
  Charity.isPublic Scenario2.stored = true /\
  Charities.withoutSensitive Scenario2.plain =
  Charities.withoutSensitive
    (Charity.getDecryptedData SampleCrypto.crypto Scenario2.stored) /\
  Charity.legalInfo (Charities.withoutSensitive Scenario2.plain) = None /\
  Charity.financialInfo (Charities.withoutSensitive Scenario2.plain) = None.
Proof.
  apply (getById_outsider SampleCrypto.crypto (Some Sample.bob) 60 Scenario2.stored
           (Charities.withoutSensitive Scenario2.plain) Scenario2.withCharity).
  - reflexivity.
  - reflexivity.
  - vm_compute. reflexivity.
Defined.

(** X19: only its owner or an administrator deletes a charity.  For a
    stored charity, DELETE /:id removes that charity alone when the user
    owns it or is an administrator; for anyone else it answers 403 and
    the charities are as before. *)
Theorem delete_charity (u : User.t) (id : ObjectId) (c : Charity.t) (w : World) :
  findOne (Charities.byId id) (charities w) = Some c ->
  let allowed :=
    Nat.eqb (Charity.owner c) (User._id u)
    || User.AccountType_eqb (User.accountType u) User.admin in
  let w' := snd (Charities.delete u id w) in
  fst (Charities.delete u id w) =
    (if allowed then Charities.deleted else Middleware.notOwner) /\
  (exists before after,
     charities w = before ++ c :: after /\
     charities w' = if allowed then before ++ after else charities w) /\
  users w' = users w /\ charityCodes w' = charityCodes w.
Proof.
  intros Hfind allowed w'. subst w'. unfold Charities.delete, bind.
  rewrite !(authorizeCharityOwner_allowed u id c w Hfind).
  fold allowed.
  destruct (deleteById_found Charity._id id (charities w) c Hfind)
    as (before & after & Hw & Hdel & _).
  destruct allowed.
  - unfold getWorld, ret, putCharities. cbn [fst snd charities users charityCodes].
    split; [reflexivity|]. split; [|split; reflexivity].
    exists before, after. split; [exact Hw|exact Hdel].
  - unfold ret. cbn [fst snd].
    split; [reflexivity|]. split; [|split; reflexivity].
    exists before, after. split; [exact Hw|reflexivity].
Qed.

Lemma delete_charity_witness :
  fst (Charities.delete Sample.bob 60 Scenario2.withCharity) = Middleware.notOwner /\
  (exists before after,
     charities Scenario2.withCharity = before ++ Scenario2.stored :: after /\
     charities (snd (Charities.delete Sample.bob 60 Scenario2.withCharity))
     = charities Scenario2.withCharity) /\
  users (snd (Charities.delete Sample.bob 60 Scenario2.withCharity))
  = users Scenario2.withCharity /\
  charityCodes (snd (Charities.delete Sample.bob 60 Scenario2.withCharity))
  = charityCodes Scenario2.withCharity.
Proof.
  apply (delete_charity Sample.bob 60 Scenario2.stored Scenario2.withCharity).
  reflexivity.
Defined.

(** ** The session *)

Lemma existsb_eqb_In (t : string) (ts : list string) :
  existsb (String.eqb t) ts = true <-> In t ts.
Proof.
  rewrite existsb_exists. split.
  - intros (x & Hin & Heq). apply String.eqb_eq in Heq. subst. exact Hin.
  - intros Hin. exists t. split; [exact Hin|apply String.eqb_refl].
Qed.

Lemma In_rotate (t t' s : string) (ts : list string) :
  In s (Refresh.rotate t t' ts) <-> (In s ts /\ s <> t) \/ s = t'.
Proof.
  unfold Refresh.rotate. rewrite in_app_iff, filter_In, negb_true_iff, String.eqb_neq.
  cbn. intuition.
Qed.

(** X20: a refresh token is exchanged once.  For a token that verifies,
    names a stored user and is among that user's tokens, POST /refresh
    gives the new pair and stores the new refresh token in the place of
    the one presented, the user's other tokens staying; provided the new
    token differs from it, presenting the old one again is refused. *)
Theorem refresh_rotates (verify : string -> option ObjectId)
    (generateTokens : ObjectId -> string * string)
    (t : string) (id : ObjectId) (u : User.t) (w : World) :
  t <> "" ->
  verify t = Some id ->
  findOne (byUserId id) (users w) = Some u ->
  In t (User.refreshTokens u) ->
  let access := fst (generateTokens (User._id u)) in
  let t' := snd (generateTokens (User._id u)) in
  let w' := snd (Refresh.handler verify generateTokens (Some t) w) in
  fst (Refresh.handler verify generateTokens (Some t) w) = Refresh.Tokens access t' /\
  (exists u',
     findOne (byUserId id) (users w') = Some u' /\
     forall s, In s (User.refreshTokens u') <->
               (In s (User.refreshTokens u) /\ s <> t) \/ s = t') /\
  (t' <> t ->
   Refresh.handler verify generateTokens (Some t) w' =
   (Refresh.Refused Refresh.invalidToken, w')).
Proof.
  intros Hne Hver Hfind Hin access t' w'.
  pose proof (findOne_holds _ _ _ Hfind) as Hid.
  unfold byUserId in Hid. apply Nat.eqb_eq in Hid.
  assert (Hstep :
    Refresh.handler verify generateTokens (Some t) w =
    (Refresh.Tokens access t',
     snd (putUsers
            (match updateById User._id (User._id u)
                     (Refresh.set_refreshTokens
                        (Refresh.rotate t t' (User.refreshTokens u))) (users w) with
             | Some us => us
             | None => users w
             end) w))).
  { unfold Refresh.handler. apply String.eqb_neq in Hne. rewrite Hne, Hver.
    unfold findUserById, saveUser, bind, getWorld, ret. cbn [fst snd].
    change (fun u0 => Nat.eqb (User._id u0) id) with (byUserId id).
    rewrite Hfind. apply existsb_eqb_In in Hin. rewrite Hin. cbn [negb].
    subst access t'. destruct (generateTokens (User._id u)) as [a r]. cbn [fst snd].
    destruct (updateById_found User._id (User._id u)
                (Refresh.set_refreshTokens (Refresh.rotate t r (User.refreshTokens u)))
                (users w) u) as (before & after & _ & Hupd & _).
    { rewrite Hid. exact Hfind. }
    rewrite Hupd. reflexivity. }
  destruct (updateById_found User._id (User._id u)
              (Refresh.set_refreshTokens (Refresh.rotate t t' (User.refreshTokens u)))
              (users w) u) as (before & after & Hw & Hupd & Hbefore).
  { rewrite Hid. exact Hfind. }
  assert (Hfind' :
    findOne (byUserId id) (users w') =
    Some (Refresh.set_refreshTokens (Refresh.rotate t t' (User.refreshTokens u)) u)).
  { subst w'. rewrite Hstep, Hupd. unfold putUsers. cbn [snd users].
    apply findOne_middle.
    - rewrite <- Hid. exact Hbefore.
    - unfold byUserId. cbn. rewrite Hid. apply Nat.eqb_refl. }
  split; [rewrite Hstep; reflexivity|]. split.
  - eexists. split; [exact Hfind'|]. intros s. cbn [Refresh.set_refreshTokens
      User.refreshTokens]. apply In_rotate.
  - intros Hdiff. unfold Refresh.handler.
    apply String.eqb_neq in Hne. rewrite Hne, Hver.
    unfold findUserById, bind, getWorld, ret. cbn [fst snd].
    change (fun u0 => Nat.eqb (User._id u0) id) with (byUserId id).
    rewrite Hfind'. cbn [Refresh.set_refreshTokens User.refreshTokens].
    destruct (existsb (String.eqb t) (Refresh.rotate t t' (User.refreshTokens u)))
      eqn:E; [|reflexivity].
    apply existsb_eqb_In, In_rotate in E. destruct E as [[_ E] | E]; congruence.
Qed.

Lemma refresh_rotates_witness :
  fst (Refresh.handler Scenario2.verify Scenario2.generateTokens (Some "token")
         Sample.world) = Refresh.Tokens "access" "next" /\
  (exists u',
     findOne (byUserId 1)
       (users (snd (Refresh.handler Scenario2.verify Scenario2.generateTokens
                      (Some "token") Sample.world))) = Some u' /\
     forall s, In s (User.refreshTokens u') <->
               (In s (User.refreshTokens Sample.alice) /\ s <> "token") \/ s = "next") /\
  ("next" <> "token" ->
   Refresh.handler Scenario2.verify Scenario2.generateTokens (Some "token")
     (snd (Refresh.handler Scenario2.verify Scenario2.generateTokens (Some "token")
             Sample.world)) =
   (Refresh.Refused Refresh.invalidToken,
    snd (Refresh.handler Scenario2.verify Scenario2.generateTokens (Some "token")
           Sample.world))).
Proof.
  apply (refresh_rotates Scenario2.verify Scenario2.generateTokens "token" 1
           Sample.alice Sample.world).
  - discriminate.
  - reflexivity.
  - reflexivity.
  - left. reflexivity.
Defined.

(** What [auth] asks of a request it lets through. *)
Lemma auth_next (verify : string -> option ObjectId)
    (authorization : option string) (w : World) (reqUser : User.t) :
  fst (Middleware.auth verify authorization w) = Middleware.Next reqUser ->
  exists stored,
    findOne (byUserId (User._id reqUser)) (users w) = Some stored /\
    User.isActive stored = true /\
    reqUser = Middleware.selected stored.
Proof.
  unfold Middleware.auth. destruct authorization as [header|]; cbn [option_map].
  2: { discriminate. }
  destruct (String.eqb (Middleware.removeFirst "Bearer " header) "");
    [discriminate|].
  destruct (verify (Middleware.removeFirst "Bearer " header)) as [userId|];
    [|discriminate].
  unfold findUserById, bind, getWorld, ret. cbn [fst snd].
  destruct (findOne (fun u => Nat.eqb (User._id u) userId) (users w)) as [u|] eqn:Hfind;
    [|discriminate].
  destruct (User.isActive u) eqn:Hact; cbn [negb fst snd]; [|discriminate].
  intros [= <-]. exists u.
  pose proof (findOne_holds _ _ _ Hfind) as Hid. apply Nat.eqb_eq in Hid.
  cbn [Middleware.selected User._id]. unfold byUserId. rewrite Hid.
  repeat split; assumption.
Qed.

Lemma assign_id (value : AdminUsers.Update) (u : User.t) :
  User._id (AdminUsers.assign value u) = User._id u.
Proof.
  unfold AdminUsers.assign.
  destruct (AdminUsers.accountType value), (AdminUsers.isActive value); reflexivity.
Qed.

Lemma assign_isActive (value : AdminUsers.Update) (u : User.t) (b : bool) :
  AdminUsers.isActive value = Some b ->
  User.isActive (AdminUsers.assign value u) = b.
Proof.
  unfold AdminUsers.assign. intros ->.
  destruct (AdminUsers.accountType value); reflexivity.
Qed.

(** X21: an account an administrator deactivates is locked out at once.
    After PUT /users/:id with [isActive] false on a stored account that
    is no administrator, [auth] lets no request through as that account,
    whatever its header: a token that verifies and names the account is
    answered 401, though the token itself is as valid as before. *)
Theorem deactivation_locks_out (verify : string -> option ObjectId)
    (id : ObjectId) (u : User.t) (body : gmap string JSON)
    (value : AdminUsers.Update) (w : World) :
  findOne (byUserId id) (users w) = Some u ->
  User.accountType u <> User.admin ->
  AdminUsers.validate body = inr value ->
  AdminUsers.isActive value = Some false ->
  let w' := snd (AdminUsers.updateUser id body w) in
  fst (AdminUsers.updateUser id body w) = AdminUsers.updated /\
  (forall authorization reqUser,
     fst (Middleware.auth verify authorization w') = Middleware.Next reqUser ->
     User._id reqUser <> id) /\
  (forall header,
     Middleware.removeFirst "Bearer " header <> "" ->
     verify (Middleware.removeFirst "Bearer " header) = Some id ->
     Middleware.auth verify (Some header) w'
     = (Middleware.Respond Middleware.notActive, w')).
Proof.
  intros Hfind Hkind Hval Hoff w'.
  pose proof (findOne_holds _ _ _ Hfind) as Hid.
  unfold byUserId in Hid. apply Nat.eqb_eq in Hid.
  destruct (updateById_found User._id (User._id u) (AdminUsers.assign value)
              (users w) u) as (before & after & Hw & Hupd & Hbefore).
  { rewrite Hid. exact Hfind. }
  assert (Hnot : User.AccountType_eqb (User.accountType u) User.admin = false).
  { destruct (User.accountType u); try reflexivity. contradiction Hkind. reflexivity. }
  assert (Hrun : AdminUsers.updateUser id body w =
                 (AdminUsers.updated,
                  snd (putUsers (before ++ AdminUsers.assign value u :: after) w))).
  { unfold AdminUsers.updateUser. rewrite Hval.
    unfold findUserById, saveUser, bind, getWorld, ret. cbn [fst snd].
    change (fun u0 => Nat.eqb (User._id u0) id) with (byUserId id).
    rewrite Hfind, Hnot, Hupd. reflexivity. }
  assert (Hfind' : findOne (byUserId id) (users w')
                   = Some (AdminUsers.assign value u)).
  { subst w'. rewrite Hrun. unfold putUsers. cbn [snd users].
    apply findOne_middle.
    - rewrite <- Hid. exact Hbefore.
    - unfold byUserId. rewrite assign_id, Hid. apply Nat.eqb_refl. }
  split; [rewrite Hrun; reflexivity|]. split.
  - intros authorization reqUser Hnext Heq.
    destruct (auth_next verify authorization w' reqUser Hnext)
      as (stored & Hstored & Hact & _).
    rewrite Heq, Hfind' in Hstored. injection Hstored as <-.
    rewrite (assign_isActive value u false Hoff) in Hact. discriminate.
  - intros header Hne Hver. unfold Middleware.auth. cbn [option_map].
    apply String.eqb_neq in Hne. rewrite Hne, Hver.
    unfold findUserById, bind, getWorld, ret. cbn [fst snd].
    change (fun u0 => Nat.eqb (User._id u0) id) with (byUserId id).
    rewrite Hfind', (assign_isActive value u false Hoff). reflexivity.
Qed.

Lemma deactivation_locks_out_witness :
  let body : gmap string JSON := {[ "isActive" := JBool false ]} in
  let w' := snd (AdminUsers.updateUser 1 body Sample.world) in
  fst (AdminUsers.updateUser 1 body Sample.world) = AdminUsers.updated /\
  (forall authorization reqUser,
     fst (Middleware.auth Scenario2.verify authorization w') = Middleware.Next reqUser ->
     User._id reqUser <> 1) /\
  (forall header,
     Middleware.removeFirst "Bearer " header <> "" ->
     Scenario2.verify (Middleware.removeFirst "Bearer " header) = Some 1 ->
     Middleware.auth Scenario2.verify (Some header) w'
     = (Middleware.Respond Middleware.notActive, w')).
Proof.
  apply (deactivation_locks_out Scenario2.verify 1 Sample.alice
           {[ "isActive" := JBool false ]}
           {| AdminUsers.accountType := None; AdminUsers.isActive := Some false |}
           Sample.world).
  - reflexivity.
  - discriminate.
  - vm_compute. reflexivity.
  - reflexivity.
Defined.
